(** * SMTP_CHECK: the keepalived SMTP health checker (check/check_smtp.c)

    A shallow embedding of the checker's run-time part: the line buffer, the
    status parser, the socket I/O driver, the protocol engine, the connect
    orchestrator and the final handler with its retry / failover policy.

    The C functions run as callbacks of a single-threaded scheduler.  Each
    callback is embedded as a computation in a small monad that threads the
    checker's data structures, records the calls made to the outside world
    (scheduler registrations, log lines, health transitions, alerts, system
    calls) as a trace of events, and stops on a NULL dereference.  What the
    outside world answers (the result of [read], [write], [socket], the
    connection state) is an argument of the callback.

    The configuration part of the file follows: the comparison of two
    configurations and the keyword handlers, as functions on the state
    that the parser threads through them. *)

From Stdlib Require Import ZArith String Ascii Bool Lia List.
Import ListNotations.
Local Open Scope Z_scope.

(** ** Machine integers

    The structures are declared in headers that are not among the sources
    (check_api.h, check_smtp.h).  The counters are taken with the types
    their uses call for: [unsigned] for [retry] and [retry_it], and
    [size_t] for [host_ctr] and [buff_ctr] (the code adds [(size_t)r] to
    [buff_ctr] and passes [host_ctr] to [list_element]); widths are those
    of Linux on a 64-bit machine. *)

(** [unsigned]: 32 bits. *)
Definition UINT_MODULUS : Z := 2 ^ 32.
(** [size_t] and [unsigned long]: 64 bits. *)
Definition SIZE_MODULUS : Z := 2 ^ 64.
Definition ULONG_MAX : Z := 2 ^ 64 - 1.

Definition wrap_uint (z : Z) : Z := z mod UINT_MODULUS.
Definition wrap_size (z : Z) : Z := z mod SIZE_MODULUS.

(** Conversion of an [unsigned long] to [int], as gcc defines it: reduction
    modulo 2^32 into the signed range. *)
Definition int_of_ulong (v : Z) : Z :=
  let m := v mod 2 ^ 32 in
  if m <? 2 ^ 31 then m else m - 2 ^ 32.

(** ** C strings and character arrays *)

Definition NUL : ascii := Ascii.zero.

Definition char_code (c : ascii) : Z := Z.of_nat (nat_of_ascii c).

Definition is_nul (c : ascii) : bool := char_code c =? 0.

(** [buff[i]]; reading past the modelled bytes yields the terminator. *)
Definition char_at (l : list ascii) (i : Z) : ascii :=
  if i <? 0 then NUL else nth (Z.to_nat i) l NUL.

(** [buff[i] = c] on an array: a store outside the array is not modelled
    (the list is left as it is). *)
Fixpoint store_nat (l : list ascii) (i : nat) (c : ascii) : list ascii :=
  match l, i with
  | [], _ => []
  | _ :: t, O => c :: t
  | h :: t, S j => h :: store_nat t j c
  end.

Definition store (l : list ascii) (i : Z) (c : ascii) : list ascii :=
  if i <? 0 then l else store_nat l (Z.to_nat i) c.

(** The bytes of a C string: everything before the first NUL. *)
Fixpoint c_str (l : list ascii) : list ascii :=
  match l with
  | [] => []
  | c :: t => if is_nul c then [] else c :: c_str t
  end.

Definition strlen (l : list ascii) : Z := Z.of_nat (length (c_str l)).

(** Copy [src] into the array [dst] from offset [off] on, as far as the array
    reaches. *)
Fixpoint blit_nat (dst : list ascii) (off : nat) (src : list ascii) : list ascii :=
  match dst, off with
  | [], _ => []
  | d :: t, S k => d :: blit_nat t k src
  | d :: t, O =>
      match src with
      | [] => d :: t
      | s :: src' => s :: blit_nat t O src'
      end
  end.

(** [isspace] and [isdigit] of <ctype.h> in the C locale. *)
Definition isspace (c : ascii) : bool :=
  let n := char_code c in (n =? 32) || ((9 <=? n) && (n <=? 13)).

Definition isdigit (c : ascii) : bool :=
  let n := char_code c in (48 <=? n) && (n <=? 57).

Definition digit_value (c : ascii) : Z := char_code c - 48.

(** ** [strtoul (buff, &endptr, 10)] *)

(** Number of leading white-space characters. *)
Fixpoint span_space (l : list ascii) : nat :=
  match l with
  | c :: t => if isspace c then S (span_space t) else O
  | [] => O
  end.

(** The leading decimal digits: their value (started from [acc]) and their
    number. *)
Fixpoint span_digits (l : list ascii) (acc : Z) : Z * nat :=
  match l with
  | c :: t =>
      if isdigit c
      then let '(v, n) := span_digits t (acc * 10 + digit_value c) in (v, S n)
      else (acc, O)
  | [] => (acc, O)
  end.

(** The subject sequence is: optional white space, an optional sign, decimal
    digits.  The result is the value as an [unsigned long] (negated in that
    type after a minus sign, ULONG_MAX when out of range) and the offset of
    the first character not consumed; with no digits nothing is consumed. *)
Definition strtoul (s : list ascii) : Z * Z :=
  let ws := span_space s in
  let after_ws := skipn ws s in
  let '(neg, sign_len) :=
    match after_ws with
    | c :: _ =>
        if char_code c =? 45 then (true, 1%nat)
        else if char_code c =? 43 then (false, 1%nat)
        else (false, O)
    | [] => (false, O)
    end in
  let '(v, nd) := span_digits (skipn sign_len after_ws) 0 in
  match nd with
  | O => (0, 0)
  | _ =>
      let value :=
        if v >? ULONG_MAX then ULONG_MAX
        else if neg then (- v) mod SIZE_MODULUS else v in
      (value, Z.of_nat (ws + sign_len + nd))
  end.

(** ** Data structures *)

(** [conn_opts_t]: one check target, with the fields this file reads: the
    address family of the destination, [dst.ss_family], and the timeout
    [connection_to], the only timeout of a target that the file uses. *)
Record conn_opts_t : Type := mk_conn_opts {
  dst_ss_family : Z;
  connection_to : Z
}.

(** [real_server_t]: the fields of [checker->rs] this file reads. *)
Record real_server_t : Type := mk_real_server {
  alive : bool;
  smtp_alert : bool
}.

(** [checker_t]: the generic checker record, with the fields this file
    reads or writes. *)
Record checker_t : Type := mk_checker {
  rs : real_server_t;
  enabled : bool;
  is_up : bool;
  has_run : bool;
  delay_loop : Z;
  retry : Z;
  delay_before_retry : Z;
  retry_it : Z
}.

(** The functions of this file that are handed to the scheduler or stored in
    [buff_cb]. *)
Inductive thread_func : Type :=
| fn_smtp_connect_thread
| fn_smtp_check_thread
| fn_smtp_engine_thread
| fn_smtp_get_line_cb
| fn_smtp_put_line_cb.

(** [smtp_checker_t]: the per-checker data, [checker->data]. *)
Record smtp_checker_t : Type := mk_smtp_checker {
  helo_name : list ascii;
  host : list conn_opts_t;
  host_ptr : option conn_opts_t;
  host_ctr : Z;
  buff : list ascii;
  buff_ctr : Z;
  state : Z;
  buff_cb : option thread_func
}.

(** What a callback reads of its [thread_t]: why it was woken, and the file
    descriptor [thread->u.fd].  The callbacks test the type against
    THREAD_READ_TIMEOUT and THREAD_WRITE_TIMEOUT only; the other three stand
    for the wake-ups that are not timeouts. *)
Inductive thread_type : Type :=
| THREAD_READ
| THREAD_WRITE
| THREAD_TIMER
| THREAD_READ_TIMEOUT
| THREAD_WRITE_TIMEOUT.

Record thread_t : Type := mk_thread {
  type : thread_type;
  u_fd : Z
}.

(** First argument of [update_svr_checker_state]: the constants DOWN and
    UP. *)
Inductive svr_state : Type := DOWN | UP.

(** Modelled from the spec: [enum connect_result] (layer4.h is not among
    the sources): the connect-state probe answers one of in-progress, error,
    timeout, success.  [smtp_check_thread] names three of them and leaves
    the fourth to its [default] case. *)
Inductive connect_result : Type :=
| connect_error
| connect_in_progress
| connect_timeout
| connect_success.

(** [errno] after a failed [read] or [write]. *)
Inductive errno_t : Type := EAGAIN | EINTR | EOTHER.

(** What [read] answers: the bytes the socket has to deliver (none at end of
    file), of which at most the requested count is copied, or -1. *)
Inductive read_result : Type :=
| ReadBytes (data : list ascii)
| ReadError (e : errno_t).

(** What [write] answers: its return value, or -1 with [errno]. *)
Inductive write_result : Type :=
| Wrote (w : Z)
| WriteError (e : errno_t).

(** Everything the checker touches: its two records and
    [global_data->no_checker_emails]. *)
Record world : Type := mk_world {
  checker : checker_t;
  smtp_checker : smtp_checker_t;
  no_checker_emails : bool
}.

(** Calls that leave this file. *)
Inductive event : Type :=
| EvClose (fd : Z)
| EvLog (format : string) (args : list conn_opts_t)
| EvUpdateSvrCheckerState (st : svr_state)
| EvSmtpAlert (msg : string) (args : list conn_opts_t)
| EvThreadAddTimer (f : thread_func) (timer : Z)
| EvThreadAddRead (f : thread_func) (fd : Z) (timeout : Z)
| EvThreadAddWrite (f : thread_func) (fd : Z) (timeout : Z)
| EvThreadDelRead
| EvThreadDelWrite
| EvRead (fd : Z) (count : Z)
| EvWrite (fd : Z) (data : list ascii)
| EvSocket (family : Z)
| EvTcpBindConnect (sd : Z) (co : conn_opts_t)
| EvTcpConnectionState (sd : Z) (status : connect_result) (f : thread_func) (timeout : Z)
| EvTcpSocketState (f : thread_func).

(** ** What the headers and the other modules provide

    check_smtp.h (the buffer size and the engine's state codes) and the
    module that owns the health state ([update_svr_checker_state]) are not
    part of this file: they are parameters of the development. *)
Class check_env : Type := mk_check_env {
  SMTP_BUFF_MAX : Z;
  SMTP_START : Z;
  SMTP_HAVE_BANNER : Z;
  SMTP_SENT_HELO : Z;
  SMTP_RECV_HELO : Z;
  SMTP_SENT_QUIT : Z;
  SMTP_RECV_QUIT : Z;
  update_svr_checker_state : svr_state -> checker_t -> checker_t
}.

(** The buffer is a non-empty array whose size fits [size_t], and the case
    labels of the engine's [switch] are distinct. *)
Definition env_ok (E : check_env) : Prop :=
  0 < SMTP_BUFF_MAX < SIZE_MODULUS /\
  NoDup [SMTP_START; SMTP_HAVE_BANNER; SMTP_SENT_HELO;
         SMTP_RECV_HELO; SMTP_SENT_QUIT; SMTP_RECV_QUIT].

(** ** Field updates *)

Definition set_retry_it (v : Z) (c : checker_t) : checker_t :=
  mk_checker (rs c) (enabled c) (is_up c) (has_run c) (delay_loop c)
             (retry c) (delay_before_retry c) v.

Definition set_host_ptr (p : option conn_opts_t) (s : smtp_checker_t) : smtp_checker_t :=
  mk_smtp_checker (helo_name s) (host s) p (host_ctr s) (buff s) (buff_ctr s)
                  (state s) (buff_cb s).

Definition set_host_ctr (v : Z) (s : smtp_checker_t) : smtp_checker_t :=
  mk_smtp_checker (helo_name s) (host s) (host_ptr s) v (buff s) (buff_ctr s)
                  (state s) (buff_cb s).

Definition set_buff (b : list ascii) (s : smtp_checker_t) : smtp_checker_t :=
  mk_smtp_checker (helo_name s) (host s) (host_ptr s) (host_ctr s) b (buff_ctr s)
                  (state s) (buff_cb s).

Definition set_buff_ctr (v : Z) (s : smtp_checker_t) : smtp_checker_t :=
  mk_smtp_checker (helo_name s) (host s) (host_ptr s) (host_ctr s) (buff s) v
                  (state s) (buff_cb s).

Definition set_state (v : Z) (s : smtp_checker_t) : smtp_checker_t :=
  mk_smtp_checker (helo_name s) (host s) (host_ptr s) (host_ctr s) (buff s)
                  (buff_ctr s) v (buff_cb s).

Definition set_buff_cb (f : option thread_func) (s : smtp_checker_t) : smtp_checker_t :=
  mk_smtp_checker (helo_name s) (host s) (host_ptr s) (host_ctr s) (buff s)
                  (buff_ctr s) (state s) f.

(** ** The monad of callbacks *)

(** A computation ends normally, with a value, the new memory and the calls
    it made, or it is killed by a NULL dereference after some calls. *)
Inductive outcome (A : Type) : Type :=
| Done (a : A) (w : world) (tr : list event)
| Segv (tr : list event).

Arguments Done {A} a w tr.
Arguments Segv {A} tr.

Definition M (A : Type) : Type := world -> outcome A.

Definition ret {A : Type} (a : A) : M A := fun w => Done a w [].

Definition bind {A B : Type} (m : M A) (k : A -> M B) : M B :=
  fun w =>
    match m w with
    | Done a w1 tr1 =>
        match k a w1 with
        | Done b w2 tr2 => Done b w2 (tr1 ++ tr2)
        | Segv tr2 => Segv (tr1 ++ tr2)
        end
    | Segv tr1 => Segv tr1
    end.

Declare Scope smtp_scope.
Delimit Scope smtp_scope with smtp.
Notation "x <- m ;; k" := (bind m (fun x => k))
  (at level 61, m at next level, right associativity) : smtp_scope.
Notation "m ;; k" := (bind m (fun _ => k))
  (at level 61, right associativity) : smtp_scope.
Local Open Scope smtp_scope.

Definition emit (e : event) : M unit := fun w => Done tt w [e].

Definition get_checker : M checker_t := fun w => Done (checker w) w [].

Definition get_smtp_checker : M smtp_checker_t := fun w => Done (smtp_checker w) w [].

Definition get_no_checker_emails : M bool := fun w => Done (no_checker_emails w) w [].

Definition modify_checker (f : checker_t -> checker_t) : M unit :=
  fun w => Done tt (mk_world (f (checker w)) (smtp_checker w) (no_checker_emails w)) [].

Definition modify_smtp_checker (f : smtp_checker_t -> smtp_checker_t) : M unit :=
  fun w => Done tt (mk_world (checker w) (f (smtp_checker w)) (no_checker_emails w)) [].

(** [p->field] for a pointer that may be NULL. *)
Definition deref {A : Type} (p : option A) : M A :=
  fun w => match p with Some a => Done a w [] | None => Segv [] end.

Definition when (b : bool) (m : M unit) : M unit := if b then m else ret tt.

(** ** External calls *)

(** Modelled from the spec: [list_element] (list.c is not part of this file)
    selects the target at the given index, and yields NULL when the index is
    past the end of the sequence. *)
Definition list_element {A : Type} (l : list A) (num : Z) : option A :=
  if num <? 0 then None else nth_error l (Z.to_nat num).

Definition thread_add_timer (f : thread_func) (timer : Z) : M unit :=
  emit (EvThreadAddTimer f timer).

Definition thread_add_read (f : thread_func) (fd timeout : Z) : M unit :=
  emit (EvThreadAddRead f fd timeout).

Definition thread_add_write (f : thread_func) (fd timeout : Z) : M unit :=
  emit (EvThreadAddWrite f fd timeout).

Definition thread_del_read : M unit := emit EvThreadDelRead.

Definition thread_del_write : M unit := emit EvThreadDelWrite.

Definition log_message (format : string) (args : list conn_opts_t) : M unit :=
  emit (EvLog format args).

Definition send_smtp_alert (msg : string) (args : list conn_opts_t) : M unit :=
  emit (EvSmtpAlert msg args).

Definition close (fd : Z) : M unit := emit (EvClose fd).

Section Checker.

Context {E : check_env}.

(** The call [update_svr_checker_state (st, checker)]: the health module owns
    what it does to the checker and its real server. *)
Definition call_update_svr_checker_state (st : svr_state) : M unit :=
  emit (EvUpdateSvrCheckerState st) ;;
  modify_checker (update_svr_checker_state st).

(** ** Final handler: [smtp_final] *)

(** [format] is NULL or the message's format string; [args] are the hosts
    whose address [FMT_SMTP_RS] prints into it. *)
Definition smtp_final (thread : thread_t) (error : bool)
    (format : option string) (args : list conn_opts_t) : M unit :=
  (* Error or no error we should always have to close the socket *)
  close (u_fd thread) ;;
  (* an attempt HAS been made already for the current host *)
  modify_checker (fun c => set_retry_it (wrap_uint (retry_it c + 1)) c) ;;
  if error then
    c <- get_checker ;;
    (* Always syslog the error when the real server is up *)
    when (is_up c)
      match format with
      | Some f => log_message ("SMTP_CHECK " ++ substring 0 500 f)%string args
      | None => log_message "SMTP_CHECK Unknown error"%string []
      end ;;
    if retry_it c <? retry c then
      (* retries left: the same host again after the backoff delay *)
      thread_add_timer fn_smtp_connect_thread (delay_before_retry c)
    else
      (* No more retries, pull the real server from the virtual server *)
      when (is_up c || negb (has_run c))
        (let checker_was_up := is_up c in
         let rs_was_alive := alive (rs c) in
         call_update_svr_checker_state DOWN ;;
         c1 <- get_checker ;;
         no_emails <- get_no_checker_emails ;;
         when (smtp_alert (rs c1) && checker_was_up &&
               (negb (Bool.eqb rs_was_alive (alive (rs c1))) || negb no_emails))
           match format with
           | Some f =>
               send_smtp_alert
                 (substring 0 511 ("=> CHECK failed on service : " ++ f ++ " <="))%string
                 args
           | None => send_smtp_alert "=> CHECK failed on service <="%string []
           end) ;;
      (* Reset everything back to the first host in the list *)
      modify_checker (set_retry_it 0) ;;
      modify_smtp_checker (set_host_ctr 0) ;;
      (* Reschedule the main thread using the configured delay loop *)
      c2 <- get_checker ;;
      thread_add_timer fn_smtp_connect_thread (delay_loop c2)
  else
    (* this host was successful: next host, retry_it reset *)
    modify_checker (set_retry_it 0) ;;
    modify_smtp_checker (fun s => set_host_ctr (wrap_size (host_ctr s + 1)) s) ;;
    thread_add_timer fn_smtp_connect_thread 1.

(** ** Line buffer *)

(** [smtp_clear_buff]: [memset (buff, 0, SMTP_BUFF_MAX)] and [buff_ctr = 0]. *)
Definition smtp_clear_buff : M unit :=
  modify_smtp_checker (set_buff (repeat NUL (Z.to_nat SMTP_BUFF_MAX))) ;;
  modify_smtp_checker (set_buff_ctr 0).

(** [read (fd, buff + buff_ctr, SMTP_BUFF_MAX - buff_ctr)]: the bytes that
    arrive are stored from the fill cursor on; the result is their number,
    or -1. *)
Definition sys_read (fd : Z) (rd : read_result) : M Z :=
  s <- get_smtp_checker ;;
  let count := wrap_size (SMTP_BUFF_MAX - buff_ctr s) in
  emit (EvRead fd count) ;;
  match rd with
  | ReadBytes data =>
      let got := firstn (Z.to_nat count) data in
      modify_smtp_checker
        (fun s => set_buff (blit_nat (buff s) (Z.to_nat (buff_ctr s)) got) s) ;;
      ret (Z.of_nat (length got))
  | ReadError _ => ret (-1)
  end.

(** The [smtp_checker_t] once [read] has delivered [data] and the fill
    cursor has been advanced by the number of bytes stored. *)
Definition received (s : smtp_checker_t) (data : list ascii) : smtp_checker_t :=
  let got := firstn (Z.to_nat (wrap_size (SMTP_BUFF_MAX - buff_ctr s))) data in
  let s1 := set_buff (blit_nat (buff s) (Z.to_nat (buff_ctr s)) got) s in
  if Z.of_nat (length got) >? 0
  then set_buff_ctr (wrap_size (buff_ctr s + Z.of_nat (length got))) s1
  else s1.

(** The bytes a [write] of the buffer hands over: [buff_ctr] bytes from the
    start of [buff]. *)
Definition outbound (s : smtp_checker_t) : list ascii :=
  firstn (Z.to_nat (buff_ctr s)) (buff s).

(** [write (fd, buff, buff_ctr)]. *)
Definition sys_write (fd : Z) (wr : write_result) : M Z :=
  s <- get_smtp_checker ;;
  emit (EvWrite fd (outbound s)) ;;
  match wr with
  | Wrote w => ret w
  | WriteError _ => ret (-1)
  end.

Definition would_block (e : errno_t) : bool :=
  match e with EAGAIN | EINTR => true | EOTHER => false end.

Definition is_newline (c : ascii) : bool := char_code c =? 10.

(** The scan [for (x = 0; x < SMTP_BUFF_MAX; x++) if (buff[x] == '\n')]. *)
Definition has_newline (b : list ascii) : bool :=
  existsb is_newline (firstn (Z.to_nat SMTP_BUFF_MAX) b).

(** [snprintf (buff, SMTP_BUFF_MAX, ...)] of an already formatted line: at
    most SMTP_BUFF_MAX - 1 characters and the terminator are stored. *)
Definition snprintf_buff (line : list ascii) : M unit :=
  modify_smtp_checker
    (fun s => set_buff
       (blit_nat (buff s) O
          (firstn (Z.to_nat (SMTP_BUFF_MAX - 1)) line ++ [NUL])) s).

(** ** Status parser: [smtp_get_status] *)

Definition smtp_get_status (smtp_checker : smtp_checker_t) : Z :=
  let buff := buff smtp_checker in
  let '(v, endptr) := strtoul buff in
  let status := int_of_ulong v in
  if negb (endptr =? 3) ||
     (negb (is_nul (char_at buff endptr)) &&
      negb (char_code (char_at buff endptr) =? 32))
  then -1
  else status.

(** The status parser as the specification words it: the integer when the
    buffer starts with exactly three digits followed by a space or the end
    of the content, the invalid sentinel -1 otherwise. *)
Definition status_spec (b : list ascii) : Z :=
  match b with
  | d1 :: d2 :: d3 :: rest =>
      if isdigit d1 && isdigit d2 && isdigit d3 &&
         match rest with
         | [] => true
         | c :: _ => is_nul c || (char_code c =? 32)
         end
      then 100 * digit_value d1 + 10 * digit_value d2 + digit_value d3
      else -1
  | _ => -1
  end.

(** The buffer starts with white space or a sign. *)
Definition space_or_sign_first (b : list ascii) : bool :=
  match b with
  | c :: _ => isspace c || (char_code c =? 45) || (char_code c =? 43)
  | [] => false
  end.

(** ** Socket I/O driver, registration side *)

(** [smtp_get_line]: schedule a single line to be received. *)
Definition smtp_get_line (thread : thread_t) (callback : thread_func) : M unit :=
  s <- get_smtp_checker ;;
  let smtp_host := host_ptr s in
  (* clear the buffer *)
  smtp_clear_buff ;;
  (* set the callback *)
  modify_smtp_checker (set_buff_cb (Some callback)) ;;
  (* schedule the I/O with our helper function *)
  h <- deref smtp_host ;;
  thread_add_read fn_smtp_get_line_cb (u_fd thread) (connection_to h) ;;
  thread_del_write.

(** [smtp_put_line]: schedule the line in the buffer to be sent. *)
Definition smtp_put_line (thread : thread_t) (callback : thread_func) : M unit :=
  s <- get_smtp_checker ;;
  let smtp_host := host_ptr s in
  modify_smtp_checker (fun s => set_buff (store (buff s) (SMTP_BUFF_MAX - 1) NUL) s) ;;
  modify_smtp_checker (fun s => set_buff_ctr (strlen (buff s)) s) ;;
  (* set the callback *)
  modify_smtp_checker (set_buff_cb (Some callback)) ;;
  (* schedule the I/O with our helper function *)
  h <- deref smtp_host ;;
  thread_add_write fn_smtp_put_line_cb (u_fd thread) (connection_to h) ;;
  thread_del_read.

(** ** Protocol engine: [smtp_engine_thread] *)

Definition CR : ascii := ascii_of_nat 13.
Definition LF : ascii := ascii_of_nat 10.

(** ["HELO %s\r\n"] with the HELO name printed by [%s]. *)
Definition helo_line (name : list ascii) : list ascii :=
  list_ascii_of_string "HELO " ++ c_str name ++ [CR; LF].

(** ["QUIT\r\n"]. *)
Definition quit_line : list ascii := list_ascii_of_string "QUIT" ++ [CR; LF].

Definition smtp_engine_thread (thread : thread_t) : M unit :=
  s <- get_smtp_checker ;;
  let smtp_host := host_ptr s in
  if state s =? SMTP_START then
    (* First step, schedule to receive the greeting banner *)
    modify_smtp_checker (set_state SMTP_HAVE_BANNER) ;;
    smtp_get_line thread fn_smtp_engine_thread
  else if state s =? SMTP_HAVE_BANNER then
    (* Second step, analyze banner, send HELO *)
    if negb (smtp_get_status s =? 220) then
      h <- deref smtp_host ;;
      smtp_final thread true (Some "Bad greeting banner from server %s"%string) [h]
    else
      modify_smtp_checker (set_state SMTP_SENT_HELO) ;;
      snprintf_buff (helo_line (helo_name s)) ;;
      smtp_put_line thread fn_smtp_engine_thread
  else if state s =? SMTP_SENT_HELO then
    (* Third step, schedule to read the HELO response *)
    modify_smtp_checker (set_state SMTP_RECV_HELO) ;;
    smtp_get_line thread fn_smtp_engine_thread
  else if state s =? SMTP_RECV_HELO then
    (* Fourth step, analyze HELO return, send QUIT *)
    if negb (smtp_get_status s =? 250) then
      h <- deref smtp_host ;;
      smtp_final thread true (Some "Bad HELO response from server %s"%string) [h]
    else
      modify_smtp_checker (set_state SMTP_SENT_QUIT) ;;
      snprintf_buff quit_line ;;
      smtp_put_line thread fn_smtp_engine_thread
  else if state s =? SMTP_SENT_QUIT then
    (* Fifth step, schedule to receive QUIT confirmation *)
    modify_smtp_checker (set_state SMTP_RECV_QUIT) ;;
    smtp_get_line thread fn_smtp_engine_thread
  else if state s =? SMTP_RECV_QUIT then
    (* Sixth step, wrap up success to smtp_final *)
    smtp_final thread false None []
  else
    (* We shouldn't be here *)
    smtp_final thread true (Some "Unknown smtp engine state encountered"%string) [].

(** The call [(smtp_checker->buff_cb) (thread)].  [smtp_engine_thread] is
    the only function this file ever stores in [buff_cb]; a call through
    NULL, or through any other pointer, is one the model does not follow. *)
Definition call_buff_cb (thread : thread_t) : M unit :=
  s <- get_smtp_checker ;;
  match buff_cb s with
  | Some fn_smtp_engine_thread => smtp_engine_thread thread
  | _ => fun _ => Segv []
  end.

(** ** Socket I/O driver, wake-up side *)

(** [smtp_get_line_cb]: woken for a readable socket or a read timeout. *)
Definition smtp_get_line_cb (thread : thread_t) (rd : read_result) : M unit :=
  s <- get_smtp_checker ;;
  let smtp_host := host_ptr s in
  match type thread with
  | THREAD_READ_TIMEOUT =>
      (* Handle read timeout *)
      h <- deref smtp_host ;;
      smtp_final thread true (Some "Read timeout from server %s"%string) [h]
  | _ =>
      (* wrap the buffer, if full, by clearing it *)
      when (buff_ctr s >? SMTP_BUFF_MAX)
        (h <- deref smtp_host ;;
         log_message
           "SMTP_CHECK Buffer overflow reading from server %s. Increase SMTP_BUFF_MAX in smtp_check.h"%string
           [h] ;;
         smtp_clear_buff) ;;
      (* read the data *)
      r <- sys_read (u_fd thread) rd ;;
      if (r =? -1) && match rd with ReadError e => would_block e | ReadBytes _ => false end
      then
        h <- deref smtp_host ;;
        thread_add_read fn_smtp_get_line_cb (u_fd thread) (connection_to h)
      else
        when (r >? 0)
          (modify_smtp_checker (fun s => set_buff_ctr (wrap_size (buff_ctr s + r)) s)) ;;
        (* check if we have a newline, if so, callback *)
        s1 <- get_smtp_checker ;;
        if has_newline (buff s1) then
          modify_smtp_checker
            (fun s => set_buff (store (buff s) (SMTP_BUFF_MAX - 1) NUL) s) ;;
          call_buff_cb thread
        else if r <=? 0 then
          (* the connection was closed or there was some sort of error *)
          h <- deref smtp_host ;;
          smtp_final thread true (Some "Read failure from server %s"%string) [h]
        else
          (* not enough data yet to pull a newline: another round *)
          h <- deref smtp_host ;;
          thread_add_read fn_smtp_get_line_cb (u_fd thread) (connection_to h)
  end.

(** [smtp_put_line_cb]: woken for a writable socket or a write timeout. *)
Definition smtp_put_line_cb (thread : thread_t) (wr : write_result) : M unit :=
  s <- get_smtp_checker ;;
  let smtp_host := host_ptr s in
  match type thread with
  | THREAD_WRITE_TIMEOUT =>
      h <- deref smtp_host ;;
      smtp_final thread true (Some "Write timeout to server %s"%string) [h]
  | _ =>
      (* write the data *)
      w <- sys_write (u_fd thread) wr ;;
      if (w =? -1) && match wr with WriteError e => would_block e | Wrote _ => false end
      then
        h <- deref smtp_host ;;
        thread_add_write fn_smtp_put_line_cb (u_fd thread) (connection_to h)
      else if w <=? 0 then
        h <- deref smtp_host ;;
        smtp_final thread true (Some "Write failure to server %s"%string) [h]
      else
        (* Execute the callback *)
        call_buff_cb thread
  end.

(** ** Connection result handler: [smtp_check_thread] *)

(** [status] is what [tcp_socket_state (thread, smtp_check_thread)] answers. *)
Definition smtp_check_thread (thread : thread_t) (status : connect_result) : M unit :=
  s <- get_smtp_checker ;;
  let smtp_host := host_ptr s in
  emit (EvTcpSocketState fn_smtp_check_thread) ;;
  match status with
  | connect_error =>
      h <- deref smtp_host ;;
      smtp_final thread true (Some "Error connecting to server %s"%string) [h]
  | connect_timeout =>
      h <- deref smtp_host ;;
      smtp_final thread true (Some "Connection timeout to server %s"%string) [h]
  | connect_success =>
      (* Enter the engine at SMTP_START *)
      modify_smtp_checker (set_state SMTP_START) ;;
      smtp_engine_thread thread
  | connect_in_progress =>
      (* default: we shouldn't be here *)
      h <- deref smtp_host ;;
      smtp_final thread true (Some "Unknown connection error to server %s"%string) [h]
  end.

(** ** Connect orchestrator: [smtp_connect_thread] *)

(** [sd] is what [socket] answers, [status] what [tcp_bind_connect] answers,
    and [refused] what [tcp_connection_state] answers (true: nothing was
    registered). *)
Definition smtp_connect_thread (thread : thread_t)
    (sd : Z) (status : connect_result) (refused : bool) : M unit :=
  c <- get_checker ;;
  if negb (enabled c) then
    (* disabled: do nothing, but register ourselves again *)
    thread_add_timer fn_smtp_connect_thread (delay_loop c)
  else
    s <- get_smtp_checker ;;
    modify_smtp_checker (set_host_ptr (list_element (host s) (host_ctr s))) ;;
    match list_element (host s) (host_ctr s) with
    | None =>
        (* all hosts tested: bring the service up, if it is not already *)
        when (negb (is_up c) || negb (has_run c))
          (log_message "Remote SMTP server %s succeed on service."%string [] ;;
           let checker_was_up := is_up c in
           let rs_was_alive := alive (rs c) in
           call_update_svr_checker_state UP ;;
           c1 <- get_checker ;;
           no_emails <- get_no_checker_emails ;;
           when (smtp_alert (rs c1) && negb checker_was_up &&
                 (negb (Bool.eqb rs_was_alive (alive (rs c1))) || negb no_emails))
             (send_smtp_alert "=> CHECK succeed on service <="%string [])) ;;
        modify_checker (set_retry_it 0) ;;
        modify_smtp_checker (set_host_ctr 0) ;;
        modify_smtp_checker (fun s => set_host_ptr (list_element (host s) 0) s) ;;
        c2 <- get_checker ;;
        thread_add_timer fn_smtp_connect_thread (delay_loop c2)
    | Some smtp_host =>
        (* Create the socket, failing here should be an oddity *)
        emit (EvSocket (dst_ss_family smtp_host)) ;;
        if sd =? -1 then
          log_message "SMTP_CHECK connection failed to create socket. Rescheduling."%string [] ;;
          thread_add_timer fn_smtp_connect_thread (delay_loop c)
        else
          emit (EvTcpBindConnect sd smtp_host) ;;
          (* handle tcp connection status & register the next step *)
          emit (EvTcpConnectionState sd status fn_smtp_check_thread
                  (connection_to smtp_host)) ;;
          when refused
            (close sd ;;
             log_message "SMTP_CHECK socket bind failed. Rescheduling."%string [] ;;
             thread_add_timer fn_smtp_connect_thread (delay_loop c))
    end.

End Checker.

(** ** The scheduler's view *)

(** A wake-up of one of the callbacks the scheduler holds, with what the
    outside world answers during it.  ([smtp_engine_thread] is never handed
    to the scheduler: it runs inside the other callbacks.) *)
Inductive callback : Type :=
| CbConnect (sd : Z) (status : connect_result) (refused : bool)
| CbCheck (status : connect_result)
| CbGetLine (rd : read_result)
| CbPutLine (wr : write_result).

Definition run_callback {E : check_env} (thread : thread_t) (cb : callback) : M unit :=
  match cb with
  | CbConnect sd status refused => smtp_connect_thread thread sd status refused
  | CbCheck status => smtp_check_thread thread status
  | CbGetLine rd => smtp_get_line_cb thread rd
  | CbPutLine wr => smtp_put_line_cb thread wr
  end.

(** A script of wake-ups, run one after the other. *)
Fixpoint run_callbacks {E : check_env} (l : list (thread_t * callback)) : M unit :=
  match l with
  | [] => ret tt
  | (thread, cb) :: rest => run_callback thread cb ;; run_callbacks rest
  end.

(** The checker as configuration leaves it: [smtp_check_handler] allocates
    the [smtp_checker_t] zero-filled, and no attempt has been counted. *)
Definition initial {E : check_env} (w : world) : Prop :=
  retry_it (checker w) = 0 /\
  host_ctr (smtp_checker w) = 0 /\
  host_ptr (smtp_checker w) = None /\
  buff (smtp_checker w) = repeat NUL (Z.to_nat SMTP_BUFF_MAX) /\
  buff_ctr (smtp_checker w) = 0 /\
  buff_cb (smtp_checker w) = None.

(** The memories the checker can be in between two wake-ups. *)
Inductive reachable {E : check_env} : world -> Prop :=
| reachable_initial : forall w, initial w -> reachable w
| reachable_step : forall w thread cb w' tr,
    reachable w ->
    run_callback thread cb w = Done tt w' tr ->
    reachable w'.

(** One attempt against the current target, reduced to its two ends: the
    connect orchestrator opens the socket and registers the connection
    handler, and whatever the attempt's callbacks meet, they end in one call
    of the final handler (lemma [callbacks_end_in_final]). *)
Record attempt : Type := mk_attempt {
  at_sd : Z;
  at_status : connect_result;
  at_thread : thread_t;
  at_error : bool;
  at_format : option string;
  at_args : list conn_opts_t
}.

Definition run_attempt {E : check_env} (timer : thread_t) (a : attempt) : M unit :=
  smtp_connect_thread timer (at_sd a) (at_status a) false ;;
  smtp_final (at_thread a) (at_error a) (at_format a) (at_args a).

Fixpoint run_attempts {E : check_env} (timer : thread_t) (l : list attempt) : M unit :=
  match l with
  | [] => ret tt
  | a :: rest => run_attempt timer a ;; run_attempts timer rest
  end.

(** The attempts take a cycle through its [remaining] targets, one success
    each, and there are no further attempts; [r] failures are counted
    against the current target at the start, and no target exhausts the
    retry limit. *)
Fixpoint cycle_passes (limit r : Z) (remaining : nat) (l : list attempt) : bool :=
  match l, remaining with
  | [], O => true
  | [], S _ => false
  | _ :: _, O => false
  | a :: rest, S k =>
      if at_error a
      then (r + 1 <? limit) && cycle_passes limit (r + 1) (S k) rest
      else cycle_passes limit 0 k rest
  end.

(** ** The engine's two kinds of step *)

(** The memory once the engine, moving to state [st], has asked for a line:
    the buffer is cleared and [smtp_engine_thread] is the pending callback. *)
Definition receiving {E : check_env} (w : world) (st : Z) : world :=
  mk_world (checker w)
    (set_buff_cb (Some fn_smtp_engine_thread)
       (set_buff_ctr 0
          (set_buff (repeat NUL (Z.to_nat SMTP_BUFF_MAX))
             (set_state st (smtp_checker w)))))
    (no_checker_emails w).

(** [w'] is [w] once the engine, moving to state [st], has asked for [line]
    to be sent: what a write hands over is the line, cut to the
    SMTP_BUFF_MAX - 1 bytes the buffer holds before its terminator. *)
Definition sending {E : check_env} (w w' : world) (st : Z) (line : list ascii) : Prop :=
  checker w' = checker w /\
  no_checker_emails w' = no_checker_emails w /\
  host (smtp_checker w') = host (smtp_checker w) /\
  host_ptr (smtp_checker w') = host_ptr (smtp_checker w) /\
  host_ctr (smtp_checker w') = host_ctr (smtp_checker w) /\
  state (smtp_checker w') = st /\
  buff_cb (smtp_checker w') = Some fn_smtp_engine_thread /\
  Z.of_nat (length (buff (smtp_checker w'))) = SMTP_BUFF_MAX /\
  outbound (smtp_checker w') = firstn (Z.to_nat (SMTP_BUFF_MAX - 1)) line.

(** ** Reading traces *)

Definition trace_of {A : Type} (o : outcome A) : list event :=
  match o with
  | Done _ _ tr => tr
  | Segv tr => tr
  end.

Definition svr_state_eqb (a b : svr_state) : bool :=
  match a, b with
  | DOWN, DOWN | UP, UP => true
  | _, _ => false
  end.

Definition is_transition (st : svr_state) (e : event) : bool :=
  match e with
  | EvUpdateSvrCheckerState st' => svr_state_eqb st st'
  | _ => false
  end.

Definition is_alert (e : event) : bool :=
  match e with
  | EvSmtpAlert _ _ => true
  | _ => false
  end.

(** Number of health transitions to [st] requested in a trace. *)
Definition transitions (st : svr_state) (tr : list event) : nat :=
  length (filter (is_transition st) tr).

(** Number of alerts sent in a trace. *)
Definition alerts (tr : list event) : nat :=
  length (filter is_alert tr).

(** The timeouts of the I/O waits registered in a trace. *)
Fixpoint io_wait_timeouts (tr : list event) : list Z :=
  match tr with
  | [] => []
  | EvThreadAddRead _ _ t :: rest => t :: io_wait_timeouts rest
  | EvThreadAddWrite _ _ t :: rest => t :: io_wait_timeouts rest
  | _ :: rest => io_wait_timeouts rest
  end.

(** The lines handed to [write] in a trace. *)
Fixpoint sent_lines (tr : list event) : list (list ascii) :=
  match tr with
  | [] => []
  | EvWrite _ data :: rest => data :: sent_lines rest
  | _ :: rest => sent_lines rest
  end.

(** ** Specifications of computations *)

(** Run from the memory [w], the computation emits only events satisfying
    [ev], and if it ends normally its result and the memory it leaves
    satisfy [post]. *)
Definition wp {A : Type} (m : M A) (post : A -> world -> Prop)
    (ev : event -> Prop) (w : world) : Prop :=
  match m w with
  | Done a w' tr => post a w' /\ Forall ev tr
  | Segv tr => Forall ev tr
  end.

Definition hoare {A : Type} (pre : world -> Prop) (m : M A)
    (post : A -> world -> Prop) (ev : event -> Prop) : Prop :=
  forall w, pre w -> wp m post ev w.

(** An I/O wait is registered with the connection timeout of the target [p]
    points to. *)
Definition wait_ok (p : option conn_opts_t) (e : event) : Prop :=
  match e with
  | EvThreadAddRead _ _ t | EvThreadAddWrite _ _ t =>
      exists h, p = Some h /\ t = connection_to h
  | _ => True
  end.

(** What the retry and failover policy reads and writes: the checker
    record, the targets, the target index and the alert policy. *)
Definition health_view (w : world) : checker_t * list conn_opts_t * Z * bool :=
  (checker w, host (smtp_checker w), host_ctr (smtp_checker w), no_checker_emails w).

(** Neither a health transition nor an alert. *)
Definition quiet (e : event) : Prop :=
  match e with
  | EvUpdateSvrCheckerState _ | EvSmtpAlert _ _ => False
  | _ => True
  end.

(** From the memory [w], a callback that ends normally either leaves the
    policy's data alone and calls neither transition nor alert, or does so
    up to one call of [smtp_final], with which it ends. *)
Definition through_final {E : check_env} (w : world) (o : outcome unit) : Prop :=
  match o with
  | Segv _ => True
  | Done _ w' tr =>
      (health_view w' = health_view w /\ Forall quiet tr) \/
      (exists w0 tr0 thread error format args trf,
         health_view w0 = health_view w /\ Forall quiet tr0 /\
         smtp_final thread error format args w0 = Done tt w' trf /\
         tr = tr0 ++ trf)
  end.

(** The buffer is the array of SMTP_BUFF_MAX bytes and the fill cursor lies
    within it. *)
Definition buff_inv {E : check_env} (w : world) : Prop :=
  Z.of_nat (length (buff (smtp_checker w))) = SMTP_BUFF_MAX /\
  0 <= buff_ctr (smtp_checker w) <= SMTP_BUFF_MAX.

(** Between two wake-ups the retry counter is below the retry limit, or
    zero. *)
Definition retry_inv (w : world) : Prop :=
  retry_it (checker w) = 0 \/ 0 <= retry_it (checker w) < retry (checker w).

(** What holds of the memory between any two wake-ups. *)
Definition checker_inv {E : check_env} (w : world) : Prop :=
  buff_inv w /\ retry_inv w.

(** ** What a wake-up leaves with the scheduler *)

(** The functions handed to [thread_add_timer], [thread_add_read] and
    [thread_add_write] in a trace, in the order of the calls. *)
Fixpoint registered (tr : list event) : list thread_func :=
  match tr with
  | [] => []
  | EvThreadAddTimer f _ :: rest => f :: registered rest
  | EvThreadAddRead f _ _ :: rest => f :: registered rest
  | EvThreadAddWrite f _ _ :: rest => f :: registered rest
  | _ :: rest => registered rest
  end.

(** The functions handed to [tcp_connection_state] in a trace.  Modelled
    from the spec: the helper registers the function as the callback for
    connect completion, unless immediate registration fails (it then
    answers true and nothing is registered). *)
Fixpoint handed_over (tr : list event) : list thread_func :=
  match tr with
  | [] => []
  | EvTcpConnectionState _ _ f _ :: rest => f :: handed_over rest
  | _ :: rest => handed_over rest
  end.

(** The descriptors handed to [close] in a trace. *)
Fixpoint closed (tr : list event) : list Z :=
  match tr with
  | [] => []
  | EvClose fd :: rest => fd :: closed rest
  | _ :: rest => closed rest
  end.

(** The targets a trace connects to, in the order of the calls of
    [tcp_bind_connect]. *)
Fixpoint probed (tr : list event) : list conn_opts_t :=
  match tr with
  | [] => []
  | EvTcpBindConnect _ co :: rest => co :: probed rest
  | _ :: rest => probed rest
  end.

(** The function of this file a wake-up runs. *)
Definition callback_func (cb : callback) : thread_func :=
  match cb with
  | CbConnect _ _ _ => fn_smtp_connect_thread
  | CbCheck _ => fn_smtp_check_thread
  | CbGetLine _ => fn_smtp_get_line_cb
  | CbPutLine _ => fn_smtp_put_line_cb
  end.

(** The wake-ups pending once the callback has returned with the trace
    [tr]: what it registered itself, and what [tcp_connection_state]
    registered for it when it did not answer true. *)
Definition next_wakeups (cb : callback) (tr : list event) : list thread_func :=
  match cb with
  | CbConnect _ _ false => handed_over tr ++ registered tr
  | _ => registered tr
  end.

(** Which function a function of this file leaves pending. *)
Definition follows (f f' : thread_func) : Prop :=
  match f, f' with
  | fn_smtp_connect_thread, (fn_smtp_connect_thread | fn_smtp_check_thread) => True
  | fn_smtp_check_thread, (fn_smtp_connect_thread | fn_smtp_get_line_cb) => True
  | (fn_smtp_get_line_cb | fn_smtp_put_line_cb),
    (fn_smtp_connect_thread | fn_smtp_get_line_cb | fn_smtp_put_line_cb) => True
  | _, _ => False
  end.

(** The memories the checker is in between two wake-ups, with the function
    that is pending, when the scheduler wakes what was registered and
    nothing else.  The check daemon launches [smtp_connect_thread], the
    function handed to [queue_checker], for every checker it finds in its
    queue. *)
Inductive scheduled {E : check_env} : world -> thread_func -> Prop :=
| scheduled_initial : forall w,
    initial w -> scheduled w fn_smtp_connect_thread
| scheduled_step : forall w f thread cb w' tr f',
    scheduled w f ->
    callback_func cb = f ->
    run_callback thread cb w = Done tt w' tr ->
    next_wakeups cb tr = [f'] ->
    scheduled w' f'.

(** Run from the memory [w], the computation ends normally with a result,
    a memory and a trace that satisfy [post]; it stops on a NULL
    dereference only if [ok] holds (with [ok := False], never). *)
Definition runs (ok : Prop) {A : Type} (m : M A)
    (post : A -> world -> list event -> Prop) (w : world) : Prop :=
  match m w with
  | Done a w' tr => post a w' tr
  | Segv _ => ok
  end.

(** What configuration has set and no callback writes: the HELO name, the
    targets and the alert policy. *)
Definition same_config (w w' : world) : Prop :=
  helo_name (smtp_checker w') = helo_name (smtp_checker w) /\
  host (smtp_checker w') = host (smtp_checker w) /\
  no_checker_emails w' = no_checker_emails w.

(** A step of one of the callbacks of an attempt, from [w] to [w'] with
    [f'] left pending: the current target stays; the target index moves
    only when the step ends the attempt, in one of the final handler's
    three ways; and a pending I/O callback finds in [buff_cb] the engine,
    or what was there ([cb0]). *)
Definition io_step (cb0 : option thread_func) (w : world) (f' : thread_func)
    (w' : world) : Prop :=
  same_config w w' /\
  host_ptr (smtp_checker w') = host_ptr (smtp_checker w) /\
  match f' with
  | fn_smtp_connect_thread =>
      host_ctr (smtp_checker w') = host_ctr (smtp_checker w) \/
      host_ctr (smtp_checker w') = 0 \/
      host_ctr (smtp_checker w') = wrap_size (host_ctr (smtp_checker w) + 1)
  | fn_smtp_get_line_cb | fn_smtp_put_line_cb =>
      host_ctr (smtp_checker w') = host_ctr (smtp_checker w) /\
      (buff_cb (smtp_checker w') = Some fn_smtp_engine_thread \/
       buff_cb (smtp_checker w') = cb0)
  | _ => False
  end.

(** The wake-up has ended the attempt and closed its socket, or it has
    registered a wait and closed nothing. *)
Definition ends_or_waits (thread : thread_t) (tr : list event) : Prop :=
  (registered tr = [fn_smtp_connect_thread] /\ closed tr = [u_fd thread]) \/
  (exists f, registered tr = [f] /\ f <> fn_smtp_connect_thread /\ closed tr = []).

(** A step of the connect orchestrator: it either leaves itself pending,
    at the same target index or back at the first, or it selects the
    target at the index and leaves the connection handler pending. *)
Definition connect_step (w : world) (f' : thread_func) (w' : world) : Prop :=
  same_config w w' /\
  match f' with
  | fn_smtp_connect_thread =>
      host_ctr (smtp_checker w') = host_ctr (smtp_checker w) \/
      host_ctr (smtp_checker w') = 0
  | fn_smtp_check_thread =>
      host_ctr (smtp_checker w') = host_ctr (smtp_checker w) /\
      host_ptr (smtp_checker w') =
        list_element (host (smtp_checker w)) (host_ctr (smtp_checker w)) /\
      host_ptr (smtp_checker w') <> None
  | _ => False
  end.

(** A step of the callback [f]. *)
Definition callback_step (f : thread_func) (w : world) (f' : thread_func)
    (w' : world) : Prop :=
  follows f f' /\
  match f with
  | fn_smtp_connect_thread => connect_step w f' w'
  | fn_smtp_check_thread => io_step (Some fn_smtp_engine_thread) w f' w'
  | _ => io_step (buff_cb (smtp_checker w)) w f' w'
  end.

(** What a pending callback relies on: the connection handler and the I/O
    callbacks on a current target, the I/O callbacks on the engine being
    the function to call back. *)
Definition pending_inv (w : world) (f : thread_func) : Prop :=
  match f with
  | fn_smtp_connect_thread => True
  | fn_smtp_check_thread => host_ptr (smtp_checker w) <> None
  | fn_smtp_get_line_cb | fn_smtp_put_line_cb =>
      host_ptr (smtp_checker w) <> None /\
      buff_cb (smtp_checker w) = Some fn_smtp_engine_thread
  | fn_smtp_engine_thread => False
  end.

(** The target index lies within the list, and during an attempt the
    current target is the one at the index. *)
Definition target_inv (w : world) (f : thread_func) : Prop :=
  0 <= host_ctr (smtp_checker w) <= Z.of_nat (length (host (smtp_checker w))) /\
  match f with
  | fn_smtp_connect_thread => True
  | _ =>
      exists h,
        host_ptr (smtp_checker w) = Some h /\
        list_element (host (smtp_checker w)) (host_ctr (smtp_checker w)) = Some h
  end.

(** The wake-ups of a complete dialogue on the descriptor [fd], once the
    connection is established: the server's three lines [l1], [l2] and
    [l3] arrive each in one [read], and the two [write]s return [k1] and
    [k2]. *)
Definition session (fd : Z) (l1 l2 l3 : list ascii) (k1 k2 : Z) :
    list (thread_t * callback) :=
  [ (mk_thread THREAD_WRITE fd, CbCheck connect_success);
    (mk_thread THREAD_READ fd, CbGetLine (ReadBytes l1));
    (mk_thread THREAD_WRITE fd, CbPutLine (Wrote k1));
    (mk_thread THREAD_READ fd, CbGetLine (ReadBytes l2));
    (mk_thread THREAD_WRITE fd, CbPutLine (Wrote k2));
    (mk_thread THREAD_READ fd, CbGetLine (ReadBytes l3)) ].

(** The newline of a received line is among the bytes the buffer takes. *)
Definition newline_arrives {E : check_env} (l : list ascii) : Prop :=
  existsb is_newline (firstn (Z.to_nat SMTP_BUFF_MAX) l) = true.

(** ** Comparing two configurations: [smtp_check_compare] *)

(** [strcmp]: the sign of the first difference between two C strings. *)
Fixpoint strcmp (a b : list ascii) : Z :=
  match a, b with
  | [], [] => 0
  | [], d :: _ => if is_nul d then 0 else -1
  | c :: _, [] => if is_nul c then 0 else 1
  | c :: a', d :: b' =>
      if is_nul c && is_nul d then 0
      else if char_code c <? char_code d then -1
      else if char_code d <? char_code c then 1
      else strcmp a' b'
  end.

(** What [smtp_check_compare] reads of a [checker_t]: the connection
    options [checker->co] (CHECKER_CO), a pointer that may be NULL, and the
    [smtp_checker_t] in [checker->data] (CHECKER_DATA). *)
Record checker_conf : Type := mk_checker_conf {
  checker_co : option conn_opts_t;
  checker_data : smtp_checker_t
}.

(** [LIST_SIZE (l)]. *)
Definition LIST_SIZE {A : Type} (l : list A) : Z := Z.of_nat (length l).

Section Compare.

(** [compare_conn_opts] belongs to the checker API (check_api.c), which is
    not part of this file: it is a parameter. *)
Variable compare_conn_opts : option conn_opts_t -> option conn_opts_t -> bool.

(** The loop [for (n = 0; n < LIST_SIZE (new->host); n++)], entered at
    index [n] with [remaining] iterations to go. *)
Fixpoint compare_hosts (remaining : nat) (n : Z) (old new : list conn_opts_t) : bool :=
  match remaining with
  | O => true
  | S k =>
      let h1 := list_element old n in
      let h2 := list_element new n in
      if negb (compare_conn_opts h1 h2) then false
      else compare_hosts k (wrap_size (n + 1)) old new
  end.

Definition smtp_check_compare (a b : checker_conf) : bool :=
  let old := checker_data a in
  let new := checker_data b in
  if negb (strcmp (helo_name old) (helo_name new) =? 0) then false
  else if negb (compare_conn_opts (checker_co a) (checker_co b)) then false
  else if negb (LIST_SIZE (host old) =? LIST_SIZE (host new)) then false
  else compare_hosts (length (host new)) 0 (host old) (host new).

End Compare.

(** ** Configuration: the keyword handlers

    The handlers run while keepalived.conf is read, between the keyword
    SMTP_CHECK and the end of its block.  They work on the checker being
    configured (CHECKER_GET, CHECKER_GET_CO, CHECKER_GET_CURRENT) and on
    the two statics [default_co] and [sav_co]; this is the state threaded
    through them here. *)

(** AF_UNSPEC of <sys/socket.h>. *)
Definition AF_UNSPEC : Z := 0.

(** [struct sockaddr_storage] as the handlers read it: the family, the
    port at the place a [struct sockaddr_in] has it, and the bytes that
    follow. *)
Record sockaddr_storage : Type := mk_sockaddr_storage {
  ss_family : Z;
  sin_port : Z;
  ss_rest : list Z
}.

(** [conn_opts_t] with all the fields the keyword handlers read ([fwmark]
    exists under _WITH_SO_MARK_). *)
Record full_conn_opts_t : Type := mk_full_conn_opts {
  co_dst : sockaddr_storage;
  co_bindto : sockaddr_storage;
  co_bind_if : list ascii;
  co_fwmark : Z;
  co_connection_to : Z
}.

(** What [MALLOC (sizeof (conn_opts_t))] returns: zero-filled memory. *)
Definition zero_conn_opts : full_conn_opts_t :=
  mk_full_conn_opts (mk_sockaddr_storage 0 0 []) (mk_sockaddr_storage 0 0 []) [] 0 0.

Record conf_t : Type := mk_conf {
  conf_helo_name : option (list ascii);     (* smtp_checker->helo_name *)
  conf_host : list full_conn_opts_t;        (* smtp_checker->host *)
  conf_co : option full_conn_opts_t;        (* checker->co *)
  conf_default_co : option full_conn_opts_t;
  conf_sav_co : option full_conn_opts_t;
  conf_log : list string
}.

(** A handler returns, or it faults: it uses a NULL pointer, or a checker
    that is no longer in the queue and whose memory has been freed.  C
    defines no result for either, and the model does not follow the run
    further. *)
Inductive conf_outcome : Type :=
| ConfDone (c : conf_t)
| ConfFault.

Section Configuration.

(** timer.h, check_smtp.h and the build configuration. *)
Variable TIMER_HZ : Z.
Variable SMTP_DEFAULT_HELO : list ascii.
Variable WITH_SO_MARK : bool.

(** The checker API (check_api.c): the validation of a target, the store
    of a port into an address, and [default_co] as [queue_checker] leaves
    it. *)
Variable check_conn_opts : full_conn_opts_t -> bool.
Variable checker_set_dst_port : sockaddr_storage -> Z -> sockaddr_storage.
Variable queued_default_co : full_conn_opts_t.

(** [smtp_check_handler]: the keyword SMTP_CHECK.  [sav] is what the
    static [sav_co] holds from earlier blocks. *)
Definition smtp_check_handler (sav : option full_conn_opts_t) : conf_t :=
  mk_conf None [] (Some zero_conn_opts) (Some queued_default_co) sav [].

(** [smtp_helo_name_handler]: the keyword helo_name, with the value
    CHECKER_VALUE_STRING reads. *)
Definition smtp_helo_name_handler (value : list ascii) (c : conf_t) : conf_t :=
  mk_conf (Some value) (conf_host c) (conf_co c) (conf_default_co c)
          (conf_sav_co c) (conf_log c).

(** [smtp_host_handler]: the keyword host. *)
Definition smtp_host_handler (c : conf_t) : conf_outcome :=
  match conf_default_co c with
  | None => ConfFault
  | Some d =>
      (* save the main conn_opts_t and set a new default for the host *)
      ConfDone
        (mk_conf (conf_helo_name c) (conf_host c) (Some d) (conf_default_co c)
           (conf_co c)
           (conf_log c ++
            ["The SMTP_CHECK host block is deprecated. Please define additional checkers."%string]))
  end.

(** [smtp_host_end_handler]: the end of a host block. *)
Definition smtp_host_end_handler (c : conf_t) : conf_outcome :=
  match conf_co c with
  | None => ConfFault
  | Some co =>
      ConfDone
        (mk_conf (conf_helo_name c)
           (if negb (check_conn_opts co) then conf_host c else conf_host c ++ [co])
           (conf_sav_co c) (conf_default_co c) (conf_sav_co c) (conf_log c))
  end.

(** The test "any connection component has been configured". *)
Definition component_configured (co : full_conn_opts_t) : bool :=
  negb (ss_family (co_dst co) =? AF_UNSPEC) ||
  ((ss_family (co_dst co) =? AF_UNSPEC) && negb (sin_port (co_dst co) =? 0)) ||
  negb (ss_family (co_bindto co) =? AF_UNSPEC) ||
  ((ss_family (co_bindto co) =? AF_UNSPEC) && negb (sin_port (co_bindto co) =? 0)) ||
  negb (is_nul (char_at (co_bind_if co) 0)) ||
  (WITH_SO_MARK && negb (co_fwmark co =? 0)) ||
  negb (co_connection_to co =? 0).

(** "Set any necessary defaults": the destination of [default_co] where
    none was given (the port is kept, if one was), and a connection timeout
    of 5 seconds (5 * TIMER_HZ is a constant that fits the field). *)
Definition with_defaults (d : option full_conn_opts_t) (co : full_conn_opts_t) :
    option full_conn_opts_t :=
  let dst1 :=
    if ss_family (co_dst co) =? AF_UNSPEC then
      match d with
      | None => None
      | Some d =>
          if negb (sin_port (co_dst co) =? 0)
          then Some (checker_set_dst_port (co_dst d) (sin_port (co_dst co)))
          else Some (co_dst d)
      end
    else Some (co_dst co) in
  let to1 :=
    if co_connection_to co =? 0 then 5 * TIMER_HZ else co_connection_to co in
  match dst1 with
  | None => None
  | Some dst1 =>
      Some (mk_full_conn_opts dst1 (co_bindto co) (co_bind_if co) (co_fwmark co) to1)
  end.

(** [smtp_check_end_handler]: the end of the SMTP_CHECK block.

    When [check_conn_opts] rejects the block's own target the handler calls
    [dequeue_new_checker], which takes the new checker off the queue and
    has it freed by the function given to [queue_checker],
    [free_smtp_check]: the list of targets, the HELO name, the
    [smtp_checker_t] and the [checker_t].  The handler does not return
    there.  It goes on, as on its other paths, to CHECKER_GET_CO () = NULL,
    which is taken on the queue's tail, no longer this checker, and to
    LIST_ISEMPTY (smtp_checker->host) and what follows it, on the
    [smtp_checker_t] that has been freed. *)
Definition smtp_check_end_handler (c : conf_t) : conf_outcome :=
  match conf_co c with
  | None => ConfFault
  | Some co =>
      let helo :=
        match conf_helo_name c with
        | None => c_str SMTP_DEFAULT_HELO ++ [NUL]
        | Some name => name
        end in
      (* CHECKER_GET_CO () = NULL; if there was no host, a single host is
         added to the list; default_co = NULL.  [hosts] is the checker's
         list of targets, and None when the checker has been dequeued and
         freed: these statements then use it all the same. *)
      let finish (hosts : option (list full_conn_opts_t)) : conf_outcome :=
        match hosts, conf_default_co c with
        | None, _ => ConfFault
        | Some [], None => ConfFault
        | Some [], Some d =>
            ConfDone (mk_conf (Some helo) [d] None None (conf_sav_co c) (conf_log c))
        | Some (x :: l), _ =>
            ConfDone (mk_conf (Some helo) (x :: l) None None (conf_sav_co c) (conf_log c))
        end in
      (* If any connection component has been configured, we want to add it
         to the host list *)
      if component_configured co then
        match with_defaults (conf_default_co c) co with
        | None => ConfFault
        | Some co1 =>
            if negb (check_conn_opts co1)
            then (* dequeue_new_checker (); FREE (co); *) finish None
            else (* list_add (smtp_checker->host, co); *) finish (Some (conf_host c ++ [co1]))
        end
      else (* FREE (co); *) finish (Some (conf_host c))
  end.

(** A host block: the keyword host, the keywords inside the block, which
    the common keyword handlers apply to [checker->co] ([edit]), and the
    end of the block. *)
Definition host_block (edit : full_conn_opts_t -> full_conn_opts_t) (c : conf_t) :
    conf_outcome :=
  match smtp_host_handler c with
  | ConfDone c1 =>
      smtp_host_end_handler
        (mk_conf (conf_helo_name c1) (conf_host c1) (option_map edit (conf_co c1))
                 (conf_default_co c1) (conf_sav_co c1) (conf_log c1))
  | o => o
  end.

Fixpoint host_blocks (edits : list (full_conn_opts_t -> full_conn_opts_t)) (c : conf_t) :
    conf_outcome :=
  match edits with
  | [] => ConfDone c
  | edit :: rest =>
      match host_block edit c with
      | ConfDone c1 => host_blocks rest c1
      | o => o
      end
  end.

(** A whole SMTP_CHECK block, as the parser drives the handlers that
    [install_smtp_check_keyword] installs: the keyword SMTP_CHECK, the
    keyword helo_name if it is given, the connection keywords of the block
    itself ([main_edit], applied to [checker->co] by the common keyword
    handlers), its host blocks, and the end of the block. *)
Definition smtp_check_block (sav : option full_conn_opts_t)
    (helo : option (list ascii))
    (main_edit : full_conn_opts_t -> full_conn_opts_t)
    (edits : list (full_conn_opts_t -> full_conn_opts_t)) : conf_outcome :=
  let c0 := smtp_check_handler sav in
  let c1 := match helo with Some value => smtp_helo_name_handler value c0 | None => c0 end in
  let c2 := mk_conf (conf_helo_name c1) (conf_host c1) (option_map main_edit (conf_co c1))
                    (conf_default_co c1) (conf_sav_co c1) (conf_log c1) in
  match host_blocks edits c2 with
  | ConfDone c3 => smtp_check_end_handler c3
  | o => o
  end.

End Configuration.

(** ** A concrete setting, for running the model *)

(** Modelled from the spec: [update_svr_checker_state] (the health module is
    not part of this file) is the health-state transition call taking the
    backend and the new state; it records the state in the checker, notes
    that a check has completed, and marks the real server accordingly. *)
Definition example_update_svr_checker_state (st : svr_state) (c : checker_t) : checker_t :=
  let up := match st with UP => true | DOWN => false end in
  mk_checker (mk_real_server up (smtp_alert (rs c))) (enabled c) up true
             (delay_loop c) (retry c) (delay_before_retry c) (retry_it c).

Definition example_env : check_env :=
  mk_check_env 512 1 2 3 4 5 6 example_update_svr_checker_state.

Definition example_host : conn_opts_t := mk_conn_opts 2 5000.

Definition example_host2 : conn_opts_t := mk_conn_opts 10 7000.

(** A real server that is up and alerting, checked every 10 s with 3 tries
    1 s apart. *)
Definition example_checker : checker_t :=
  mk_checker (mk_real_server true true) true true true 10000 3 1000 0.

Definition example_smtp_checker (name : string) (hosts : list conn_opts_t) : smtp_checker_t :=
  mk_smtp_checker (list_ascii_of_string name) hosts None 0
                  (repeat NUL 512) 0 0 None.

Definition example_world : world :=
  mk_world example_checker (example_smtp_checker "probe" [example_host; example_host2]) false.

(** A [smtp_checker_t] whose buffer holds the given bytes. *)
Definition with_buff (b : list ascii) : smtp_checker_t :=
  mk_smtp_checker [] [] None 0 b 0 0 None.

Definition example_thread (ty : thread_type) : thread_t := mk_thread ty 7.

(** A world in the middle of an attempt against [example_host]. *)
Definition example_attempt (name : list ascii) (st : Z) (b : list ascii) (ctr : Z) : world :=
  mk_world example_checker
    (mk_smtp_checker name [example_host; example_host2] (Some example_host) 0
       (blit_nat (repeat NUL 512) 0 b) ctr st (Some fn_smtp_engine_thread))
    false.

(** A HELO name of 510 bytes. *)
Definition long_helo_name : list ascii := repeat "a"%char 510.

(** A received line. *)
Definition line (text : string) : list ascii := list_ascii_of_string text ++ [CR; LF].


(** The banner has been received, and the HELO name is too long for the
    buffer. *)
Definition long_name_world : world :=
  example_attempt long_helo_name 2 (line "220 mail.example.com") 22.

(** The banner has been received. *)
Definition banner_world : world :=
  example_attempt (list_ascii_of_string "probe") 2 (line "220 mail.example.com") 22.

(** 512 bytes have been received, none of them a newline. *)
Definition full_buffer_world : world :=
  example_attempt (list_ascii_of_string "probe") 2 (repeat "A"%char 512) 512.

(** Two failures are counted against the current target. *)
Definition last_try_world : world :=
  mk_world (set_retry_it 2 example_checker)
    (example_smtp_checker "probe" [example_host; example_host2]) false.

(** A checker that has never run, with both targets passed. *)
Definition end_of_list_world : world :=
  mk_world (mk_checker (mk_real_server false true) true false false 10000 3 1000 0)
    (set_host_ctr 2 (example_smtp_checker "probe" [example_host; example_host2])) false.

(** A checker that has never run, at the start of a cycle. *)
Definition fresh_world : world :=
  mk_world (mk_checker (mk_real_server false true) true false false 10000 3 1000 0)
    (example_smtp_checker "probe" [example_host; example_host2]) false.

(** An attempt that ends in a connection error, and one that succeeds. *)
Definition failed_attempt : attempt :=
  mk_attempt 7 connect_in_progress (example_thread THREAD_WRITE) true
    (Some "Error connecting to server %s"%string) [example_host].

Definition passed_attempt : attempt :=
  mk_attempt 7 connect_in_progress (example_thread THREAD_READ) false None [].

(** The wake-ups of one complete dialogue with the first target. *)
Definition dialogue : list (thread_t * callback) :=
  [ (example_thread THREAD_TIMER, CbConnect 7 connect_in_progress false);
    (example_thread THREAD_WRITE, CbCheck connect_success);
    (example_thread THREAD_READ, CbGetLine (ReadBytes (line "220 mail.example.com")));
    (example_thread THREAD_WRITE, CbPutLine (Wrote 12));
    (example_thread THREAD_READ, CbGetLine (ReadBytes (line "250 Hello")));
    (example_thread THREAD_WRITE, CbPutLine (Wrote 6));
    (example_thread THREAD_READ, CbGetLine (ReadBytes (line "221 Bye"))) ].

(** The wake-ups of an attempt in which the server sends 512 bytes without
    a newline. *)
Definition flood : list (thread_t * callback) :=
  [ (example_thread THREAD_TIMER, CbConnect 7 connect_in_progress false);
    (example_thread THREAD_WRITE, CbCheck connect_success);
    (example_thread THREAD_READ, CbGetLine (ReadBytes (repeat "A"%char 512)));
    (example_thread THREAD_READ, CbGetLine (ReadBytes [])) ].

(** The memory the flood ends in: the failure has been counted. *)
Definition flooded_world : world :=
  mk_world (set_retry_it 1 example_checker) (smtp_checker full_buffer_world) false.

(** The connection is established and the read wait for the greeting is
    registered. *)
Definition greeting_wait_world : world :=
  example_attempt (list_ascii_of_string "probe") 2 [] 0.

(** In the middle of an attempt, with two failures counted against the
    current target. *)
Definition last_try_attempt_world : world :=
  mk_world (set_retry_it 2 example_checker)
    (set_host_ptr (Some example_host)
       (example_smtp_checker "probe" [example_host; example_host2])) false.

(** A checker that has been disabled. *)
Definition disabled_world : world :=
  mk_world (mk_checker (mk_real_server true true) false true true 10000 3 1000 0)
    (example_smtp_checker "probe" [example_host; example_host2]) false.

(** A [compare_conn_opts] that accepts two targets with the same fields,
    and two NULL pointers. *)
Definition example_compare_conn_opts (a b : option conn_opts_t) : bool :=
  match a, b with
  | None, None => true
  | Some x, Some y =>
      (dst_ss_family x =? dst_ss_family y) && (connection_to x =? connection_to y)
  | _, _ => false
  end.

Definition example_checker_conf (name : string) : checker_conf :=
  mk_checker_conf None (example_smtp_checker name [example_host; example_host2]).

(** A [check_conn_opts] that asks for a destination, and a
    [checker_set_dst_port] that stores the port. *)
Definition example_check_conn_opts (co : full_conn_opts_t) : bool :=
  negb (ss_family (co_dst co) =? AF_UNSPEC).

Definition example_set_dst_port (a : sockaddr_storage) (port : Z) : sockaddr_storage :=
  mk_sockaddr_storage (ss_family a) port (ss_rest a).

(** The default target: the real server's address. *)
Definition example_default_co : full_conn_opts_t :=
  mk_full_conn_opts (mk_sockaddr_storage 2 25 [192; 0; 2; 1])
    (mk_sockaddr_storage 0 0 []) [] 0 0.

(** The keyword connect_timeout with the value 3 (in timer ticks), and the
    keyword connect_port with the value 587. *)
Definition example_connect_timeout (co : full_conn_opts_t) : full_conn_opts_t :=
  mk_full_conn_opts (co_dst co) (co_bindto co) (co_bind_if co) (co_fwmark co) 3000000.

Definition example_connect_port (co : full_conn_opts_t) : full_conn_opts_t :=
  mk_full_conn_opts
    (mk_sockaddr_storage (ss_family (co_dst co)) 587 (ss_rest (co_dst co)))
    (co_bindto co) (co_bind_if co) (co_fwmark co) (co_connection_to co).

(** A host block that loses its destination. *)
Definition example_no_destination (co : full_conn_opts_t) : full_conn_opts_t :=
  mk_full_conn_opts (mk_sockaddr_storage AF_UNSPEC 0 []) (co_bindto co) (co_bind_if co)
    (co_fwmark co) (co_connection_to co).

(** The block's own keywords have set a port, and one host block has been
    accepted. *)
Definition example_conf : conf_t :=
  mk_conf None [example_connect_timeout example_default_co]
    (Some (example_connect_port zero_conn_opts)) (Some example_default_co) None [].

(** * Properties *)

Section Proofs.

Context {E : check_env}.

#[local] Arguments wrap_uint : simpl never.
#[local] Arguments wrap_size : simpl never.
#[local] Arguments list_element : simpl never.
#[local] Arguments substring : simpl never.
#[local] Arguments String.append : simpl never.

Ltac unfold_m :=
  unfold when, close, thread_add_timer, thread_add_read, thread_add_write,
    thread_del_read, thread_del_write, log_message, send_smtp_alert,
    call_update_svr_checker_state, modify_checker, modify_smtp_checker,
    get_checker, get_smtp_checker, get_no_checker_emails, deref, emit, bind, ret.

(** ** Arrays and C strings *)

Lemma store_nat_length : forall l i c, length (store_nat l i c) = length l.
Proof.
  induction l as [|x l IH]; intros [|i] c; simpl; auto.
Qed.

Lemma store_length : forall l i c, length (store l i c) = length l.
Proof.
  intros. unfold store. destruct (i <? 0); [reflexivity|apply store_nat_length].
Qed.

Lemma blit_nat_length : forall dst off src, length (blit_nat dst off src) = length dst.
Proof.
  induction dst as [|d dst IH]; intros [|off] src; simpl; auto.
  destruct src; simpl; auto.
Qed.

Lemma blit_nat_nil : forall dst off, blit_nat dst off [] = dst.
Proof.
  induction dst as [|d dst IH]; intros [|off]; simpl; auto.
  rewrite IH. reflexivity.
Qed.

Lemma blit_nat_0_app : forall src dst,
  (length src <= length dst)%nat ->
  blit_nat dst 0 src = src ++ skipn (length src) dst.
Proof.
  induction src as [|x src IH]; intros dst Hlen.
  - simpl. apply blit_nat_nil.
  - destruct dst as [|d dst]; simpl in *; [lia|].
    rewrite IH by lia. reflexivity.
Qed.

Lemma store_nat_app_ge : forall t r i c,
  (length t <= i)%nat ->
  store_nat (t ++ r) i c = t ++ store_nat r (i - length t) c.
Proof.
  induction t as [|x t IH]; intros r i c Hi; simpl in *.
  - rewrite Nat.sub_0_r. reflexivity.
  - destruct i as [|i]; [lia|]. simpl. rewrite IH by lia. reflexivity.
Qed.

Lemma c_str_app_nul : forall t r,
  Forall (fun c => is_nul c = false) t ->
  c_str (t ++ NUL :: r) = t.
Proof.
  induction t as [|x t IH]; intros r Hall; simpl.
  - reflexivity.
  - inversion Hall as [|? ? Hx Ht]; subst. rewrite Hx, IH by assumption. reflexivity.
Qed.

Lemma c_str_no_nul : forall l, Forall (fun c => is_nul c = false) (c_str l).
Proof.
  induction l as [|x l IH]; simpl; [constructor|].
  destruct (is_nul x) eqn:Hx; constructor; assumption.
Qed.

Lemma Forall_firstn : forall (A : Type) (P : A -> Prop) n l,
  Forall P l -> Forall P (firstn n l).
Proof.
  intros A P n. induction n as [|n IH]; intros l H; simpl; [constructor|].
  destruct H; constructor; auto.
Qed.

Lemma c_str_store_nat_nul : forall l i,
  (i < length l)%nat -> (length (c_str (store_nat l i NUL)) <= i)%nat.
Proof.
  induction l as [|x l IH]; intros [|i] H; simpl in *; try lia.
  destruct (is_nul x); simpl; [lia|].
  specialize (IH i). lia.
Qed.

(** A string terminated at index [n - 1] is shorter than [n]. *)
Lemma strlen_store_nul : forall l n,
  Z.of_nat (length l) = n -> 0 < n ->
  0 <= strlen (store l (n - 1) NUL) <= n - 1.
Proof.
  intros l n Hl Hn. unfold strlen, store.
  destruct (n - 1 <? 0) eqn:Hneg; [apply Z.ltb_lt in Hneg; lia|].
  pose proof (c_str_store_nat_nul l (Z.to_nat (n - 1))). lia.
Qed.

(** What [snprintf] and [smtp_put_line] leave to be written: the line, cut
    to the [n - 1] bytes that fit before the terminator. *)
Lemma outbound_line : forall b line n,
  Z.of_nat (length b) = n -> 0 < n ->
  Forall (fun c => is_nul c = false) line ->
  let cut := firstn (Z.to_nat (n - 1)) line in
  let b' := store (blit_nat b O (cut ++ [NUL])) (n - 1) NUL in
  firstn (Z.to_nat (strlen b')) b' = cut.
Proof.
  intros b line n Hb Hn Hline cut b'.
  assert (Hcut : (length cut <= Z.to_nat (n - 1))%nat).
  { unfold cut. rewrite length_firstn. lia. }
  assert (Hshape : exists r, b' = cut ++ NUL :: r).
  { unfold b', store.
    destruct (n - 1 <? 0) eqn:Hneg; [apply Z.ltb_lt in Hneg; lia|].
    rewrite blit_nat_0_app by (rewrite length_app; simpl; lia).
    rewrite <- app_assoc. simpl.
    rewrite store_nat_app_ge by exact Hcut.
    destruct (Z.to_nat (n - 1) - length cut)%nat; simpl; eauto. }
  destruct Hshape as [r Hr]. rewrite Hr.
  unfold strlen. rewrite c_str_app_nul by (apply Forall_firstn; exact Hline).
  rewrite Nat2Z.id. rewrite firstn_app, Nat.sub_diag, firstn_all. simpl.
  apply app_nil_r.
Qed.

Lemma helo_line_no_nul : forall name,
  Forall (fun c => is_nul c = false) (helo_line name).
Proof.
  intros name. unfold helo_line.
  apply Forall_app. split; [repeat constructor|].
  apply Forall_app. split; [apply c_str_no_nul|repeat constructor].
Qed.

Lemma quit_line_no_nul : Forall (fun c => is_nul c = false) quit_line.
Proof. repeat constructor. Qed.

Lemma list_element_in_range : forall (A : Type) (l : list A) i,
  0 <= i < Z.of_nat (length l) ->
  exists a, list_element l i = Some a.
Proof.
  intros A l i Hi. unfold list_element.
  destruct (i <? 0) eqn:Hneg; [apply Z.ltb_lt in Hneg; lia|].
  destruct (nth_error l (Z.to_nat i)) eqn:Hn; [eauto|].
  apply nth_error_None in Hn. lia.
Qed.

Lemma list_element_past_end : forall (A : Type) (l : list A) i,
  Z.of_nat (length l) <= i ->
  list_element l i = None.
Proof.
  intros A l i Hi. unfold list_element.
  destruct (i <? 0) eqn:Hneg; [reflexivity|].
  apply nth_error_None. lia.
Qed.

(** ** The monad *)

Lemma bind_done : forall (A B : Type) (m : M A) (k : A -> M B) w a w1 tr1 b w2 tr2,
  m w = Done a w1 tr1 ->
  k a w1 = Done b w2 tr2 ->
  bind m k w = Done b w2 (tr1 ++ tr2).
Proof.
  intros A B m k w a w1 tr1 b w2 tr2 H1 H2. unfold bind. rewrite H1, H2. reflexivity.
Qed.

Lemma bind_get_smtp_checker : forall (A : Type) (k : smtp_checker_t -> M A) w,
  bind get_smtp_checker k w = k (smtp_checker w) w.
Proof.
  intros. unfold bind, get_smtp_checker. destruct (k (smtp_checker w) w); reflexivity.
Qed.

Lemma bind_deref_some : forall (A B : Type) (a : A) (k : A -> M B) w,
  bind (deref (Some a)) k w = k a w.
Proof.
  intros. unfold bind, deref. destruct (k a w); reflexivity.
Qed.

Lemma world_eta : forall w,
  mk_world (checker w) (smtp_checker w) (no_checker_emails w) = w.
Proof. intros [c s g]. reflexivity. Qed.

Lemma set_buff_same : forall s, set_buff (buff s) s = s.
Proof. intros []. reflexivity. Qed.

Lemma transitions_app : forall st tr1 tr2,
  transitions st (tr1 ++ tr2) = (transitions st tr1 + transitions st tr2)%nat.
Proof.
  intros. unfold transitions. rewrite filter_app, length_app. reflexivity.
Qed.

Lemma alerts_app : forall tr1 tr2,
  alerts (tr1 ++ tr2) = (alerts tr1 + alerts tr2)%nat.
Proof.
  intros. unfold alerts. rewrite filter_app, length_app. reflexivity.
Qed.

(** ** Status parser *)

Lemma isdigit_value : forall c, isdigit c = true -> 0 <= digit_value c <= 9.
Proof.
  intros c H. unfold isdigit, digit_value in *.
  apply andb_true_iff in H. destruct H as [H1 H2].
  apply Z.leb_le in H1. apply Z.leb_le in H2. lia.
Qed.

Lemma nul_not_digit : forall c, is_nul c = true -> isdigit c = false.
Proof.
  intros c H. unfold is_nul, isdigit in *. apply Z.eqb_eq in H. rewrite H. reflexivity.
Qed.

Lemma space_not_digit : forall c, (char_code c =? 32) = true -> isdigit c = false.
Proof.
  intros c H. unfold isdigit. apply Z.eqb_eq in H. rewrite H. reflexivity.
Qed.

Lemma small_status : forall a b c,
  0 <= a <= 9 -> 0 <= b <= 9 -> 0 <= c <= 9 ->
  let v := (a * 10 + b) * 10 + c in
  (v >? ULONG_MAX) = false /\ int_of_ulong v = 100 * a + 10 * b + c.
Proof.
  intros a b c Ha Hb Hc v. subst v. split.
  - rewrite Z.gtb_ltb. apply Z.ltb_ge. unfold ULONG_MAX. lia.
  - unfold int_of_ulong. rewrite Z.mod_small by lia.
    destruct (_ <? 2 ^ 31) eqn:Hlt; [lia|]. apply Z.ltb_ge in Hlt. lia.
Qed.

(** On every buffer that does not start with white space or a sign, the
    parser computes what the specification says. *)
Lemma smtp_get_status_spec : forall b,
  space_or_sign_first b = false ->
  smtp_get_status (with_buff b) = status_spec b.
Proof.
  intros b Hfirst. unfold smtp_get_status, with_buff. simpl buff.
  destruct b as [|d1 b]; [reflexivity|].
  simpl in Hfirst. apply orb_false_iff in Hfirst. destruct Hfirst as [Hfirst Hplus].
  apply orb_false_iff in Hfirst. destruct Hfirst as [Hsp Hminus].
  unfold strtoul. cbv zeta. simpl span_space. rewrite Hsp. simpl skipn.
  cbv beta iota. rewrite Hminus, Hplus.
  simpl skipn. simpl span_digits.
  destruct (isdigit d1) eqn:D1.
  2:{ simpl. destruct b as [|d2 [|d3 b]]; simpl; rewrite ?D1; reflexivity. }
  destruct b as [|d2 b]; [reflexivity|]. simpl span_digits.
  destruct (isdigit d2) eqn:D2.
  2:{ simpl. destruct b; simpl; rewrite ?D1, ?D2; reflexivity. }
  destruct b as [|d3 b]; [reflexivity|]. simpl span_digits.
  destruct (isdigit d3) eqn:D3.
  2:{ simpl. rewrite D1, D2, D3. reflexivity. }
  pose proof (isdigit_value _ D1) as V1.
  pose proof (isdigit_value _ D2) as V2.
  pose proof (isdigit_value _ D3) as V3.
  destruct (small_status _ _ _ V1 V2 V3) as [Hsmall Hint].
  unfold status_spec. rewrite D1, D2, D3. simpl andb.
  destruct b as [|c b].
  - simpl span_digits. cbv iota beta. rewrite Hsmall. simpl Z.of_nat.
    simpl. rewrite Hint. reflexivity.
  - simpl span_digits. destruct (isdigit c) eqn:D4.
    + destruct (span_digits b _) as [v n]. cbv iota beta.
      replace (Z.of_nat (0 + 0 + S (S (S (S n)))) =? 3) with false
        by (symmetry; apply Z.eqb_neq; lia).
      simpl.
      destruct (is_nul c) eqn:Hn; [rewrite (nul_not_digit _ Hn) in D4; discriminate|].
      destruct (char_code c =? 32) eqn:Hs; [rewrite (space_not_digit _ Hs) in D4; discriminate|].
      reflexivity.
    + cbv iota beta. rewrite Hsmall. simpl Z.of_nat. simpl Z.eqb. simpl negb.
      unfold char_at. simpl.
      destruct (is_nul c); simpl; [exact Hint|].
      destruct (char_code c =? 32); simpl; [exact Hint | reflexivity].
Qed.

(** The four lines the specification gives as examples. *)
Lemma smtp_get_status_examples :
  smtp_get_status (with_buff (list_ascii_of_string "250 OK")) = 250 /\
  smtp_get_status (with_buff (list_ascii_of_string "25 OK")) = -1 /\
  smtp_get_status (with_buff (list_ascii_of_string "2500K")) = -1 /\
  smtp_get_status (with_buff (list_ascii_of_string "250")) = 250.
Proof. repeat split; reflexivity. Qed.

(** C1 (the code departs from the claim).  The claim: [smtp_get_status]
    yields the integer exactly when three digits start at offset 0 and a
    space or the end of the content follows, and -1 on every other input,
    leading white space and signs included.  [strtoul] skips white space
    and accepts a sign, and the parser only counts the bytes consumed: the
    lines " 25 OK", "+25 OK" and "-25 OK", whose first three bytes are not
    three digits, parse to 25, 25 and -25 instead of -1. *)
Theorem smtp_get_status_space_or_sign :
  smtp_get_status (with_buff (line " 25 OK")) = 25 /\
  smtp_get_status (with_buff (line "+25 OK")) = 25 /\
  smtp_get_status (with_buff (line "-25 OK")) = -25 /\
  status_spec (line " 25 OK") = -1 /\
  status_spec (line "+25 OK") = -1 /\
  status_spec (line "-25 OK") = -1.
Proof. repeat split; reflexivity. Qed.

(** ** Final handler *)

Lemma smtp_final_success_eq : forall thread format args w,
  smtp_final thread false format args w =
  Done tt
    (mk_world (set_retry_it 0 (checker w))
       (set_host_ctr (wrap_size (host_ctr (smtp_checker w) + 1)) (smtp_checker w))
       (no_checker_emails w))
    [EvClose (u_fd thread); EvThreadAddTimer fn_smtp_connect_thread 1].
Proof.
  intros. unfold smtp_final. unfold_m. simpl. reflexivity.
Qed.

Lemma smtp_final_retry_eq : forall thread format args w,
  wrap_uint (retry_it (checker w) + 1) < retry (checker w) ->
  smtp_final thread true format args w =
  Done tt
    (mk_world (set_retry_it (wrap_uint (retry_it (checker w) + 1)) (checker w))
       (smtp_checker w) (no_checker_emails w))
    (EvClose (u_fd thread) ::
     (if is_up (checker w)
      then [match format with
            | Some f => EvLog ("SMTP_CHECK " ++ substring 0 500 f)%string args
            | None => EvLog "SMTP_CHECK Unknown error"%string []
            end]
      else []) ++
     [EvThreadAddTimer fn_smtp_connect_thread (delay_before_retry (checker w))]).
Proof.
  intros thread format args w H.
  apply Z.ltb_lt in H.
  unfold smtp_final. unfold_m. simpl. rewrite H.
  destruct (is_up (checker w)); [destruct format|]; simpl; reflexivity.
Qed.

Lemma smtp_final_exhausted_eq : forall thread format args w,
  ~ wrap_uint (retry_it (checker w) + 1) < retry (checker w) ->
  let c := checker w in
  let c0 := set_retry_it (wrap_uint (retry_it c + 1)) c in
  let down := is_up c || negb (has_run c) in
  let c1 := if down then update_svr_checker_state DOWN c0 else c0 in
  let alert := smtp_alert (rs c1) && is_up c &&
               (negb (Bool.eqb (alive (rs c)) (alive (rs c1))) || negb (no_checker_emails w)) in
  smtp_final thread true format args w =
  Done tt
    (mk_world (set_retry_it 0 c1) (set_host_ctr 0 (smtp_checker w)) (no_checker_emails w))
    (EvClose (u_fd thread) ::
     (if is_up c
      then [match format with
            | Some f => EvLog ("SMTP_CHECK " ++ substring 0 500 f)%string args
            | None => EvLog "SMTP_CHECK Unknown error"%string []
            end]
      else []) ++
     (if down then [EvUpdateSvrCheckerState DOWN] else []) ++
     (if alert
      then [match format with
            | Some f =>
                EvSmtpAlert
                  (substring 0 511 ("=> CHECK failed on service : " ++ f ++ " <="))%string
                  args
            | None => EvSmtpAlert "=> CHECK failed on service <="%string []
            end]
      else []) ++
     [EvThreadAddTimer fn_smtp_connect_thread (delay_loop c1)]).
Proof.
  intros thread format args w H.
  apply Z.ltb_nlt in H.
  unfold smtp_final. unfold_m. simpl. rewrite H.
  destruct (is_up (checker w)) eqn:Hup; simpl.
  - destruct (smtp_alert _ && true && _) eqn:Ha; simpl;
      rewrite andb_true_r in Ha;
      destruct format; simpl; rewrite ?andb_true_r, Ha; simpl; reflexivity.
  - destruct (has_run (checker w)); simpl; rewrite ?andb_false_r; simpl; reflexivity.
Qed.

Lemma smtp_final_exhausted_counts : forall thread format args w,
  ~ wrap_uint (retry_it (checker w) + 1) < retry (checker w) ->
  let c := checker w in
  let down := is_up c || negb (has_run c) in
  let c1 := if down
            then update_svr_checker_state DOWN (set_retry_it (wrap_uint (retry_it c + 1)) c)
            else set_retry_it (wrap_uint (retry_it c + 1)) c in
  let alert := smtp_alert (rs c1) && is_up c &&
               (negb (Bool.eqb (alive (rs c)) (alive (rs c1))) || negb (no_checker_emails w)) in
  exists tr,
    smtp_final thread true format args w =
      Done tt (mk_world (set_retry_it 0 c1) (set_host_ctr 0 (smtp_checker w))
                 (no_checker_emails w)) tr /\
    transitions DOWN tr = (if down then 1 else 0)%nat /\
    transitions UP tr = 0%nat /\
    alerts tr = (if alert then 1 else 0)%nat /\
    last tr (EvClose 0) = EvThreadAddTimer fn_smtp_connect_thread (delay_loop c1).
Proof.
  intros thread format args w H c down c1 alert.
  eexists. split.
  { apply smtp_final_exhausted_eq. exact H. }
  fold c. fold down. fold c1. fold alert.
  destruct (is_up c); destruct down; destruct alert; destruct format;
    repeat split; reflexivity.
Qed.

Lemma smtp_final_retry_counts : forall thread format args w,
  wrap_uint (retry_it (checker w) + 1) < retry (checker w) ->
  exists tr,
    smtp_final thread true format args w =
      Done tt (mk_world (set_retry_it (wrap_uint (retry_it (checker w) + 1)) (checker w))
                 (smtp_checker w) (no_checker_emails w)) tr /\
    (forall st, transitions st tr = 0%nat) /\
    alerts tr = 0%nat /\
    last tr (EvClose 0) =
      EvThreadAddTimer fn_smtp_connect_thread (delay_before_retry (checker w)).
Proof.
  intros thread format args w H.
  eexists. split.
  { apply smtp_final_retry_eq. exact H. }
  destruct (is_up (checker w)); destruct format; repeat split; try reflexivity;
    intros [|]; reflexivity.
Qed.

(** C6.  On success the final handler closes the socket, resets the retry
    counter to 0, advances the target index by exactly one and reschedules
    the connect orchestrator after the minimal delay of 1, whatever the
    full-cycle delay is; nothing else changes and nothing else is called: no
    health-state transition, no alert.  (The index is a [size_t] below its
    maximum, as every index into a list in memory is.) *)
Theorem smtp_final_success : forall thread format args w,
  0 <= host_ctr (smtp_checker w) < SIZE_MODULUS - 1 ->
  smtp_final thread false format args w =
  Done tt
    (mk_world (set_retry_it 0 (checker w))
       (set_host_ctr (host_ctr (smtp_checker w) + 1) (smtp_checker w))
       (no_checker_emails w))
    [EvClose (u_fd thread); EvThreadAddTimer fn_smtp_connect_thread 1].
Proof.
  intros thread format args w Hctr.
  rewrite smtp_final_success_eq.
  unfold wrap_size. rewrite Z.mod_small by lia. reflexivity.
Qed.

(** ** Connect orchestrator *)

Lemma smtp_connect_thread_disabled_eq : forall thread sd status refused w,
  enabled (checker w) = false ->
  smtp_connect_thread thread sd status refused w =
  Done tt w [EvThreadAddTimer fn_smtp_connect_thread (delay_loop (checker w))].
Proof.
  intros thread sd status refused w He.
  unfold smtp_connect_thread. unfold_m. simpl. rewrite He. simpl. reflexivity.
Qed.

Lemma smtp_connect_thread_end_eq : forall thread sd status refused w,
  enabled (checker w) = true ->
  list_element (host (smtp_checker w)) (host_ctr (smtp_checker w)) = None ->
  let c := checker w in
  let up := negb (is_up c) || negb (has_run c) in
  let c1 := if up then update_svr_checker_state UP c else c in
  let alert := smtp_alert (rs c1) && negb (is_up c) &&
               (negb (Bool.eqb (alive (rs c)) (alive (rs c1))) || negb (no_checker_emails w)) in
  smtp_connect_thread thread sd status refused w =
  Done tt
    (mk_world (set_retry_it 0 c1)
       (set_host_ptr (list_element (host (smtp_checker w)) 0)
          (set_host_ctr 0 (smtp_checker w)))
       (no_checker_emails w))
    ((if up
      then EvLog "Remote SMTP server %s succeed on service."%string [] ::
           EvUpdateSvrCheckerState UP ::
           (if alert then [EvSmtpAlert "=> CHECK succeed on service <="%string []] else [])
      else []) ++
     [EvThreadAddTimer fn_smtp_connect_thread (delay_loop c1)]).
Proof.
  intros thread sd status refused w He Hn.
  unfold smtp_connect_thread. unfold_m. simpl. rewrite He. simpl. rewrite Hn. simpl.
  destruct (is_up (checker w)) eqn:Hup; simpl.
  - rewrite ?andb_false_r. simpl.
    destruct (has_run (checker w)); simpl; rewrite ?andb_false_r; simpl; reflexivity.
  - rewrite ?andb_true_r.
    destruct (smtp_alert _ && _) eqn:Ha; simpl; reflexivity.
Qed.

Lemma smtp_connect_thread_socket_failure_eq : forall thread status refused w h,
  enabled (checker w) = true ->
  list_element (host (smtp_checker w)) (host_ctr (smtp_checker w)) = Some h ->
  smtp_connect_thread thread (-1) status refused w =
  Done tt
    (mk_world (checker w) (set_host_ptr (Some h) (smtp_checker w)) (no_checker_emails w))
    [EvSocket (dst_ss_family h);
     EvLog "SMTP_CHECK connection failed to create socket. Rescheduling."%string [];
     EvThreadAddTimer fn_smtp_connect_thread (delay_loop (checker w))].
Proof.
  intros thread status refused w h He Hn.
  unfold smtp_connect_thread. unfold_m. simpl. rewrite He. simpl. rewrite Hn. simpl.
  reflexivity.
Qed.

Lemma smtp_connect_thread_refused_eq : forall thread sd status w h,
  enabled (checker w) = true ->
  list_element (host (smtp_checker w)) (host_ctr (smtp_checker w)) = Some h ->
  sd <> -1 ->
  smtp_connect_thread thread sd status true w =
  Done tt
    (mk_world (checker w) (set_host_ptr (Some h) (smtp_checker w)) (no_checker_emails w))
    [EvSocket (dst_ss_family h);
     EvTcpBindConnect sd h;
     EvTcpConnectionState sd status fn_smtp_check_thread (connection_to h);
     EvClose sd;
     EvLog "SMTP_CHECK socket bind failed. Rescheduling."%string [];
     EvThreadAddTimer fn_smtp_connect_thread (delay_loop (checker w))].
Proof.
  intros thread sd status w h He Hn Hsd.
  apply Z.eqb_neq in Hsd.
  unfold smtp_connect_thread. unfold_m. simpl. rewrite He. simpl. rewrite Hn. simpl.
  rewrite Hsd. reflexivity.
Qed.

Lemma smtp_connect_thread_attempt_eq : forall thread sd status w h,
  enabled (checker w) = true ->
  list_element (host (smtp_checker w)) (host_ctr (smtp_checker w)) = Some h ->
  sd <> -1 ->
  smtp_connect_thread thread sd status false w =
  Done tt
    (mk_world (checker w) (set_host_ptr (Some h) (smtp_checker w)) (no_checker_emails w))
    [EvSocket (dst_ss_family h);
     EvTcpBindConnect sd h;
     EvTcpConnectionState sd status fn_smtp_check_thread (connection_to h)].
Proof.
  intros thread sd status w h He Hn Hsd.
  apply Z.eqb_neq in Hsd.
  unfold smtp_connect_thread. unfold_m. simpl. rewrite He. simpl. rewrite Hn. simpl.
  rewrite Hsd. reflexivity.
Qed.

(** C8.  When the socket cannot be created ([socket] answers -1), or when
    the connection handler cannot be registered ([tcp_connection_state]
    answers true), the connect orchestrator only logs (after closing the
    socket it had obtained) and reschedules itself after the full-cycle
    delay.  The checker record, with the retry counter and the health flags,
    and the target index are left as they were; the final handler is not
    called, so nothing is counted against the target's retries. *)
Theorem smtp_connect_thread_local_failures : forall thread sd status refused w h,
  enabled (checker w) = true ->
  list_element (host (smtp_checker w)) (host_ctr (smtp_checker w)) = Some h ->
  sd = -1 \/ refused = true ->
  smtp_connect_thread thread sd status refused w =
  Done tt
    (mk_world (checker w) (set_host_ptr (Some h) (smtp_checker w)) (no_checker_emails w))
    (EvSocket (dst_ss_family h) ::
     (if sd =? -1
      then [EvLog "SMTP_CHECK connection failed to create socket. Rescheduling."%string []]
      else [EvTcpBindConnect sd h;
            EvTcpConnectionState sd status fn_smtp_check_thread (connection_to h);
            EvClose sd;
            EvLog "SMTP_CHECK socket bind failed. Rescheduling."%string []]) ++
     [EvThreadAddTimer fn_smtp_connect_thread (delay_loop (checker w))]).
Proof.
  intros thread sd status refused w h He Hh Hfail.
  destruct (Z.eq_dec sd (-1)) as [->|Hsd].
  - rewrite (smtp_connect_thread_socket_failure_eq thread status refused w h He Hh).
    reflexivity.
  - destruct Hfail as [Hfail| ->]; [contradiction|].
    rewrite (smtp_connect_thread_refused_eq thread sd status w h He Hh Hsd).
    apply Z.eqb_neq in Hsd. rewrite Hsd. reflexivity.
Qed.

(** ** Attempts and cycles *)

Lemma run_attempt_retry : forall timer a w h,
  enabled (checker w) = true ->
  list_element (host (smtp_checker w)) (host_ctr (smtp_checker w)) = Some h ->
  at_sd a <> -1 ->
  at_error a = true ->
  wrap_uint (retry_it (checker w) + 1) < retry (checker w) ->
  exists tr,
    run_attempt timer a w =
      Done tt (mk_world (set_retry_it (wrap_uint (retry_it (checker w) + 1)) (checker w))
                 (set_host_ptr (Some h) (smtp_checker w)) (no_checker_emails w)) tr /\
    (forall st, transitions st tr = 0%nat) /\
    alerts tr = 0%nat.
Proof.
  intros timer a w h He Hh Hsd Herr Hre.
  pose proof (smtp_connect_thread_attempt_eq timer (at_sd a) (at_status a) w h He Hh Hsd) as Hc.
  match type of Hc with _ = Done tt ?x _ => set (w1 := x) in * end.
  destruct (smtp_final_retry_counts (at_thread a) (at_format a) (at_args a) w1 Hre)
    as (tr & Hf & Ht & Ha & _).
  eexists. split.
  { unfold run_attempt. rewrite Herr. eapply bind_done; [exact Hc | exact Hf]. }
  split.
  - intros st. rewrite transitions_app, Ht. destruct st; reflexivity.
  - rewrite alerts_app, Ha. reflexivity.
Qed.

Lemma run_attempt_exhausted : forall timer a w h,
  enabled (checker w) = true ->
  list_element (host (smtp_checker w)) (host_ctr (smtp_checker w)) = Some h ->
  at_sd a <> -1 ->
  at_error a = true ->
  ~ wrap_uint (retry_it (checker w) + 1) < retry (checker w) ->
  exists w' tr,
    run_attempt timer a w = Done tt w' tr /\
    transitions DOWN tr =
      (if is_up (checker w) || negb (has_run (checker w)) then 1 else 0)%nat /\
    transitions UP tr = 0%nat /\
    (is_up (checker w) = false -> alerts tr = 0%nat) /\
    (alerts tr <= 1)%nat /\
    retry_it (checker w') = 0 /\
    host_ctr (smtp_checker w') = 0.
Proof.
  intros timer a w h He Hh Hsd Herr Hex.
  pose proof (smtp_connect_thread_attempt_eq timer (at_sd a) (at_status a) w h He Hh Hsd) as Hc.
  match type of Hc with _ = Done tt ?x _ => set (w1 := x) in * end.
  destruct (smtp_final_exhausted_counts (at_thread a) (at_format a) (at_args a) w1 Hex)
    as (tr & Hf & Hd & Hu & Ha & _).
  eexists. eexists. split.
  { unfold run_attempt. rewrite Herr. eapply bind_done; [exact Hc | exact Hf]. }
  rewrite !transitions_app, alerts_app, Hd, Hu, Ha.
  simpl. repeat split; try reflexivity.
  - intros Hup. rewrite Hup, andb_false_r. reflexivity.
  - match goal with |- ((if ?b then _ else _) <= _)%nat => destruct b end; lia.
Qed.

Lemma run_attempt_success : forall timer a w h,
  enabled (checker w) = true ->
  list_element (host (smtp_checker w)) (host_ctr (smtp_checker w)) = Some h ->
  at_sd a <> -1 ->
  at_error a = false ->
  exists tr,
    run_attempt timer a w =
      Done tt (mk_world (set_retry_it 0 (checker w))
                 (set_host_ctr (wrap_size (host_ctr (smtp_checker w) + 1))
                    (set_host_ptr (Some h) (smtp_checker w)))
                 (no_checker_emails w)) tr /\
    (forall st, transitions st tr = 0%nat) /\
    alerts tr = 0%nat.
Proof.
  intros timer a w h He Hh Hsd Herr.
  pose proof (smtp_connect_thread_attempt_eq timer (at_sd a) (at_status a) w h He Hh Hsd) as Hc.
  match type of Hc with _ = Done tt ?x _ => set (w1 := x) in * end.
  pose proof (smtp_final_success_eq (at_thread a) (at_format a) (at_args a) w1) as Hf.
  eexists. split.
  { unfold run_attempt. rewrite Herr. eapply bind_done; [exact Hc | exact Hf]. }
  split.
  - intros [|]; reflexivity.
  - reflexivity.
Qed.

Lemma run_attempts_cons : forall timer a l w w1 tr1 w2 tr2,
  run_attempt timer a w = Done tt w1 tr1 ->
  run_attempts timer l w1 = Done tt w2 tr2 ->
  run_attempts timer (a :: l) w = Done tt w2 (tr1 ++ tr2).
Proof.
  intros timer a l w w1 tr1 w2 tr2 H1 H2.
  simpl. eapply bind_done; eassumption.
Qed.

(** A run of failed attempts against one target that stops with the attempt
    exhausting the retries. *)
Lemma failing_cycle_gen : forall timer l w h,
  Forall (fun a => at_error a = true /\ at_sd a <> -1) l ->
  enabled (checker w) = true ->
  list_element (host (smtp_checker w)) (host_ctr (smtp_checker w)) = Some h ->
  0 <= retry_it (checker w) ->
  retry_it (checker w) + 1 < UINT_MODULUS ->
  retry (checker w) < UINT_MODULUS ->
  Z.of_nat (length l) = Z.max 1 (retry (checker w) - retry_it (checker w)) ->
  exists w' tr,
    run_attempts timer l w = Done tt w' tr /\
    transitions DOWN tr =
      (if is_up (checker w) || negb (has_run (checker w)) then 1 else 0)%nat /\
    transitions UP tr = 0%nat /\
    (is_up (checker w) = false -> alerts tr = 0%nat) /\
    (alerts tr <= 1)%nat /\
    retry_it (checker w') = 0 /\
    host_ctr (smtp_checker w') = 0.
Proof.
  intros timer l. induction l as [|a l IH]; intros w h Hall He Hh Hr0 Hr1 Hlim Hlen.
  - simpl in Hlen. lia.
  - inversion Hall as [|? ? [Herr Hsd] Hall']; subst.
    assert (Hw : wrap_uint (retry_it (checker w) + 1) = retry_it (checker w) + 1).
    { unfold wrap_uint. apply Z.mod_small. lia. }
    destruct l as [|b l'].
    + (* the last attempt of the cycle: retries exhausted *)
      destruct (run_attempt_exhausted timer a w h He Hh Hsd Herr)
        as (w' & tr & Hrun & Hd & Hu & Ha & Ha1 & Hri & Hhc).
      { rewrite Hw. simpl in Hlen. lia. }
      exists w', (tr ++ []). split.
      { eapply run_attempts_cons; [exact Hrun | reflexivity]. }
      rewrite app_nil_r. auto 10.
    + (* retries remain *)
      assert (Hre : wrap_uint (retry_it (checker w) + 1) < retry (checker w)).
      { rewrite Hw. simpl length in Hlen. lia. }
      destruct (run_attempt_retry timer a w h He Hh Hsd Herr Hre) as (tr1 & Hrun1 & Ht1 & Ha1).
      match type of Hrun1 with _ = Done tt ?x _ => set (w2 := x) in * end.
      destruct (IH w2 h Hall') as (w' & tr & Hrun & Hd & Hu & Ha & Hale & Hri & Hhc).
      * exact He.
      * exact Hh.
      * simpl. rewrite Hw. lia.
      * simpl. rewrite Hw. rewrite Hw in Hre. lia.
      * exact Hlim.
      * simpl. rewrite Hw. simpl length in Hlen |- *. rewrite Hw in Hre. lia.
      * exists w', (tr1 ++ tr). split.
        { eapply run_attempts_cons; [exact Hrun1 | exact Hrun]. }
        simpl in Hd, Ha.
        rewrite !transitions_app, !alerts_app, !Ht1, Ha1, Hd, Hu.
        repeat split; auto.
Qed.

(** A run of attempts that passes every remaining target. *)
Lemma passing_cycle_gen : forall timer l w remaining,
  cycle_passes (retry (checker w)) (retry_it (checker w)) remaining l = true ->
  Forall (fun a => at_sd a <> -1) l ->
  enabled (checker w) = true ->
  0 <= retry_it (checker w) ->
  retry (checker w) <= UINT_MODULUS ->
  0 <= host_ctr (smtp_checker w) ->
  host_ctr (smtp_checker w) + Z.of_nat remaining =
    Z.of_nat (length (host (smtp_checker w))) ->
  Z.of_nat (length (host (smtp_checker w))) < SIZE_MODULUS ->
  exists w' tr,
    run_attempts timer l w = Done tt w' tr /\
    (forall st, transitions st tr = 0%nat) /\
    alerts tr = 0%nat /\
    enabled (checker w') = true /\
    is_up (checker w') = is_up (checker w) /\
    has_run (checker w') = has_run (checker w) /\
    host (smtp_checker w') = host (smtp_checker w) /\
    host_ctr (smtp_checker w') = Z.of_nat (length (host (smtp_checker w))).
Proof.
  intros timer l. induction l as [|a l IH]; intros w remaining Hp Hsd He Hr0 Hlim Hc0 Hrem Hsz.
  - destruct remaining as [|k]; [|discriminate].
    exists w, []. simpl. repeat split; auto. lia.
  - destruct remaining as [|k]; [discriminate|].
    inversion Hsd as [|? ? Hsda Hsd']; subst.
    destruct (list_element_in_range _ (host (smtp_checker w)) (host_ctr (smtp_checker w)))
      as [h Hh]; [lia|].
    simpl in Hp.
    destruct (at_error a) eqn:Herr.
    + (* a failure, retries remain *)
      apply andb_true_iff in Hp. destruct Hp as [Hlt Hp]. apply Z.ltb_lt in Hlt.
      assert (Hw : wrap_uint (retry_it (checker w) + 1) = retry_it (checker w) + 1).
      { unfold wrap_uint. apply Z.mod_small. lia. }
      destruct (run_attempt_retry timer a w h He Hh Hsda Herr) as (tr1 & Hrun1 & Ht1 & Ha1).
      { rewrite Hw. exact Hlt. }
      match type of Hrun1 with _ = Done tt ?x _ => set (w2 := x) in * end.
      destruct (IH w2 (S k)) as (w' & tr & Hrun & Ht & Ha & He' & Hup & Hhr & Hho & Hhc);
        try (simpl; rewrite ?Hw; auto; lia).
      exists w', (tr1 ++ tr). split.
      { eapply run_attempts_cons; [exact Hrun1 | exact Hrun]. }
      split; [intros st; rewrite transitions_app, Ht1, Ht; reflexivity|].
      split; [rewrite alerts_app, Ha1, Ha; reflexivity|].
      auto.
    + (* a success: on to the next target *)
      destruct (run_attempt_success timer a w h He Hh Hsda Herr) as (tr1 & Hrun1 & Ht1 & Ha1).
      match type of Hrun1 with _ = Done tt ?x _ => set (w2 := x) in * end.
      assert (Hw : wrap_size (host_ctr (smtp_checker w) + 1) = host_ctr (smtp_checker w) + 1).
      { unfold wrap_size. apply Z.mod_small. lia. }
      destruct (IH w2 k) as (w' & tr & Hrun & Ht & Ha & He' & Hup & Hhr & Hho & Hhc);
        try (simpl; rewrite ?Hw; auto; lia).
      exists w', (tr1 ++ tr). split.
      { eapply run_attempts_cons; [exact Hrun1 | exact Hrun]. }
      split; [intros st; rewrite transitions_app, Ht1, Ht; reflexivity|].
      split; [rewrite alerts_app, Ha1, Ha; reflexivity|].
      auto.
Qed.

(** C3.  The final handler on error, when the incremented retry counter is
    not below the retry limit: if the checker was up or has never completed
    a run it calls the DOWN transition, exactly once, and otherwise not at
    all; it sends a failure alert exactly when the real server's alert flag
    is set, the checker was up before the transition, and the alive flag
    changed across the transition or alerts are not suppressed; it resets
    the retry counter and the target index to 0 and reschedules the connect
    orchestrator after the full-cycle delay.  Hence a full failing cycle
    (the first target fails as many attempts as the retry limit allows)
    calls the DOWN transition exactly once from a checker that is up or has
    never run, sends no alert at all from a checker that is already down,
    and leaves the target index at 0. *)
Theorem smtp_final_retries_exhausted :
  (forall thread format args w,
     ~ wrap_uint (retry_it (checker w) + 1) < retry (checker w) ->
     let c := checker w in
     let down := is_up c || negb (has_run c) in
     let c1 := if down
               then update_svr_checker_state DOWN
                      (set_retry_it (wrap_uint (retry_it c + 1)) c)
               else set_retry_it (wrap_uint (retry_it c + 1)) c in
     let alert := smtp_alert (rs c1) && is_up c &&
                  (negb (Bool.eqb (alive (rs c)) (alive (rs c1))) ||
                   negb (no_checker_emails w)) in
     exists tr,
       smtp_final thread true format args w =
         Done tt (mk_world (set_retry_it 0 c1) (set_host_ctr 0 (smtp_checker w))
                    (no_checker_emails w)) tr /\
       transitions DOWN tr = (if down then 1 else 0)%nat /\
       transitions UP tr = 0%nat /\
       alerts tr = (if alert then 1 else 0)%nat /\
       last tr (EvClose 0) = EvThreadAddTimer fn_smtp_connect_thread (delay_loop c1)) /\
  (forall timer l w h,
     Forall (fun a => at_error a = true /\ at_sd a <> -1) l ->
     enabled (checker w) = true ->
     list_element (host (smtp_checker w)) (host_ctr (smtp_checker w)) = Some h ->
     retry_it (checker w) = 0 ->
     0 <= retry (checker w) < UINT_MODULUS ->
     Z.of_nat (length l) = Z.max 1 (retry (checker w)) ->
     exists w' tr,
       run_attempts timer l w = Done tt w' tr /\
       transitions DOWN tr =
         (if is_up (checker w) || negb (has_run (checker w)) then 1 else 0)%nat /\
       transitions UP tr = 0%nat /\
       (is_up (checker w) = false -> alerts tr = 0%nat) /\
       (alerts tr <= 1)%nat /\
       retry_it (checker w') = 0 /\
       host_ctr (smtp_checker w') = 0).
Proof.
  split.
  - intros thread format args w H. apply smtp_final_exhausted_counts. exact H.
  - intros timer l w h Hall He Hh Hr0 Hlim Hlen.
    apply (failing_cycle_gen timer l w h Hall He Hh).
    + lia.
    + rewrite Hr0. reflexivity.
    + lia.
    + rewrite Hr0, Z.sub_0_r. exact Hlen.
Qed.

Lemma smtp_connect_thread_end_counts : forall thread sd status refused w,
  enabled (checker w) = true ->
  list_element (host (smtp_checker w)) (host_ctr (smtp_checker w)) = None ->
  let c := checker w in
  let up := negb (is_up c) || negb (has_run c) in
  let c1 := if up then update_svr_checker_state UP c else c in
  let alert := smtp_alert (rs c1) && negb (is_up c) &&
               (negb (Bool.eqb (alive (rs c)) (alive (rs c1))) || negb (no_checker_emails w)) in
  exists tr,
    smtp_connect_thread thread sd status refused w =
      Done tt
        (mk_world (set_retry_it 0 c1)
           (set_host_ptr (list_element (host (smtp_checker w)) 0)
              (set_host_ctr 0 (smtp_checker w)))
           (no_checker_emails w)) tr /\
    transitions UP tr = (if up then 1 else 0)%nat /\
    transitions DOWN tr = 0%nat /\
    alerts tr = (if alert then 1 else 0)%nat /\
    last tr (EvClose 0) = EvThreadAddTimer fn_smtp_connect_thread (delay_loop c1).
Proof.
  intros thread sd status refused w He Hn c up c1 alert.
  eexists. split.
  { apply smtp_connect_thread_end_eq; assumption. }
  subst up alert c1 c.
  destruct (is_up (checker w)); destruct (has_run (checker w)); simpl;
    rewrite ?andb_false_r, ?andb_true_r; simpl;
    try (destruct (smtp_alert _ && _)); repeat split; reflexivity.
Qed.

(** C5 (as amended).  The connect orchestrator, enabled and finding no
    target at the current index: if the checker was down or has never
    completed a check it calls the UP transition, exactly once, and
    otherwise not at all; it
    sends a recovery alert exactly when the real server's alert flag is set,
    the checker was not up, and the alive flag changed across the transition
    or alerts are not suppressed; it resets the target index and the retry
    counter to 0 and reschedules itself after the full-cycle delay.  A cycle
    in which targets fail and are retried without exhausting the retry
    limit, and every target then succeeds, calls no transition and sends no
    alert while the targets are probed; the orchestrator's next run, past
    the end of the list, then calls the UP transition exactly once for a
    checker that was down or had never run.  An attempt that fails never
    advances the target index and calls no UP transition: the index stays
    where it is while retries remain, so that the same target is probed
    again, and it goes back to 0 when the retries are exhausted. *)
Theorem smtp_connect_thread_end_of_list :
  (forall thread sd status refused w,
     enabled (checker w) = true ->
     list_element (host (smtp_checker w)) (host_ctr (smtp_checker w)) = None ->
     let c := checker w in
     let up := negb (is_up c) || negb (has_run c) in
     let c1 := if up then update_svr_checker_state UP c else c in
     let alert := smtp_alert (rs c1) && negb (is_up c) &&
                  (negb (Bool.eqb (alive (rs c)) (alive (rs c1))) ||
                   negb (no_checker_emails w)) in
     exists tr,
       smtp_connect_thread thread sd status refused w =
         Done tt
           (mk_world (set_retry_it 0 c1)
              (set_host_ptr (list_element (host (smtp_checker w)) 0)
                 (set_host_ctr 0 (smtp_checker w)))
              (no_checker_emails w)) tr /\
       transitions UP tr = (if up then 1 else 0)%nat /\
       transitions DOWN tr = 0%nat /\
       alerts tr = (if alert then 1 else 0)%nat /\
       last tr (EvClose 0) = EvThreadAddTimer fn_smtp_connect_thread (delay_loop c1)) /\
  (forall timer l thread sd status refused w,
     cycle_passes (retry (checker w)) 0 (length (host (smtp_checker w))) l = true ->
     Forall (fun a => at_sd a <> -1) l ->
     enabled (checker w) = true ->
     retry_it (checker w) = 0 ->
     host_ctr (smtp_checker w) = 0 ->
     retry (checker w) <= UINT_MODULUS ->
     Z.of_nat (length (host (smtp_checker w))) < SIZE_MODULUS ->
     exists w1 tr1 w2 tr2,
       run_attempts timer l w = Done tt w1 tr1 /\
       (forall st, transitions st tr1 = 0%nat) /\
       alerts tr1 = 0%nat /\
       smtp_connect_thread thread sd status refused w1 = Done tt w2 tr2 /\
       transitions UP tr2 =
         (if negb (is_up (checker w)) || negb (has_run (checker w)) then 1 else 0)%nat /\
       transitions DOWN tr2 = 0%nat /\
       retry_it (checker w2) = 0 /\
       host_ctr (smtp_checker w2) = 0) /\
  (forall timer a w h,
     enabled (checker w) = true ->
     list_element (host (smtp_checker w)) (host_ctr (smtp_checker w)) = Some h ->
     at_sd a <> -1 ->
     at_error a = true ->
     exists w' tr,
       run_attempt timer a w = Done tt w' tr /\
       transitions UP tr = 0%nat /\
       host (smtp_checker w') = host (smtp_checker w) /\
       host_ctr (smtp_checker w') =
         (if wrap_uint (retry_it (checker w) + 1) <? retry (checker w)
          then host_ctr (smtp_checker w) else 0)).
Proof.
  split; [|split].
  - intros thread sd status refused w He Hn.
    apply smtp_connect_thread_end_counts; assumption.
  - intros timer l thread sd status refused w Hp Hsd He Hr0 Hc0 Hlim Hsz.
    destruct (passing_cycle_gen timer l w (length (host (smtp_checker w))))
      as (w1 & tr1 & Hrun & Ht & Ha & He1 & Hup & Hhr & Hho & Hhc);
      try assumption; try lia.
    { rewrite Hr0. exact Hp. }
    assert (Hn : list_element (host (smtp_checker w1)) (host_ctr (smtp_checker w1)) = None).
    { apply list_element_past_end. rewrite Hho, Hhc. lia. }
    destruct (smtp_connect_thread_end_counts thread sd status refused w1 He1 Hn)
      as (tr2 & Hrun2 & Hu2 & Hd2 & _ & _).
    eexists. exists tr1. eexists. exists tr2.
    split; [exact Hrun|]. split; [exact Ht|]. split; [exact Ha|].
    split; [exact Hrun2|].
    rewrite Hup, Hhr in Hu2.
    repeat split; auto.
  - intros timer a w h He Hh Hsd Herr.
    destruct (Z.ltb_spec (wrap_uint (retry_it (checker w) + 1)) (retry (checker w)))
      as [Hre|Hex].
    + destruct (run_attempt_retry timer a w h He Hh Hsd Herr Hre) as (tr & Hrun & Ht & _).
      eexists. exists tr. split; [exact Hrun|]. split; [apply Ht|].
      split; reflexivity.
    + pose proof (smtp_connect_thread_attempt_eq timer (at_sd a) (at_status a) w h
                    He Hh Hsd) as Hc.
      match type of Hc with _ = Done tt ?x _ => set (w1 := x) in * end.
      assert (Hex1 : ~ wrap_uint (retry_it (checker w1) + 1) < retry (checker w1)).
      { simpl. lia. }
      destruct (smtp_final_exhausted_counts (at_thread a) (at_format a) (at_args a) w1 Hex1)
        as (tr & Hf & _ & Hu & _).
      eexists. eexists. split.
      { unfold run_attempt. rewrite Herr. eapply bind_done; [exact Hc | exact Hf]. }
      rewrite transitions_app, Hu. repeat split; reflexivity.
Qed.

(** ** Rules for [wp] *)

Lemma wp_ret : forall (A : Type) (a : A) post ev w,
  post a w -> wp (ret a) post ev w.
Proof. intros. unfold wp, ret. auto. Qed.

Lemma wp_bind : forall (A B : Type) (m : M A) (k : A -> M B) post ev w,
  wp m (fun a w' => wp (k a) post ev w') ev w ->
  wp (bind m k) post ev w.
Proof.
  intros A B m k post ev w. unfold wp, bind.
  destruct (m w) as [a w1 tr1|tr1]; [|auto].
  intros [H1 H2]. destruct (k a w1) as [b w2 tr2|tr2].
  - destruct H1 as [H1 H3]. split; [exact H1|]. apply Forall_app; auto.
  - apply Forall_app; auto.
Qed.

Lemma wp_conseq : forall (A : Type) (m : M A) (post1 post2 : A -> world -> Prop) ev w,
  wp m post1 ev w ->
  (forall a w', post1 a w' -> post2 a w') ->
  wp m post2 ev w.
Proof.
  intros A m post1 post2 ev w H Himp. unfold wp in *.
  destruct (m w); [|exact H]. destruct H. auto.
Qed.

Lemma wp_emit : forall e (post : unit -> world -> Prop) (ev : event -> Prop) w,
  ev e -> post tt w -> wp (emit e) post ev w.
Proof. intros. unfold wp, emit. auto. Qed.

Lemma wp_get_checker : forall (post : checker_t -> world -> Prop) ev w,
  post (checker w) w -> wp get_checker post ev w.
Proof. intros. unfold wp, get_checker. auto. Qed.

Lemma wp_get_smtp_checker : forall (post : smtp_checker_t -> world -> Prop) ev w,
  post (smtp_checker w) w -> wp get_smtp_checker post ev w.
Proof. intros. unfold wp, get_smtp_checker. auto. Qed.

Lemma wp_get_no_checker_emails : forall (post : bool -> world -> Prop) ev w,
  post (no_checker_emails w) w -> wp get_no_checker_emails post ev w.
Proof. intros. unfold wp, get_no_checker_emails. auto. Qed.

Lemma wp_modify_checker : forall f (post : unit -> world -> Prop) ev w,
  post tt (mk_world (f (checker w)) (smtp_checker w) (no_checker_emails w)) ->
  wp (modify_checker f) post ev w.
Proof. intros. unfold wp, modify_checker. auto. Qed.

Lemma wp_modify_smtp_checker : forall f (post : unit -> world -> Prop) ev w,
  post tt (mk_world (checker w) (f (smtp_checker w)) (no_checker_emails w)) ->
  wp (modify_smtp_checker f) post ev w.
Proof. intros. unfold wp, modify_smtp_checker. auto. Qed.

Lemma wp_deref : forall (A : Type) (p : option A) (post : A -> world -> Prop) ev w,
  (forall a, p = Some a -> post a w) -> wp (deref p) post ev w.
Proof. intros A [a|] post ev w H; unfold wp, deref; auto. Qed.

Lemma wp_segv : forall (A : Type) (post : A -> world -> Prop) ev w,
  wp (fun _ => Segv []) post ev w.
Proof. intros. unfold wp. auto. Qed.

Lemma wp_trace : forall (A : Type) (m : M A) post ev w,
  wp m post ev w -> Forall ev (trace_of (m w)).
Proof. intros A m post ev w H. unfold wp in H. destruct (m w); simpl; tauto. Qed.

Lemma wp_done : forall (A : Type) (m : M A) post ev w a w' tr,
  wp m post ev w -> m w = Done a w' tr -> post a w'.
Proof. intros A m post ev w a w' tr H Hm. unfold wp in H. rewrite Hm in H. tauto. Qed.

Ltac wp_prim :=
  unfold when, close, thread_add_timer, thread_add_read, thread_add_write,
    thread_del_read, thread_del_write, log_message, send_smtp_alert,
    call_update_svr_checker_state, smtp_clear_buff, sys_read, sys_write,
    snprintf_buff.

Ltac wp_step :=
  cbv beta;
  match goal with
  | |- wp (bind _ _) _ _ _ => apply wp_bind
  | |- wp (ret _) _ _ _ => apply wp_ret
  | |- wp (emit _) _ _ _ => apply wp_emit; [try exact I|]
  | |- wp get_checker _ _ _ => apply wp_get_checker
  | |- wp get_smtp_checker _ _ _ => apply wp_get_smtp_checker
  | |- wp get_no_checker_emails _ _ _ => apply wp_get_no_checker_emails
  | |- wp (modify_checker _) _ _ _ => apply wp_modify_checker
  | |- wp (modify_smtp_checker _) _ _ _ => apply wp_modify_smtp_checker
  | |- wp (deref _) _ _ _ => apply wp_deref; intros ? ?
  | |- wp (fun _ => Segv []) _ _ _ => apply wp_segv
  | |- wp (if ?b then _ else _) _ _ _ => destruct b eqn:?
  | |- wp (match ?x with _ => _ end) _ _ _ => destruct x eqn:?
  end.

Ltac wp_run := wp_prim; repeat wp_step.

(** ** The timeouts of the I/O waits *)

Ltac wait_event :=
  simpl in *;
  match goal with
  | H : _ = Some ?h |- exists _, _ => exists h; split; [congruence | reflexivity]
  end.

Ltac wp_call lem :=
  eapply wp_conseq; [apply lem; simpl in *; try congruence
                    | intros ? ? ?; simpl in *; try congruence].

Lemma smtp_final_waits : forall p thread error format args,
  hoare (fun w => host_ptr (smtp_checker w) = p)
    (smtp_final thread error format args)
    (fun _ w => host_ptr (smtp_checker w) = p)
    (wait_ok p).
Proof.
  intros p thread error format args w Hp.
  unfold smtp_final. wp_run; simpl; auto.
Qed.

Lemma smtp_get_line_waits : forall p thread callback,
  hoare (fun w => host_ptr (smtp_checker w) = p)
    (smtp_get_line thread callback)
    (fun _ w => host_ptr (smtp_checker w) = p)
    (wait_ok p).
Proof.
  intros p thread callback w Hp.
  unfold smtp_get_line. wp_run; simpl; auto. wait_event.
Qed.

Lemma smtp_put_line_waits : forall p thread callback,
  hoare (fun w => host_ptr (smtp_checker w) = p)
    (smtp_put_line thread callback)
    (fun _ w => host_ptr (smtp_checker w) = p)
    (wait_ok p).
Proof.
  intros p thread callback w Hp.
  unfold smtp_put_line. wp_run; simpl; auto. wait_event.
Qed.

Lemma smtp_engine_thread_waits : forall p thread,
  hoare (fun w => host_ptr (smtp_checker w) = p)
    (smtp_engine_thread thread)
    (fun _ w => host_ptr (smtp_checker w) = p)
    (wait_ok p).
Proof.
  intros p thread w Hp.
  unfold smtp_engine_thread. wp_run;
    first [ wp_call smtp_final_waits | wp_call smtp_get_line_waits
          | wp_call smtp_put_line_waits ].
Qed.

Lemma call_buff_cb_waits : forall p thread,
  hoare (fun w => host_ptr (smtp_checker w) = p)
    (call_buff_cb thread)
    (fun _ w => host_ptr (smtp_checker w) = p)
    (wait_ok p).
Proof.
  intros p thread w Hp.
  unfold call_buff_cb. wp_run; wp_call smtp_engine_thread_waits.
Qed.

Lemma smtp_get_line_cb_waits : forall p thread rd,
  hoare (fun w => host_ptr (smtp_checker w) = p)
    (smtp_get_line_cb thread rd)
    (fun _ w => host_ptr (smtp_checker w) = p)
    (wait_ok p).
Proof.
  intros p thread rd w Hp.
  unfold smtp_get_line_cb. wp_run;
    first [ wp_call smtp_final_waits | wp_call call_buff_cb_waits
          | wait_event | simpl in *; congruence ].
Qed.

Lemma smtp_put_line_cb_waits : forall p thread wr,
  hoare (fun w => host_ptr (smtp_checker w) = p)
    (smtp_put_line_cb thread wr)
    (fun _ w => host_ptr (smtp_checker w) = p)
    (wait_ok p).
Proof.
  intros p thread wr w Hp.
  unfold smtp_put_line_cb. wp_run;
    first [ wp_call smtp_final_waits | wp_call call_buff_cb_waits
          | wait_event | simpl in *; congruence ].
Qed.

Lemma smtp_check_thread_waits : forall p thread status,
  hoare (fun w => host_ptr (smtp_checker w) = p)
    (smtp_check_thread thread status)
    (fun _ w => host_ptr (smtp_checker w) = p)
    (wait_ok p).
Proof.
  intros p thread status w Hp.
  unfold smtp_check_thread. wp_run;
    first [ wp_call smtp_final_waits | wp_call smtp_engine_thread_waits
          | wait_event | simpl in *; congruence ].
Qed.

Lemma wait_ok_timeouts : forall p tr,
  Forall (wait_ok p) tr ->
  Forall (fun t => exists h, p = Some h /\ t = connection_to h) (io_wait_timeouts tr).
Proof.
  intros p tr H. induction H as [|e tr He _ IH]; simpl; [constructor|].
  destruct e; simpl in He; auto.
Qed.

Lemma waits_of : forall (m : M unit) w,
  hoare (fun w' => host_ptr (smtp_checker w') = host_ptr (smtp_checker w)) m
    (fun _ w' => host_ptr (smtp_checker w') = host_ptr (smtp_checker w))
    (wait_ok (host_ptr (smtp_checker w))) ->
  Forall (fun t => exists h, host_ptr (smtp_checker w) = Some h /\ t = connection_to h)
    (io_wait_timeouts (trace_of (m w))).
Proof.
  intros m w H. apply wait_ok_timeouts. eapply wp_trace. apply H. reflexivity.
Qed.

(** C9.  Every I/O wait registered by the socket I/O driver ([smtp_get_line],
    [smtp_put_line] and the two wake-up callbacks, with everything the
    engine does inside them) and by the connection result handler has, as
    its timeout, [connection_to] of the target [host_ptr] points to; a
    target has no other timeout.  In particular the first read wait and the
    first write wait, and the waits registered again after a [read] or a
    [write] that would block, are registered with that timeout. *)
Theorem io_waits_use_connection_to : forall thread callback rd wr status w,
  let current t :=
    exists h, host_ptr (smtp_checker w) = Some h /\ t = connection_to h in
  Forall current (io_wait_timeouts (trace_of (smtp_get_line thread callback w))) /\
  Forall current (io_wait_timeouts (trace_of (smtp_get_line_cb thread rd w))) /\
  Forall current (io_wait_timeouts (trace_of (smtp_put_line thread callback w))) /\
  Forall current (io_wait_timeouts (trace_of (smtp_put_line_cb thread wr w))) /\
  Forall current (io_wait_timeouts (trace_of (smtp_check_thread thread status w))) /\
  (forall h, host_ptr (smtp_checker w) = Some h ->
     io_wait_timeouts (trace_of (smtp_get_line thread callback w)) = [connection_to h] /\
     io_wait_timeouts (trace_of (smtp_put_line thread callback w)) = [connection_to h] /\
     (type thread <> THREAD_READ_TIMEOUT ->
      buff_ctr (smtp_checker w) <= SMTP_BUFF_MAX ->
      io_wait_timeouts (trace_of (smtp_get_line_cb thread (ReadError EAGAIN) w)) =
        [connection_to h]) /\
     (type thread <> THREAD_WRITE_TIMEOUT ->
      io_wait_timeouts (trace_of (smtp_put_line_cb thread (WriteError EAGAIN) w)) =
        [connection_to h])).
Proof.
  intros thread callback rd wr status w current.
  split; [apply waits_of, smtp_get_line_waits|].
  split; [apply waits_of, smtp_get_line_cb_waits|].
  split; [apply waits_of, smtp_put_line_waits|].
  split; [apply waits_of, smtp_put_line_cb_waits|].
  split; [apply waits_of, smtp_check_thread_waits|].
  intros h Hh. repeat split.
  - unfold smtp_get_line, smtp_clear_buff. unfold_m. simpl. rewrite Hh. reflexivity.
  - unfold smtp_put_line. unfold_m. simpl. rewrite Hh. reflexivity.
  - intros Hty Hctr.
    assert (Hguard : (buff_ctr (smtp_checker w) >? SMTP_BUFF_MAX) = false).
    { rewrite Z.gtb_ltb. apply Z.ltb_ge. exact Hctr. }
    unfold smtp_get_line_cb. rewrite bind_get_smtp_checker.
    destruct (type thread) eqn:Ht; try congruence.
    all: rewrite Hguard; unfold sys_read; unfold_m; simpl; rewrite Hh; reflexivity.
  - intros Hty.
    unfold smtp_put_line_cb. rewrite bind_get_smtp_checker.
    destruct (type thread) eqn:Ht; try congruence.
    all: unfold sys_write; unfold_m; simpl; rewrite Hh; reflexivity.
Qed.

(** ** Invariants of the callbacks *)

Section Invariants.

Hypothesis Hmax : 0 < SMTP_BUFF_MAX < SIZE_MODULUS.

Lemma wrap_uint_range : forall z, 0 <= wrap_uint z < UINT_MODULUS.
Proof. intros. unfold wrap_uint. apply Z.mod_pos_bound. reflexivity. Qed.

Lemma read_count_fits : forall ctr (data : list ascii),
  0 <= ctr <= SMTP_BUFF_MAX ->
  0 <= Z.of_nat (length (firstn (Z.to_nat (wrap_size (SMTP_BUFF_MAX - ctr))) data))
    <= SMTP_BUFF_MAX - ctr.
Proof.
  intros ctr data Hctr.
  unfold wrap_size. rewrite Z.mod_small by lia.
  rewrite length_firstn. lia.
Qed.

Ltac inv_easy :=
  match goal with
  | Hb : buff_inv _, Hr : retry_inv _ |- checker_inv _ =>
      split;
      [ unfold buff_inv in *; simpl in *; auto
      | unfold retry_inv in *; simpl in *; auto ]
  end.

Ltac wp_call_inv lem :=
  eapply wp_conseq; [apply lem | intros ? ? ?; assumption].

Lemma smtp_final_inv : forall thread error format args,
  hoare checker_inv (smtp_final thread error format args)
    (fun _ w => checker_inv w) (fun _ => True).
Proof.
  intros thread error format args w [Hb Hr].
  unfold smtp_final. wp_run; simpl in *; inv_easy.
  all: right; split; [apply wrap_uint_range | apply Z.ltb_lt; assumption].
Qed.

Lemma clear_buff_inv : forall w,
  checker_inv w ->
  checker_inv
    (mk_world (checker w)
       (set_buff_ctr 0 (set_buff (repeat NUL (Z.to_nat SMTP_BUFF_MAX)) (smtp_checker w)))
       (no_checker_emails w)).
Proof.
  intros w [Hb Hr]. split; [|exact Hr].
  unfold buff_inv. simpl. rewrite repeat_length. lia.
Qed.

Lemma put_line_inv : forall w,
  checker_inv w ->
  checker_inv
    (mk_world (checker w)
       (set_buff_ctr (strlen (store (buff (smtp_checker w)) (SMTP_BUFF_MAX - 1) NUL))
          (set_buff (store (buff (smtp_checker w)) (SMTP_BUFF_MAX - 1) NUL) (smtp_checker w)))
       (no_checker_emails w)).
Proof.
  intros w [[Hl Hc] Hr]. split; [|exact Hr].
  unfold buff_inv. simpl. rewrite store_length. split; [exact Hl|].
  pose proof (strlen_store_nul (buff (smtp_checker w)) SMTP_BUFF_MAX Hl). lia.
Qed.

Lemma snprintf_inv : forall w line,
  checker_inv w ->
  checker_inv
    (mk_world (checker w)
       (set_buff (blit_nat (buff (smtp_checker w)) 0 line) (smtp_checker w))
       (no_checker_emails w)).
Proof.
  intros w line [[Hl Hc] Hr]. split; [|exact Hr].
  unfold buff_inv. simpl. rewrite blit_nat_length. auto.
Qed.

Lemma set_state_inv : forall w st,
  checker_inv w ->
  checker_inv (mk_world (checker w) (set_state st (smtp_checker w)) (no_checker_emails w)).
Proof. intros w st [Hb Hr]. split; assumption. Qed.

Lemma advance_cursor_inv : forall w r,
  checker_inv w ->
  0 < r ->
  buff_ctr (smtp_checker w) + r <= SMTP_BUFF_MAX ->
  checker_inv
    (mk_world (checker w)
       (set_buff_ctr (wrap_size (buff_ctr (smtp_checker w) + r)) (smtp_checker w))
       (no_checker_emails w)).
Proof.
  intros w r [[Hl Hc] Hr] Hpos Hfit. split; [|exact Hr].
  unfold buff_inv. simpl. split; [exact Hl|].
  unfold wrap_size. rewrite Z.mod_small; lia.
Qed.

Lemma terminate_buff_inv : forall w,
  checker_inv w ->
  checker_inv
    (mk_world (checker w)
       (set_buff (store (buff (smtp_checker w)) (SMTP_BUFF_MAX - 1) NUL) (smtp_checker w))
       (no_checker_emails w)).
Proof.
  intros w [[Hl Hc] Hr]. split; [|exact Hr].
  unfold buff_inv. simpl. rewrite store_length. auto.
Qed.

Lemma smtp_get_line_inv : forall thread callback,
  hoare checker_inv (smtp_get_line thread callback)
    (fun _ w => checker_inv w) (fun _ => True).
Proof.
  intros thread callback w Hinv.
  unfold smtp_get_line. wp_run; simpl in *.
  destruct (clear_buff_inv w Hinv) as [Hb Hr]. inv_easy.
Qed.

Lemma smtp_put_line_inv : forall thread callback,
  hoare checker_inv (smtp_put_line thread callback)
    (fun _ w => checker_inv w) (fun _ => True).
Proof.
  intros thread callback w Hinv.
  unfold smtp_put_line. wp_run; simpl in *.
  destruct (put_line_inv w Hinv) as [Hb Hr]. inv_easy.
Qed.

(** After [read], the bytes stored fit between the fill cursor and the end
    of the buffer. *)
Lemma sys_read_inv : forall fd rd,
  hoare checker_inv (sys_read fd rd)
    (fun r w => checker_inv w /\ -1 <= r /\ buff_ctr (smtp_checker w) + r <= SMTP_BUFF_MAX)
    (fun _ => True).
Proof.
  intros fd rd w [[Hl Hc] Hr].
  unfold sys_read. wp_run.
  - pose proof (read_count_fits (buff_ctr (smtp_checker w)) data Hc) as Hcount.
    split; [split; [|exact Hr]|].
    + unfold buff_inv. simpl. rewrite blit_nat_length. auto.
    + simpl. lia.
  - split; [split; [split|]; assumption|]. lia.
Qed.

Lemma smtp_engine_thread_inv : forall thread,
  hoare checker_inv (smtp_engine_thread thread)
    (fun _ w => checker_inv w) (fun _ => True).
Proof.
  intros thread w Hinv.
  unfold smtp_engine_thread. wp_run.
  all: first [ wp_call_inv smtp_final_inv | wp_call_inv smtp_get_line_inv
             | wp_call_inv smtp_put_line_inv ].
  all: first [ assumption | apply set_state_inv; assumption
             | apply (snprintf_inv (mk_world _ _ _)); apply set_state_inv; assumption ].
Qed.

Lemma call_buff_cb_inv : forall thread,
  hoare checker_inv (call_buff_cb thread)
    (fun _ w => checker_inv w) (fun _ => True).
Proof.
  intros thread w Hinv.
  unfold call_buff_cb. wp_run. wp_call_inv smtp_engine_thread_inv. assumption.
Qed.

Lemma overflow_guard_inv : forall (p : option conn_opts_t) (b : bool) msg,
  hoare checker_inv
    (when b (h <- deref p ;; log_message msg [h] ;; smtp_clear_buff))
    (fun _ w => checker_inv w) (fun _ => True).
Proof.
  intros p b msg w Hinv. wp_run; [|assumption].
  apply (clear_buff_inv w Hinv).
Qed.

Lemma smtp_get_line_cb_inv : forall thread rd,
  hoare checker_inv (smtp_get_line_cb thread rd)
    (fun _ w => checker_inv w) (fun _ => True).
Proof.
  intros thread rd w Hinv.
  unfold smtp_get_line_cb.
  apply wp_bind, wp_get_smtp_checker. cbv beta.
  destruct (type thread).
  4: solve [wp_run; wp_call_inv smtp_final_inv; assumption].
  all: apply wp_bind; eapply wp_conseq; [apply overflow_guard_inv; exact Hinv|].
  all: intros ? w1 Hinv1; cbv beta.
  all: apply wp_bind; eapply wp_conseq; [apply sys_read_inv; exact Hinv1|].
  all: intros r w2 (Hinv2 & Hr1 & Hr2); cbv beta.
  all: wp_run.
  all: first [ wp_call_inv smtp_final_inv | wp_call_inv call_buff_cb_inv | idtac ].
  all: try assumption.
  all: try (apply terminate_buff_inv).
  all: try assumption.
  all: try (apply advance_cursor_inv; [assumption | apply Z.gtb_lt; assumption | assumption]).
Qed.

Lemma smtp_put_line_cb_inv : forall thread wr,
  hoare checker_inv (smtp_put_line_cb thread wr)
    (fun _ w => checker_inv w) (fun _ => True).
Proof.
  intros thread wr w Hinv.
  unfold smtp_put_line_cb. wp_run.
  all: first [ wp_call_inv smtp_final_inv | wp_call_inv call_buff_cb_inv | idtac ].
  all: assumption.
Qed.

Lemma smtp_check_thread_inv : forall thread status,
  hoare checker_inv (smtp_check_thread thread status)
    (fun _ w => checker_inv w) (fun _ => True).
Proof.
  intros thread status w Hinv.
  unfold smtp_check_thread. wp_run.
  all: first [ wp_call_inv smtp_final_inv | wp_call_inv smtp_engine_thread_inv ].
  all: first [ assumption | apply set_state_inv; assumption ].
Qed.

Lemma smtp_connect_thread_inv : forall thread sd status refused,
  hoare checker_inv (smtp_connect_thread thread sd status refused)
    (fun _ w => checker_inv w) (fun _ => True).
Proof.
  intros thread sd status refused w [Hb Hr].
  unfold smtp_connect_thread. wp_run; simpl in *; inv_easy.
Qed.

Lemma run_callback_inv : forall thread cb,
  hoare checker_inv (run_callback thread cb)
    (fun _ w => checker_inv w) (fun _ => True).
Proof.
  intros thread [sd status refused|status|rd|wr]; simpl.
  - apply smtp_connect_thread_inv.
  - apply smtp_check_thread_inv.
  - apply smtp_get_line_cb_inv.
  - apply smtp_put_line_cb_inv.
Qed.

Lemma initial_inv : forall w, initial w -> checker_inv w.
Proof.
  intros w (Hr & _ & _ & Hb & Hc & _). split.
  - unfold buff_inv. rewrite Hb, Hc, repeat_length. lia.
  - left. exact Hr.
Qed.

Lemma reachable_inv : forall w, reachable w -> checker_inv w.
Proof.
  intros w H. induction H as [w Hi|w thread cb w' tr _ IH Hrun].
  - apply initial_inv. exact Hi.
  - exact (wp_done _ _ _ _ _ _ _ _ (run_callback_inv thread cb w IH) Hrun).
Qed.

(** A read and [smtp_put_line], on the buffer alone. *)
Lemma buff_inv_received : forall w data,
  buff_inv w ->
  buff_inv (mk_world (checker w) (received (smtp_checker w) data) (no_checker_emails w)).
Proof.
  intros w data [Hl Hc].
  pose proof (read_count_fits (buff_ctr (smtp_checker w)) data Hc) as Hcount.
  unfold received, buff_inv.
  destruct (_ >? 0) eqn:Hpos; simpl; rewrite blit_nat_length; (split; [exact Hl|]).
  - unfold wrap_size in *. rewrite (Z.mod_small (_ + _)); lia.
  - exact Hc.
Qed.

Lemma buff_inv_put_line : forall thread callback w,
  buff_inv w ->
  wp (smtp_put_line thread callback)
     (fun _ w' => buff_inv w' /\ buff_ctr (smtp_checker w') <= SMTP_BUFF_MAX - 1)
     (fun _ => True) w.
Proof.
  intros thread callback w [Hl Hc].
  pose proof (strlen_store_nul (buff (smtp_checker w)) SMTP_BUFF_MAX Hl) as Hlen.
  unfold smtp_put_line. wp_run.
  unfold buff_inv. simpl. rewrite store_length. repeat split; try assumption; lia.
Qed.

End Invariants.

(** The read step of [smtp_get_line_cb], [read] and the advance of the fill
    cursor, leaves the [smtp_checker_t] that [received] describes. *)
Lemma read_step_received : forall fd data w,
  (r <- sys_read fd (ReadBytes data) ;;
   when (r >? 0)
     (modify_smtp_checker (fun s => set_buff_ctr (wrap_size (buff_ctr s + r)) s))) w =
  Done tt
    (mk_world (checker w) (received (smtp_checker w) data) (no_checker_emails w))
    [EvRead fd (wrap_size (SMTP_BUFF_MAX - buff_ctr (smtp_checker w)))].
Proof.
  intros fd data w. unfold sys_read, received. unfold_m. simpl.
  destruct (_ >? 0); reflexivity.
Qed.

(** C10.  Every buffer operation leaves the fill cursor within the buffer:
    [smtp_clear_buff] zeroes the buffer and the cursor; a read stores at
    most SMTP_BUFF_MAX - buff_ctr bytes and advances the cursor by their
    number; [smtp_put_line] terminates the buffer at index
    SMTP_BUFF_MAX - 1 and sets the cursor to the length of the string in
    it.  So in every memory the checker can reach, buff_ctr is at most
    SMTP_BUFF_MAX and the test [buff_ctr > SMTP_BUFF_MAX] at the top of the
    read callback is false. *)
Theorem buff_ctr_within_buffer :
  env_ok E ->
  (forall w,
     smtp_clear_buff w =
       Done tt
         (mk_world (checker w)
            (set_buff_ctr 0
               (set_buff (repeat NUL (Z.to_nat SMTP_BUFF_MAX)) (smtp_checker w)))
            (no_checker_emails w)) [] /\
     buff_inv
       (mk_world (checker w)
          (set_buff_ctr 0
             (set_buff (repeat NUL (Z.to_nat SMTP_BUFF_MAX)) (smtp_checker w)))
          (no_checker_emails w))) /\
  (forall fd data w,
     (r <- sys_read fd (ReadBytes data) ;;
      when (r >? 0)
        (modify_smtp_checker (fun s => set_buff_ctr (wrap_size (buff_ctr s + r)) s))) w =
       Done tt
         (mk_world (checker w) (received (smtp_checker w) data) (no_checker_emails w))
         [EvRead fd (wrap_size (SMTP_BUFF_MAX - buff_ctr (smtp_checker w)))] /\
     (buff_inv w ->
      buff_inv
        (mk_world (checker w) (received (smtp_checker w) data) (no_checker_emails w)))) /\
  (forall thread callback w w' tr,
     buff_inv w ->
     smtp_put_line thread callback w = Done tt w' tr ->
     buff_inv w' /\ buff_ctr (smtp_checker w') <= SMTP_BUFF_MAX - 1) /\
  (forall w,
     reachable w ->
     buff_ctr (smtp_checker w) <= SMTP_BUFF_MAX /\
     (buff_ctr (smtp_checker w) >? SMTP_BUFF_MAX) = false).
Proof.
  intros [Hmax _].
  split; [|split; [|split]].
  - intros w. split; [reflexivity|].
    unfold buff_inv. simpl. rewrite repeat_length. lia.
  - intros fd data w. split; [apply read_step_received|].
    intros Hb. apply buff_inv_received; assumption.
  - intros thread callback w w' tr Hb Hrun.
    exact (wp_done _ _ _ _ _ _ _ _ (buff_inv_put_line Hmax thread callback w Hb) Hrun).
  - intros w Hreach.
    destruct (reachable_inv Hmax w Hreach) as [[_ Hc] _].
    split; [lia|]. rewrite Z.gtb_ltb. apply Z.ltb_ge. lia.
Qed.

(** C4.  The final handler on error, when the incremented retry counter is
    still below the retry limit: it closes the socket, logs the error if
    the checker is up, and reschedules the connect orchestrator after the
    retry delay.  Only the retry counter changes: the health flags, the
    real server and the target index are as before, and neither a
    transition nor an alert is called.  Consequently, between any two
    wake-ups, the retry counter is below the retry limit or zero. *)
Theorem smtp_final_retries_remain :
  env_ok E ->
  (forall thread format args w,
     wrap_uint (retry_it (checker w) + 1) < retry (checker w) ->
     smtp_final thread true format args w =
     Done tt
       (mk_world (set_retry_it (wrap_uint (retry_it (checker w) + 1)) (checker w))
          (smtp_checker w) (no_checker_emails w))
       (EvClose (u_fd thread) ::
        (if is_up (checker w)
         then [match format with
               | Some f => EvLog ("SMTP_CHECK " ++ substring 0 500 f)%string args
               | None => EvLog "SMTP_CHECK Unknown error"%string []
               end]
         else []) ++
        [EvThreadAddTimer fn_smtp_connect_thread (delay_before_retry (checker w))])) /\
  (forall w,
     reachable w ->
     retry_it (checker w) = 0 \/ 0 <= retry_it (checker w) < retry (checker w)).
Proof.
  intros [Hmax _]. split.
  - intros thread format args w H. apply smtp_final_retry_eq. exact H.
  - intros w Hreach. destruct (reachable_inv Hmax w Hreach) as [_ Hr]. exact Hr.
Qed.

(** ** Every outcome of an attempt passes through the final handler *)

Lemma smtp_final_total : forall thread error format args w,
  exists w' tr, smtp_final thread error format args w = Done tt w' tr.
Proof.
  intros thread [|] format args w.
  - destruct (Z_lt_dec (wrap_uint (retry_it (checker w) + 1)) (retry (checker w))) as [H|H].
    + rewrite (smtp_final_retry_eq thread format args w H). eauto.
    + rewrite (smtp_final_exhausted_eq thread format args w H). eauto.
  - rewrite smtp_final_success_eq. eauto.
Qed.

Lemma through_final_final : forall thread error format args w w0,
  health_view w0 = health_view w ->
  through_final w (smtp_final thread error format args w0).
Proof.
  intros thread error format args w w0 Hv.
  destruct (smtp_final_total thread error format args w0) as (w' & tr & Hrun).
  rewrite Hrun. right.
  exists w0, [], thread, error, format, args, tr. auto.
Qed.

Lemma through_final_bind : forall (A : Type) (m : M A) (k : A -> M unit) w w0,
  wp m (fun a w1 => through_final w (k a w1)) quiet w0 ->
  through_final w (bind m k w0).
Proof.
  intros A m k w w0 H. unfold wp in H. unfold bind.
  destruct (m w0) as [a w1 tr1|tr1]; [|exact I].
  destruct H as [Hk Hq].
  destruct (k a w1) as [[] w2 tr2|tr2]; [|exact I].
  destruct Hk as [[Hv Hq2]|(wf & tr0 & th & err & fmt & args & trf & Hv & Hq0 & Hrun & ->)].
  - left. split; [exact Hv|]. apply Forall_app; auto.
  - right. exists wf, (tr1 ++ tr0), th, err, fmt, args, trf.
    repeat split; auto.
    + apply Forall_app; auto.
    + apply app_assoc.
Qed.

Lemma through_final_frame : forall (m : M unit) w w0,
  wp m (fun _ w1 => health_view w1 = health_view w) quiet w0 ->
  through_final w (m w0).
Proof.
  intros m w w0 H. unfold wp in H.
  destruct (m w0) as [[] w1 tr1|tr1]; [|exact I].
  left. exact H.
Qed.

Lemma smtp_get_line_frame : forall thread callback w w0,
  health_view w0 = health_view w ->
  wp (smtp_get_line thread callback) (fun _ w1 => health_view w1 = health_view w) quiet w0.
Proof.
  intros thread callback w w0 Hv. unfold smtp_get_line. wp_run; exact Hv.
Qed.

Lemma smtp_put_line_frame : forall thread callback w w0,
  health_view w0 = health_view w ->
  wp (smtp_put_line thread callback) (fun _ w1 => health_view w1 = health_view w) quiet w0.
Proof.
  intros thread callback w w0 Hv. unfold smtp_put_line. wp_run; exact Hv.
Qed.

Ltac tf_step :=
  cbv beta;
  match goal with
  | |- through_final _ (bind _ _ _) => apply through_final_bind
  | |- through_final _ (smtp_final _ _ _ _ _) => apply through_final_final
  | |- through_final _ (smtp_get_line _ _ _) =>
      apply through_final_frame, smtp_get_line_frame
  | |- through_final _ (smtp_put_line _ _ _) =>
      apply through_final_frame, smtp_put_line_frame
  | |- through_final _ ((if ?b then _ else _) _) => destruct b eqn:?
  | |- through_final _ ((match ?x with _ => _ end) _) => destruct x eqn:?
  | |- through_final _ (emit _ _) =>
      apply through_final_frame, wp_emit; [exact I|]
  | |- through_final _ (ret _ _) => apply through_final_frame, wp_ret
  | |- through_final _ (Segv _) => exact I
  | |- wp _ _ _ _ => wp_step
  end.

Ltac tf_run := wp_prim; repeat tf_step.

Lemma smtp_engine_thread_through_final : forall thread w w0,
  health_view w0 = health_view w ->
  through_final w (smtp_engine_thread thread w0).
Proof.
  intros thread w w0 Hv. unfold smtp_engine_thread. tf_run; exact Hv.
Qed.

Lemma call_buff_cb_through_final : forall thread w w0,
  health_view w0 = health_view w ->
  through_final w (call_buff_cb thread w0).
Proof.
  intros thread w w0 Hv. unfold call_buff_cb. tf_run.
  all: try (apply smtp_engine_thread_through_final; exact Hv).
Qed.

Ltac tf_step2 :=
  first [ apply call_buff_cb_through_final
        | apply smtp_engine_thread_through_final
        | tf_step ].

Lemma smtp_get_line_cb_through_final : forall thread rd w,
  through_final w (smtp_get_line_cb thread rd w).
Proof.
  intros thread rd w. unfold smtp_get_line_cb. wp_prim. repeat tf_step2.
  all: try reflexivity.
Qed.

Lemma smtp_put_line_cb_through_final : forall thread wr w,
  through_final w (smtp_put_line_cb thread wr w).
Proof.
  intros thread wr w. unfold smtp_put_line_cb. wp_prim. repeat tf_step2.
  all: try reflexivity.
Qed.

Lemma smtp_check_thread_through_final : forall thread status w,
  through_final w (smtp_check_thread thread status w).
Proof.
  intros thread status w. unfold smtp_check_thread. wp_prim. repeat tf_step2.
  all: try reflexivity.
Qed.

(** The callbacks of an attempt (connection result, line received, line
    sent) touch the retry counter, the target index and the health state
    only by ending in a call of [smtp_final]: this is what [run_attempt]
    keeps of an attempt. *)
Lemma callbacks_end_in_final : forall thread cb w,
  match cb with CbConnect _ _ _ => False | _ => True end ->
  through_final w (run_callback thread cb w).
Proof.
  intros thread [sd status refused|status|rd|wr] w H; simpl.
  - contradiction.
  - apply smtp_check_thread_through_final.
  - apply smtp_get_line_cb_through_final.
  - apply smtp_put_line_cb_through_final.
Qed.

(** The connect orchestrator with a target at the current index only selects
    the target. *)
Lemma smtp_connect_thread_selects : forall thread sd status refused w h w' tr,
  enabled (checker w) = true ->
  list_element (host (smtp_checker w)) (host_ctr (smtp_checker w)) = Some h ->
  smtp_connect_thread thread sd status refused w = Done tt w' tr ->
  w' = mk_world (checker w) (set_host_ptr (Some h) (smtp_checker w)) (no_checker_emails w) /\
  Forall quiet tr.
Proof.
  intros thread sd status refused w h w' tr He Hh Hrun.
  destruct (Z.eq_dec sd (-1)) as [->|Hsd].
  - rewrite (smtp_connect_thread_socket_failure_eq thread status refused w h He Hh) in Hrun.
    inversion Hrun; subst. split; [reflexivity|]. repeat constructor.
  - destruct refused.
    + rewrite (smtp_connect_thread_refused_eq thread sd status w h He Hh Hsd) in Hrun.
      inversion Hrun; subst. split; [reflexivity|]. repeat constructor.
    + rewrite (smtp_connect_thread_attempt_eq thread sd status w h He Hh Hsd) in Hrun.
      inversion Hrun; subst. split; [reflexivity|]. repeat constructor.
Qed.

(** ** Protocol engine *)

Section Engine.

Hypothesis Henv : env_ok E.

Lemma states_distinct :
  SMTP_START <> SMTP_HAVE_BANNER /\ SMTP_START <> SMTP_SENT_HELO /\
  SMTP_START <> SMTP_RECV_HELO /\ SMTP_START <> SMTP_SENT_QUIT /\
  SMTP_START <> SMTP_RECV_QUIT /\
  SMTP_HAVE_BANNER <> SMTP_SENT_HELO /\ SMTP_HAVE_BANNER <> SMTP_RECV_HELO /\
  SMTP_HAVE_BANNER <> SMTP_SENT_QUIT /\ SMTP_HAVE_BANNER <> SMTP_RECV_QUIT /\
  SMTP_SENT_HELO <> SMTP_RECV_HELO /\ SMTP_SENT_HELO <> SMTP_SENT_QUIT /\
  SMTP_SENT_HELO <> SMTP_RECV_QUIT /\
  SMTP_RECV_HELO <> SMTP_SENT_QUIT /\ SMTP_RECV_HELO <> SMTP_RECV_QUIT /\
  SMTP_SENT_QUIT <> SMTP_RECV_QUIT.
Proof.
  destruct Henv as [_ Hnd].
  repeat match goal with
         | H : NoDup (_ :: _) |- _ => inversion H; clear H; subst
         end.
  simpl in *. intuition congruence.
Qed.

Ltac state_tests :=
  pose proof states_distinct as Hdistinct;
  repeat match goal with
         | |- context [?a =? ?a] => rewrite (Z.eqb_refl a)
         | |- context [?a =? ?b] =>
             rewrite (proj2 (Z.eqb_neq a b)) by (intuition congruence)
         end;
  clear Hdistinct.

Lemma engine_receive : forall thread w h st st',
  host_ptr (smtp_checker w) = Some h ->
  state (smtp_checker w) = st ->
  (st = SMTP_START /\ st' = SMTP_HAVE_BANNER) \/
  (st = SMTP_SENT_HELO /\ st' = SMTP_RECV_HELO) \/
  (st = SMTP_SENT_QUIT /\ st' = SMTP_RECV_QUIT) ->
  smtp_engine_thread thread w =
  Done tt (receiving w st')
    [EvThreadAddRead fn_smtp_get_line_cb (u_fd thread) (connection_to h);
     EvThreadDelWrite].
Proof.
  intros thread w h st st' Hh Hst Hcase.
  unfold smtp_engine_thread. rewrite bind_get_smtp_checker, Hst.
  destruct Hcase as [[-> ->]|[[-> ->]|[-> ->]]]; state_tests.
  all: unfold smtp_get_line, smtp_clear_buff, receiving; unfold_m; simpl;
    rewrite Hh; reflexivity.
Qed.

Lemma engine_send : forall thread w h st st' line,
  host_ptr (smtp_checker w) = Some h ->
  Z.of_nat (length (buff (smtp_checker w))) = SMTP_BUFF_MAX ->
  state (smtp_checker w) = st ->
  (st = SMTP_HAVE_BANNER /\ smtp_get_status (smtp_checker w) = 220 /\
   st' = SMTP_SENT_HELO /\ line = helo_line (helo_name (smtp_checker w))) \/
  (st = SMTP_RECV_HELO /\ smtp_get_status (smtp_checker w) = 250 /\
   st' = SMTP_SENT_QUIT /\ line = quit_line) ->
  exists w',
    smtp_engine_thread thread w =
      Done tt w'
        [EvThreadAddWrite fn_smtp_put_line_cb (u_fd thread) (connection_to h);
         EvThreadDelRead] /\
    sending w w' st' line.
Proof.
  intros thread w h st st' line Hh Hlen Hst Hcase.
  assert (Hmax : 0 < SMTP_BUFF_MAX) by (destruct Henv; lia).
  assert (Hnn : Forall (fun c => is_nul c = false) line).
  { destruct Hcase as [(_ & _ & _ & ->)|(_ & _ & _ & ->)];
      [apply helo_line_no_nul | apply quit_line_no_nul]. }
  pose proof (outbound_line (buff (smtp_checker w)) line SMTP_BUFF_MAX Hlen Hmax Hnn) as Hout.
  assert (Hl' : Z.of_nat (length (store (blit_nat (buff (smtp_checker w)) 0
                   (firstn (Z.to_nat (SMTP_BUFF_MAX - 1)) line ++ [NUL]))
                   (SMTP_BUFF_MAX - 1) NUL)) = SMTP_BUFF_MAX).
  { rewrite store_length, blit_nat_length. exact Hlen. }
  unfold smtp_engine_thread. rewrite bind_get_smtp_checker, Hst.
  destruct Hcase as [(-> & Hs & -> & ->)|(-> & Hs & -> & ->)]; state_tests.
  all: rewrite Hs; simpl negb; cbv iota.
  all: unfold smtp_put_line, snprintf_buff; unfold_m; simpl; rewrite Hh.
  all: eexists; split; [reflexivity|].
  all: unfold sending, outbound; simpl; repeat split; auto.
Qed.

Lemma engine_bad_greeting : forall thread w h,
  host_ptr (smtp_checker w) = Some h ->
  state (smtp_checker w) = SMTP_HAVE_BANNER ->
  smtp_get_status (smtp_checker w) <> 220 ->
  smtp_engine_thread thread w =
    smtp_final thread true (Some "Bad greeting banner from server %s"%string) [h] w.
Proof.
  intros thread w h Hh Hst Hs. apply Z.eqb_neq in Hs.
  unfold smtp_engine_thread. rewrite bind_get_smtp_checker, Hst. state_tests.
  rewrite Hs, Hh. simpl negb. cbv iota. apply bind_deref_some.
Qed.

Lemma engine_bad_helo : forall thread w h,
  host_ptr (smtp_checker w) = Some h ->
  state (smtp_checker w) = SMTP_RECV_HELO ->
  smtp_get_status (smtp_checker w) <> 250 ->
  smtp_engine_thread thread w =
    smtp_final thread true (Some "Bad HELO response from server %s"%string) [h] w.
Proof.
  intros thread w h Hh Hst Hs. apply Z.eqb_neq in Hs.
  unfold smtp_engine_thread. rewrite bind_get_smtp_checker, Hst. state_tests.
  rewrite Hs, Hh. simpl negb. cbv iota. apply bind_deref_some.
Qed.

Lemma engine_recv_quit : forall thread w,
  state (smtp_checker w) = SMTP_RECV_QUIT ->
  smtp_engine_thread thread w = smtp_final thread false None [] w.
Proof.
  intros thread w Hst.
  unfold smtp_engine_thread. rewrite bind_get_smtp_checker, Hst. state_tests.
  reflexivity.
Qed.

Lemma engine_unknown_state : forall thread w,
  ~ In (state (smtp_checker w))
       [SMTP_START; SMTP_HAVE_BANNER; SMTP_SENT_HELO;
        SMTP_RECV_HELO; SMTP_SENT_QUIT; SMTP_RECV_QUIT] ->
  smtp_engine_thread thread w =
    smtp_final thread true (Some "Unknown smtp engine state encountered"%string) [] w.
Proof.
  intros thread w Hst. simpl in Hst.
  unfold smtp_engine_thread. rewrite bind_get_smtp_checker.
  repeat match goal with
         | |- context [?a =? ?b] =>
             rewrite (proj2 (Z.eqb_neq a b)) by (intuition congruence)
         end.
  reflexivity.
Qed.

End Engine.

(** A completed [write] hands the buffer's bytes over and runs the engine. *)
Lemma put_line_cb_sent : forall thread w k,
  type thread <> THREAD_WRITE_TIMEOUT ->
  buff_cb (smtp_checker w) = Some fn_smtp_engine_thread ->
  0 < k ->
  smtp_put_line_cb thread (Wrote k) w =
    (emit (EvWrite (u_fd thread) (outbound (smtp_checker w))) ;;
     smtp_engine_thread thread) w.
Proof.
  intros thread w k Hty Hcb Hk.
  assert (H1 : (k =? -1) = false) by (apply Z.eqb_neq; lia).
  assert (H2 : (k <=? 0) = false) by (apply Z.leb_gt; lia).
  unfold smtp_put_line_cb. rewrite bind_get_smtp_checker.
  destruct (type thread) eqn:Ht; try congruence.
  all: unfold sys_write, call_buff_cb; unfold_m; simpl; rewrite H1; simpl;
    rewrite H2; simpl; rewrite Hcb; simpl.
  all: destruct (smtp_engine_thread thread w); reflexivity.
Qed.

(** A [read] that leaves a newline in the buffer terminates the buffer and
    runs the engine. *)
Lemma get_line_cb_line : forall thread w data,
  type thread <> THREAD_READ_TIMEOUT ->
  buff_cb (smtp_checker w) = Some fn_smtp_engine_thread ->
  buff_ctr (smtp_checker w) <= SMTP_BUFF_MAX ->
  has_newline (buff (received (smtp_checker w) data)) = true ->
  smtp_get_line_cb thread (ReadBytes data) w =
    (emit (EvRead (u_fd thread) (wrap_size (SMTP_BUFF_MAX - buff_ctr (smtp_checker w)))) ;;
     modify_smtp_checker (fun s => set_buff (store (buff s) (SMTP_BUFF_MAX - 1) NUL) s) ;;
     smtp_engine_thread thread)
      (mk_world (checker w) (received (smtp_checker w) data) (no_checker_emails w)).
Proof.
  intros thread w data Hty Hcb Hctr Hnl.
  assert (Hguard : (buff_ctr (smtp_checker w) >? SMTP_BUFF_MAX) = false).
  { rewrite Z.gtb_ltb. apply Z.ltb_ge. exact Hctr. }
  assert (Hr : forall n : nat, (Z.of_nat n =? -1) = false).
  { intros n. apply Z.eqb_neq. lia. }
  unfold smtp_get_line_cb. rewrite bind_get_smtp_checker.
  destruct (type thread) eqn:Ht; try congruence.
  all: rewrite Hguard; unfold sys_read, call_buff_cb; unfold_m; simpl; rewrite Hr; simpl.
  all: unfold received in Hnl |- *.
  all: destruct (Z.of_nat _ >? 0) eqn:Hpos; simpl in *; rewrite Hnl; simpl;
    rewrite Hcb; simpl.
  all: match goal with |- context [smtp_engine_thread ?t ?x] =>
         destruct (smtp_engine_thread t x) end; reflexivity.
Qed.

(** C7 (as amended).  From the start state the engine takes these steps, in
    this order: it asks for a line; with the banner received it requires
    status 220, failing to the final handler with the bad-greeting message
    otherwise, and asks for the HELO line to be sent; once that is written
    it asks for a line; with the reply received it requires status 250,
    failing with the bad-HELO-response message otherwise, and asks for the
    QUIT line to be sent; once that is written it asks for a line; with the
    reply received it calls the final handler with success, whatever the
    reply's status; in any other state it calls the final handler with the
    unknown-state message.  What is handed to [write] is the line
    "HELO <helo_name>\r\n" (or "QUIT\r\n") cut to its first
    SMTP_BUFF_MAX - 1 bytes: the whole line when it is shorter than the
    buffer. *)
Theorem smtp_engine_thread_step_order :
  env_ok E ->
  forall thread w h,
    host_ptr (smtp_checker w) = Some h ->
    Z.of_nat (length (buff (smtp_checker w))) = SMTP_BUFF_MAX ->
    let s := smtp_checker w in
    let wait_line :=
      [EvThreadAddRead fn_smtp_get_line_cb (u_fd thread) (connection_to h);
       EvThreadDelWrite] in
    let wait_sent :=
      [EvThreadAddWrite fn_smtp_put_line_cb (u_fd thread) (connection_to h);
       EvThreadDelRead] in
    (state s = SMTP_START ->
     smtp_engine_thread thread w = Done tt (receiving w SMTP_HAVE_BANNER) wait_line) /\
    (state s = SMTP_HAVE_BANNER -> smtp_get_status s <> 220 ->
     smtp_engine_thread thread w =
       smtp_final thread true (Some "Bad greeting banner from server %s"%string) [h] w) /\
    (state s = SMTP_HAVE_BANNER -> smtp_get_status s = 220 ->
     exists w',
       smtp_engine_thread thread w = Done tt w' wait_sent /\
       sending w w' SMTP_SENT_HELO (helo_line (helo_name s))) /\
    (state s = SMTP_SENT_HELO ->
     smtp_engine_thread thread w = Done tt (receiving w SMTP_RECV_HELO) wait_line) /\
    (state s = SMTP_RECV_HELO -> smtp_get_status s <> 250 ->
     smtp_engine_thread thread w =
       smtp_final thread true (Some "Bad HELO response from server %s"%string) [h] w) /\
    (state s = SMTP_RECV_HELO -> smtp_get_status s = 250 ->
     exists w',
       smtp_engine_thread thread w = Done tt w' wait_sent /\
       sending w w' SMTP_SENT_QUIT quit_line) /\
    (state s = SMTP_SENT_QUIT ->
     smtp_engine_thread thread w = Done tt (receiving w SMTP_RECV_QUIT) wait_line) /\
    (state s = SMTP_RECV_QUIT ->
     smtp_engine_thread thread w = smtp_final thread false None [] w) /\
    (~ In (state s) [SMTP_START; SMTP_HAVE_BANNER; SMTP_SENT_HELO;
                     SMTP_RECV_HELO; SMTP_SENT_QUIT; SMTP_RECV_QUIT] ->
     smtp_engine_thread thread w =
       smtp_final thread true
         (Some "Unknown smtp engine state encountered"%string) [] w) /\
    (type thread <> THREAD_WRITE_TIMEOUT ->
     buff_cb s = Some fn_smtp_engine_thread ->
     forall k, 0 < k ->
       smtp_put_line_cb thread (Wrote k) w =
         (emit (EvWrite (u_fd thread) (outbound s)) ;; smtp_engine_thread thread) w) /\
    (type thread <> THREAD_READ_TIMEOUT ->
     buff_cb s = Some fn_smtp_engine_thread ->
     buff_ctr s <= SMTP_BUFF_MAX ->
     forall data, has_newline (buff (received s data)) = true ->
       smtp_get_line_cb thread (ReadBytes data) w =
         (emit (EvRead (u_fd thread) (wrap_size (SMTP_BUFF_MAX - buff_ctr s))) ;;
          modify_smtp_checker
            (fun s => set_buff (store (buff s) (SMTP_BUFF_MAX - 1) NUL) s) ;;
          smtp_engine_thread thread)
           (mk_world (checker w) (received s data) (no_checker_emails w))) /\
    (forall line : list ascii, Z.of_nat (length line) < SMTP_BUFF_MAX ->
       firstn (Z.to_nat (SMTP_BUFF_MAX - 1)) line = line).
Proof.
  intros Henv thread w h Hh Hlen s wait_line wait_sent. subst s wait_line wait_sent.
  split; [intros Hst; eapply engine_receive; eauto|].
  split; [intros Hst Hs; apply engine_bad_greeting; assumption|].
  split; [intros Hst Hs; eapply engine_send; eauto 10|].
  split; [intros Hst; eapply engine_receive; eauto|].
  split; [intros Hst Hs; apply engine_bad_helo; assumption|].
  split; [intros Hst Hs; eapply engine_send; eauto 10|].
  split; [intros Hst; eapply engine_receive; eauto 10|].
  split; [intros Hst; apply engine_recv_quit; assumption|].
  split; [intros Hst; apply engine_unknown_state; assumption|].
  split; [intros Hty Hcb k Hk; apply put_line_cb_sent; assumption|].
  split; [intros Hty Hcb Hctr data Hnl; apply get_line_cb_line; assumption|].
  intros line Hline. apply firstn_all2. lia.
Qed.

(** C2 (the code departs from the claim).  The claim: when the received
    bytes fill the buffer and no line terminator has appeared, the buffer is
    cleared, the overflow is logged, the session goes on accumulating until
    the read timeout, and the final handler never sees the overflow as a
    failure.  The code: when the fill cursor has reached SMTP_BUFF_MAX with
    no newline in the buffer, the guard [buff_ctr > SMTP_BUFF_MAX] is
    false, so nothing is cleared and nothing is logged; [read] is asked for
    0 bytes and answers 0, and the callback calls the final handler with
    the error "Read failure", on the memory as it was. *)
Theorem smtp_get_line_cb_full_buffer : forall thread data w h,
  type thread <> THREAD_READ_TIMEOUT ->
  host_ptr (smtp_checker w) = Some h ->
  buff_ctr (smtp_checker w) = SMTP_BUFF_MAX ->
  has_newline (buff (smtp_checker w)) = false ->
  smtp_get_line_cb thread (ReadBytes data) w =
    (emit (EvRead (u_fd thread) 0) ;;
     smtp_final thread true (Some "Read failure from server %s"%string) [h]) w.
Proof.
  intros thread data w h Hty Hh Hctr Hnl.
  assert (Hguard : (buff_ctr (smtp_checker w) >? SMTP_BUFF_MAX) = false).
  { rewrite Hctr, Z.gtb_ltb. apply Z.ltb_irrefl. }
  assert (Hcount : wrap_size (SMTP_BUFF_MAX - buff_ctr (smtp_checker w)) = 0).
  { rewrite Hctr, Z.sub_diag. reflexivity. }
  unfold smtp_get_line_cb. rewrite bind_get_smtp_checker.
  destruct (type thread) eqn:Ht; try congruence.
  all: rewrite Hguard; unfold sys_read; unfold_m; simpl; rewrite Hcount; simpl.
  all: rewrite blit_nat_nil, set_buff_same, world_eta, Hnl, Hh; simpl.
  all: destruct (smtp_final thread true _ [h] w); reflexivity.
Qed.

(** Every script of wake-ups leads from a reachable memory to a reachable
    memory. *)
Lemma run_callbacks_reachable : forall l w w' tr,
  reachable w ->
  run_callbacks l w = Done tt w' tr ->
  reachable w'.
Proof.
  induction l as [|[thread cb] l IH]; intros w w' tr Hreach Hrun; simpl in Hrun.
  - unfold ret in Hrun. inversion Hrun; subst. exact Hreach.
  - unfold bind in Hrun.
    destruct (run_callback thread cb w) as [[] w1 tr1|] eqn:H1; [|discriminate].
    destruct (run_callbacks l w1) as [[] w2 tr2|] eqn:H2; [|discriminate].
    inversion Hrun; subst.
    apply (IH w1 w' tr2); [|exact H2].
    eapply reachable_step; eassumption.
Qed.

(** ** Rules for [runs] *)

Lemma runs_ret : forall ok (A : Type) (a : A) post w,
  post a w [] -> runs ok (ret a) post w.
Proof. intros. exact H. Qed.

Lemma runs_bind : forall ok (A B : Type) (m : M A) (k : A -> M B) post w,
  runs ok m (fun a w1 tr1 => runs ok (k a) (fun b w2 tr2 => post b w2 (tr1 ++ tr2)) w1) w ->
  runs ok (bind m k) post w.
Proof.
  intros ok A B m k post w. unfold runs, bind.
  destruct (m w) as [a w1 tr1|tr1]; [|auto].
  destruct (k a w1) as [b w2 tr2|tr2]; auto.
Qed.

Lemma runs_conseq : forall ok (A : Type) (m : M A)
    (post1 post2 : A -> world -> list event -> Prop) w,
  runs ok m post1 w ->
  (forall a w' tr, post1 a w' tr -> post2 a w' tr) ->
  runs ok m post2 w.
Proof.
  intros ok A m post1 post2 w H Himp. unfold runs in *.
  destruct (m w); auto.
Qed.

Lemma runs_emit : forall ok e (post : unit -> world -> list event -> Prop) w,
  post tt w [e] -> runs ok (emit e) post w.
Proof. intros. exact H. Qed.

Lemma runs_get_checker : forall ok (post : checker_t -> world -> list event -> Prop) w,
  post (checker w) w [] -> runs ok get_checker post w.
Proof. intros. exact H. Qed.

Lemma runs_get_smtp_checker : forall ok (post : smtp_checker_t -> world -> list event -> Prop) w,
  post (smtp_checker w) w [] -> runs ok get_smtp_checker post w.
Proof. intros. exact H. Qed.

Lemma runs_get_no_checker_emails : forall ok (post : bool -> world -> list event -> Prop) w,
  post (no_checker_emails w) w [] -> runs ok get_no_checker_emails post w.
Proof. intros. exact H. Qed.

Lemma runs_modify_checker : forall ok f (post : unit -> world -> list event -> Prop) w,
  post tt (mk_world (f (checker w)) (smtp_checker w) (no_checker_emails w)) [] ->
  runs ok (modify_checker f) post w.
Proof. intros. exact H. Qed.

Lemma runs_modify_smtp_checker : forall ok f (post : unit -> world -> list event -> Prop) w,
  post tt (mk_world (checker w) (f (smtp_checker w)) (no_checker_emails w)) [] ->
  runs ok (modify_smtp_checker f) post w.
Proof. intros. exact H. Qed.

Lemma runs_deref : forall ok (A : Type) (p : option A)
    (post : A -> world -> list event -> Prop) w,
  (p = None -> ok) ->
  (forall a, p = Some a -> post a w []) ->
  runs ok (deref p) post w.
Proof. intros ok A [a|] post w Hn Hs; unfold runs, deref; auto. Qed.

Lemma runs_segv : forall (ok : Prop) (A : Type) (post : A -> world -> list event -> Prop) w,
  ok -> runs ok (fun _ => Segv []) post w.
Proof. intros. exact H. Qed.

Lemma runs_done : forall ok (A : Type) (m : M A) post w a w' tr,
  runs ok m post w -> m w = Done a w' tr -> post a w' tr.
Proof. intros ok A m post w a w' tr H Hm. unfold runs in H. rewrite Hm in H. exact H. Qed.

Lemma runs_returns : forall (A : Type) (m : M A) post w,
  runs False m post w -> exists a w' tr, m w = Done a w' tr.
Proof.
  intros A m post w H. unfold runs in H.
  destruct (m w) as [a w' tr|tr]; [eauto | contradiction].
Qed.

Lemma registered_app : forall tr1 tr2,
  registered (tr1 ++ tr2) = registered tr1 ++ registered tr2.
Proof.
  induction tr1 as [|e tr1 IH]; intros tr2; [reflexivity|].
  destruct e; simpl; rewrite IH; reflexivity.
Qed.

Lemma handed_over_app : forall tr1 tr2,
  handed_over (tr1 ++ tr2) = handed_over tr1 ++ handed_over tr2.
Proof.
  induction tr1 as [|e tr1 IH]; intros tr2; [reflexivity|].
  destruct e; simpl; rewrite IH; reflexivity.
Qed.

Ltac runs_step :=
  cbv beta;
  match goal with
  | |- runs _ (bind _ _) _ _ => apply runs_bind
  | |- runs _ (ret _) _ _ => apply runs_ret
  | |- runs _ (emit _) _ _ => apply runs_emit
  | |- runs _ get_checker _ _ => apply runs_get_checker
  | |- runs _ get_smtp_checker _ _ => apply runs_get_smtp_checker
  | |- runs _ get_no_checker_emails _ _ => apply runs_get_no_checker_emails
  | |- runs _ (modify_checker _) _ _ => apply runs_modify_checker
  | |- runs _ (modify_smtp_checker _) _ _ => apply runs_modify_smtp_checker
  | |- runs _ (deref _) _ _ => apply runs_deref; [solve [auto] | intros ? ?]
  | |- runs _ (fun _ => Segv []) _ _ => apply runs_segv; solve [auto]
  | |- runs _ (if ?b then _ else _) _ _ => destruct b eqn:?
  | |- runs _ (match ?x with _ => _ end) _ _ => destruct x eqn:?
  end.

Ltac runs_run := wp_prim; repeat runs_step.

(** The result of a call, from its specification. *)
Ltac runs_call lem :=
  eapply runs_conseq; [apply lem; simpl; auto | cbv beta; intros ? ? ? ?].

Ltac trace_simpl :=
  rewrite ?registered_app, ?handed_over_app; simpl.

Lemma smtp_final_runs : forall ok thread error format args w,
  runs ok (smtp_final thread error format args)
    (fun _ w' tr =>
       registered tr = [fn_smtp_connect_thread] /\ handed_over tr = [] /\
       io_step (Some fn_smtp_engine_thread) w fn_smtp_connect_thread w') w.
Proof.
  intros ok thread error format args w.
  unfold smtp_final. runs_run.
  all: unfold io_step, same_config; simpl; auto 10.
Qed.

Lemma smtp_get_line_runs : forall (ok : Prop) thread w,
  (host_ptr (smtp_checker w) = None -> ok) ->
  runs ok (smtp_get_line thread fn_smtp_engine_thread)
    (fun _ w' tr =>
       registered tr = [fn_smtp_get_line_cb] /\ handed_over tr = [] /\
       io_step (Some fn_smtp_engine_thread) w fn_smtp_get_line_cb w') w.
Proof.
  intros ok thread w Hp.
  unfold smtp_get_line. runs_run.
  all: unfold io_step, same_config; simpl; auto 10.
Qed.

Lemma smtp_put_line_runs : forall (ok : Prop) thread w,
  (host_ptr (smtp_checker w) = None -> ok) ->
  runs ok (smtp_put_line thread fn_smtp_engine_thread)
    (fun _ w' tr =>
       registered tr = [fn_smtp_put_line_cb] /\ handed_over tr = [] /\
       io_step (Some fn_smtp_engine_thread) w fn_smtp_put_line_cb w') w.
Proof.
  intros ok thread w Hp.
  unfold smtp_put_line. runs_run.
  all: unfold io_step, same_config; simpl; auto 10.
Qed.

Ltac step_done :=
  match goal with
  | H : registered _ = _ /\ handed_over _ = _ /\ io_step _ _ _ _ |- _ =>
      let Hr := fresh "Hr" in
      let Hh := fresh "Hh" in
      let Hs := fresh "Hs" in
      destruct H as (Hr & Hh & Hs);
      unfold io_step, same_config in *; simpl in *;
      first [ eexists; split; [trace_simpl; rewrite ?Hr, ?Hh; reflexivity|] | idtac ];
      trace_simpl; rewrite ?Hr, ?Hh; simpl; intuition (auto; try congruence);
      try match goal with
          | |- match ?f with _ => _ end => destruct f; intuition (auto; try congruence)
          end
  end.

Lemma smtp_engine_thread_runs : forall (ok : Prop) thread w,
  (host_ptr (smtp_checker w) = None -> ok) ->
  runs ok (smtp_engine_thread thread)
    (fun _ w' tr =>
       exists f',
         registered tr = [f'] /\ handed_over tr = [] /\
         io_step (Some fn_smtp_engine_thread) w f' w') w.
Proof.
  intros ok thread w Hp.
  unfold smtp_engine_thread. runs_run.
  all: first [ runs_call smtp_final_runs | runs_call smtp_get_line_runs
             | runs_call smtp_put_line_runs ].
  all: match goal with
       | H : registered _ = [?f] /\ _ |- _ => exists f
       end.
  all: step_done.
Qed.

Ltac step_direct :=
  eexists; split; [trace_simpl; reflexivity|];
  split; [trace_simpl; reflexivity|];
  unfold io_step, same_config; simpl; auto 10.

Ltac step_called :=
  match goal with
  | H : exists _, registered _ = _ /\ _ |- _ =>
      let f := fresh "f" in destruct H as (f & H); exists f; step_done
  | H : registered _ = [?f] /\ _ |- _ => exists f; step_done
  end.

Lemma call_buff_cb_runs : forall (ok : Prop) thread w,
  (host_ptr (smtp_checker w) = None -> ok) ->
  (buff_cb (smtp_checker w) <> Some fn_smtp_engine_thread -> ok) ->
  runs ok (call_buff_cb thread)
    (fun _ w' tr =>
       exists f',
         registered tr = [f'] /\ handed_over tr = [] /\
         io_step (Some fn_smtp_engine_thread) w f' w') w.
Proof.
  intros ok thread w Hp Hcb.
  unfold call_buff_cb. apply runs_bind, runs_get_smtp_checker. cbv beta.
  destruct (buff_cb (smtp_checker w)) as [[| | | |]|] eqn:Hb;
    try (apply runs_segv; apply Hcb; congruence).
  runs_call smtp_engine_thread_runs. step_called.
Qed.

Lemma smtp_get_line_cb_runs : forall (ok : Prop) thread rd w,
  (host_ptr (smtp_checker w) = None -> ok) ->
  (buff_cb (smtp_checker w) <> Some fn_smtp_engine_thread -> ok) ->
  runs ok (smtp_get_line_cb thread rd)
    (fun _ w' tr =>
       exists f',
         registered tr = [f'] /\ handed_over tr = [] /\
         io_step (buff_cb (smtp_checker w)) w f' w') w.
Proof.
  intros ok thread rd w Hp Hcb.
  unfold smtp_get_line_cb. runs_run.
  all: first [ runs_call smtp_final_runs | runs_call call_buff_cb_runs | idtac ].
  all: first [ step_called | step_direct ].
Qed.

Lemma smtp_put_line_cb_runs : forall (ok : Prop) thread wr w,
  (host_ptr (smtp_checker w) = None -> ok) ->
  (buff_cb (smtp_checker w) <> Some fn_smtp_engine_thread -> ok) ->
  runs ok (smtp_put_line_cb thread wr)
    (fun _ w' tr =>
       exists f',
         registered tr = [f'] /\ handed_over tr = [] /\
         io_step (buff_cb (smtp_checker w)) w f' w') w.
Proof.
  intros ok thread wr w Hp Hcb.
  unfold smtp_put_line_cb. runs_run.
  all: first [ runs_call smtp_final_runs | runs_call call_buff_cb_runs | idtac ].
  all: first [ step_called | step_direct ].
Qed.

Lemma smtp_check_thread_runs : forall (ok : Prop) thread status w,
  (host_ptr (smtp_checker w) = None -> ok) ->
  runs ok (smtp_check_thread thread status)
    (fun _ w' tr =>
       exists f',
         registered tr = [f'] /\ handed_over tr = [] /\
         f' <> fn_smtp_put_line_cb /\
         io_step (Some fn_smtp_engine_thread) w f' w') w.
Proof.
  intros ok thread status w Hp.
  unfold smtp_check_thread. runs_run.
  4: { unfold smtp_engine_thread. apply runs_bind, runs_get_smtp_checker. cbv beta.
       simpl state. rewrite Z.eqb_refl.
       runs_run. runs_call smtp_get_line_runs.
       exists fn_smtp_get_line_cb.
       destruct H as (Hr & Hh & Hs).
       unfold io_step, same_config in *; simpl in *.
       trace_simpl. rewrite Hr, Hh. intuition (auto; congruence). }
  all: runs_call smtp_final_runs.
  all: exists fn_smtp_connect_thread.
  all: destruct H0 as (Hr & Hh & Hs); unfold io_step, same_config in *; simpl in *.
  all: trace_simpl; rewrite Hr, Hh; intuition (auto; congruence).
Qed.

Lemma smtp_connect_thread_runs : forall (ok : Prop) thread sd status refused w,
  runs ok (smtp_connect_thread thread sd status refused)
    (fun _ w' tr =>
       exists f',
         next_wakeups (CbConnect sd status refused) tr = [f'] /\
         follows fn_smtp_connect_thread f' /\
         connect_step w f' w') w.
Proof.
  intros ok thread sd status refused w.
  unfold smtp_connect_thread. runs_run.
  all: unfold next_wakeups; destruct refused; try discriminate.
  all: eexists; split; [trace_simpl; reflexivity|].
  all: split; [exact I|].
  all: unfold connect_step, same_config; simpl; auto 10.
  all: repeat split; auto; congruence.
Qed.

Lemma run_callback_runs : forall (ok : Prop) thread cb w,
  ok \/ pending_inv w (callback_func cb) ->
  runs ok (run_callback thread cb)
    (fun _ w' tr =>
       exists f',
         next_wakeups cb tr = [f'] /\
         callback_step (callback_func cb) w f' w') w.
Proof.
  intros ok thread [sd status refused|status|rd|wr] w Hpre; simpl in *.
  - apply smtp_connect_thread_runs.
  - eapply runs_conseq.
    + apply smtp_check_thread_runs. intros Hn. destruct Hpre as [?|Hp]; [assumption|].
      contradiction.
    + cbv beta. intros _ w' tr (f' & Hr & _ & Hne & Hs).
      exists f'. split; [exact Hr|]. split; [|exact Hs].
      destruct Hs as (_ & _ & Hf). destruct f'; simpl; auto.
  - eapply runs_conseq.
    + apply smtp_get_line_cb_runs.
      * intros Hn. destruct Hpre as [?|[Hp _]]; [assumption|contradiction].
      * intros Hn. destruct Hpre as [?|[_ Hb]]; [assumption|contradiction].
    + cbv beta. intros _ w' tr (f' & Hr & _ & Hs).
      exists f'. split; [exact Hr|]. split; [|exact Hs].
      destruct Hs as (_ & _ & Hf). destruct f'; simpl; auto.
  - eapply runs_conseq.
    + apply smtp_put_line_cb_runs.
      * intros Hn. destruct Hpre as [?|[Hp _]]; [assumption|contradiction].
      * intros Hn. destruct Hpre as [?|[_ Hb]]; [assumption|contradiction].
    + cbv beta. intros _ w' tr (f' & Hr & _ & Hs).
      exists f'. split; [exact Hr|]. split; [|exact Hs].
      destruct Hs as (_ & _ & Hf). destruct f'; simpl; auto.
Qed.

Lemma callback_step_config : forall f w f' w',
  callback_step f w f' w' -> same_config w w'.
Proof.
  intros f w f' w' [_ H]. destruct f; destruct H as [H _]; exact H.
Qed.

Lemma callback_step_pending : forall f w f' w',
  pending_inv w f -> callback_step f w f' w' -> pending_inv w' f'.
Proof.
  intros f w f' w' Hinv [Hfol Hstep].
  destruct f; simpl in Hinv, Hstep; try contradiction.
  - destruct Hstep as (_ & Hf). destruct f'; simpl in *; try contradiction; tauto.
  - destruct Hstep as (_ & Hp & Hf).
    destruct f'; simpl in *; try contradiction; auto.
    rewrite Hp. split; [exact Hinv | tauto].
  - destruct Hinv as [Hh Hb]. destruct Hstep as (_ & Hp & Hf).
    destruct f'; simpl in *; try contradiction; auto.
    all: rewrite Hp; split; [exact Hh|]; destruct Hf as [_ [Hc|Hc]]; congruence.
  - destruct Hinv as [Hh Hb]. destruct Hstep as (_ & Hp & Hf).
    destruct f'; simpl in *; try contradiction; auto.
    all: rewrite Hp; split; [exact Hh|]; destruct Hf as [_ [Hc|Hc]]; congruence.
Qed.

Lemma list_element_some_range : forall (A : Type) (l : list A) i a,
  list_element l i = Some a -> 0 <= i < Z.of_nat (length l).
Proof.
  intros A l i a H. unfold list_element in H.
  destruct (i <? 0) eqn:Hneg; [discriminate|]. apply Z.ltb_ge in Hneg.
  assert (Hn : nth_error l (Z.to_nat i) <> None) by congruence.
  apply nth_error_Some in Hn. lia.
Qed.

Lemma callback_step_target : forall f w f' w',
  Z.of_nat (length (host (smtp_checker w))) < SIZE_MODULUS ->
  target_inv w f -> callback_step f w f' w' -> target_inv w' f'.
Proof.
  intros f w f' w' Hsz [Hctr Hcur] [Hfol Hstep].
  assert (Hio : forall cb0, f <> fn_smtp_connect_thread ->
            io_step cb0 w f' w' -> target_inv w' f').
  { intros cb0 Hf ((_ & Hho & _) & Hp & Hmove).
    assert (Hcur' : exists h, host_ptr (smtp_checker w) = Some h /\
              list_element (host (smtp_checker w)) (host_ctr (smtp_checker w)) = Some h).
    { destruct f; try contradiction; auto. }
    destruct Hcur' as (h & Hh & Hel).
    pose proof (list_element_some_range _ _ _ _ Hel) as Hlt.
    unfold target_inv. rewrite Hho, Hp.
    destruct f'; try contradiction.
    - split; [|exact I].
      destruct Hmove as [->|[->| ->]]; try lia.
      unfold wrap_size. rewrite Z.mod_small; lia.
    - destruct Hmove as [-> _]. split; [lia|]. eauto.
    - destruct Hmove as [-> _]. split; [lia|]. eauto. }
  destruct f; try (eapply Hio; [discriminate | exact Hstep]).
  destruct Hstep as ((_ & Hho & _) & Hmove).
  unfold target_inv. rewrite Hho.
  destruct f'; try contradiction.
  - split; [|exact I]. destruct Hmove as [->| ->]; lia.
  - destruct Hmove as (-> & Hp & Hne). split; [lia|].
    destruct (host_ptr (smtp_checker w')) as [h|] eqn:Hh; [|contradiction].
    exists h. split; [reflexivity|]. symmetry. exact Hp.
Qed.

Lemma scheduled_invs : forall w f,
  scheduled w f ->
  pending_inv w f /\
  (Z.of_nat (length (host (smtp_checker w))) < SIZE_MODULUS -> target_inv w f).
Proof.
  intros w f H. induction H as [w Hi|w f thread cb w' tr f' _ [IHp IHt] Hf Hrun Hnext].
  - split; [exact I|]. intros _.
    destruct Hi as (_ & Hc & _). unfold target_inv. rewrite Hc. split; [lia|exact I].
  - subst f.
    pose proof (runs_done _ _ _ _ _ _ _ _
                  (run_callback_runs False thread cb w (or_intror IHp)) Hrun)
      as (f0 & Hnext0 & Hstep).
    assert (f0 = f') by congruence. subst f0.
    split.
    + eapply callback_step_pending; eassumption.
    + intros Hsz.
      destruct (callback_step_config _ _ _ _ Hstep) as (_ & Hho & _).
      rewrite Hho in Hsz.
      eapply callback_step_target; eauto.
Qed.

(** X1.  Every wake-up that returns leaves exactly one wake-up pending: a
    timer, an I/O wait, or the connection handler given to
    [tcp_connection_state].  The connect orchestrator leaves itself or the
    connection handler; the connection handler leaves the orchestrator or
    the read callback; the two I/O callbacks leave the orchestrator or one
    of themselves. *)
Theorem wakeup_leaves_one_pending : forall thread cb w w' tr,
  run_callback thread cb w = Done tt w' tr ->
  exists f',
    next_wakeups cb tr = [f'] /\ follows (callback_func cb) f'.
Proof.
  intros thread cb w w' tr Hrun.
  pose proof (runs_done _ _ _ _ _ _ _ _
                (run_callback_runs True thread cb w (or_introl I)) Hrun)
    as (f' & Hnext & Hfol & _).
  exists f'. split; assumption.
Qed.

(** X2.  No wake-up writes the HELO name, the list of targets or the alert
    policy, and only the connect orchestrator moves the current target. *)
Theorem callbacks_keep_configuration : forall thread cb w w' tr,
  run_callback thread cb w = Done tt w' tr ->
  helo_name (smtp_checker w') = helo_name (smtp_checker w) /\
  host (smtp_checker w') = host (smtp_checker w) /\
  no_checker_emails w' = no_checker_emails w /\
  (callback_func cb <> fn_smtp_connect_thread ->
   host_ptr (smtp_checker w') = host_ptr (smtp_checker w)).
Proof.
  intros thread cb w w' tr Hrun.
  pose proof (runs_done _ _ _ _ _ _ _ _
                (run_callback_runs True thread cb w (or_introl I)) Hrun)
    as (f' & _ & Hstep).
  destruct (callback_step_config _ _ _ _ Hstep) as (H1 & H2 & H3).
  repeat split; try assumption.
  intros Hne. destruct Hstep as [_ Hstep].
  destruct cb; simpl in *; try congruence; destruct Hstep as (_ & Hp & _); exact Hp.
Qed.

(** X3.  When the scheduler wakes what was registered, and nothing else,
    no wake-up dereferences a NULL current target or calls through a NULL
    [buff_cb]: every wake-up of the pending callback returns. *)
Theorem scheduled_wakeups_return : forall w f thread cb,
  scheduled w f ->
  callback_func cb = f ->
  exists w' tr, run_callback thread cb w = Done tt w' tr.
Proof.
  intros w f thread cb Hs Hf. subst f.
  destruct (scheduled_invs _ _ Hs) as [Hp _].
  destruct (runs_returns _ _ _ _ (run_callback_runs False thread cb w (or_intror Hp)))
    as ([] & w' & tr & Hrun).
  eauto.
Qed.

(** X4.  When the scheduler wakes what was registered, the target index
    stays within the list of targets, and while the connection handler or
    an I/O callback is pending the current target is the element of the
    list at the target index. *)
Theorem scheduled_target_in_range : forall w f,
  scheduled w f ->
  Z.of_nat (length (host (smtp_checker w))) < SIZE_MODULUS ->
  0 <= host_ctr (smtp_checker w) <= Z.of_nat (length (host (smtp_checker w))) /\
  (f <> fn_smtp_connect_thread ->
   exists h,
     host_ptr (smtp_checker w) = Some h /\
     list_element (host (smtp_checker w)) (host_ctr (smtp_checker w)) = Some h).
Proof.
  intros w f Hs Hsz.
  destruct (scheduled_invs _ _ Hs) as [_ Ht].
  destruct (Ht Hsz) as [Hctr Hcur].
  split; [exact Hctr|].
  intros Hne. destruct f; try contradiction; exact Hcur.
Qed.

(** ** Health decisions *)

Lemma quiet_counts : forall tr,
  Forall quiet tr -> (forall st, transitions st tr = 0%nat) /\ alerts tr = 0%nat.
Proof.
  intros tr H. induction H as [|e tr He _ [IH1 IH2]]; [split; reflexivity|].
  destruct e; simpl in He; try contradiction; split; try intros st; simpl;
    solve [apply IH1 | exact IH2].
Qed.

Lemma smtp_final_decides : forall thread error format args w w' tr,
  smtp_final thread error format args w = Done tt w' tr ->
  transitions UP tr = 0%nat /\
  (transitions DOWN tr <= 1)%nat /\
  (alerts tr <= transitions DOWN tr)%nat /\
  (transitions DOWN tr = 1%nat ->
   retry_it (checker w') = 0 /\ host_ctr (smtp_checker w') = 0).
Proof.
  intros thread [|] format args w w' tr Hrun.
  - destruct (Z_lt_dec (wrap_uint (retry_it (checker w) + 1)) (retry (checker w))) as [H|H].
    + destruct (smtp_final_retry_counts thread format args w H) as (tr1 & Heq & Ht & Ha & _).
      rewrite Heq in Hrun. inversion Hrun; subst.
      rewrite !Ht, Ha. split; [reflexivity|]. split; [lia|]. split; [lia|].
      intros H0. discriminate H0.
    + destruct (smtp_final_exhausted_counts thread format args w H)
        as (tr1 & Heq & Hd & Hu & Ha & _).
      rewrite Heq in Hrun. inversion Hrun; subst.
      rewrite Hd, Hu, Ha. simpl.
      split; [reflexivity|].
      split; [destruct (is_up (checker w) || negb (has_run (checker w))); lia|].
      split; [|intros _; split; reflexivity].
      destruct (is_up (checker w)); simpl; rewrite ?andb_false_r; simpl.
      * match goal with |- ((if ?b then _ else _) <= _)%nat => destruct b end; lia.
      * lia.
  - rewrite smtp_final_success_eq in Hrun. inversion Hrun; subst.
    split; [reflexivity|].
    split; [unfold transitions; simpl; lia|].
    split; [unfold transitions, alerts; simpl; lia|].
    intros H. discriminate H.
Qed.

(** X5.  A wake-up requests at most one health transition, and sends an
    alert only together with a transition; the connect orchestrator never
    requests DOWN, and the callbacks of an attempt never request UP.  After
    a wake-up that requested a transition the retry counter and the target
    index are 0: the next attempt starts a cycle at the first target. *)
Theorem wakeup_decides_at_most_once : forall thread cb w w' tr,
  run_callback thread cb w = Done tt w' tr ->
  (transitions UP tr + transitions DOWN tr <= 1)%nat /\
  (alerts tr <= transitions UP tr + transitions DOWN tr)%nat /\
  (if match cb with CbConnect _ _ _ => true | _ => false end
   then transitions DOWN tr = 0%nat
   else transitions UP tr = 0%nat) /\
  ((0 < transitions UP tr + transitions DOWN tr)%nat ->
   retry_it (checker w') = 0 /\ host_ctr (smtp_checker w') = 0).
Proof.
  intros thread cb w w' tr Hrun.
  assert (Hquiet : Forall quiet tr ->
            (transitions UP tr + transitions DOWN tr <= 1)%nat /\
            (alerts tr <= transitions UP tr + transitions DOWN tr)%nat /\
            transitions DOWN tr = 0%nat /\ transitions UP tr = 0%nat /\
            ((0 < transitions UP tr + transitions DOWN tr)%nat ->
             retry_it (checker w') = 0 /\ host_ctr (smtp_checker w') = 0)).
  { intros Hq. destruct (quiet_counts tr Hq) as [Ht Ha].
    rewrite !Ht, Ha. repeat split; lia. }
  assert (Hio : match cb with CbConnect _ _ _ => False | _ => True end ->
            (transitions UP tr + transitions DOWN tr <= 1)%nat /\
            (alerts tr <= transitions UP tr + transitions DOWN tr)%nat /\
            transitions UP tr = 0%nat /\
            ((0 < transitions UP tr + transitions DOWN tr)%nat ->
             retry_it (checker w') = 0 /\ host_ctr (smtp_checker w') = 0)).
  { intros Hcb. pose proof (callbacks_end_in_final thread cb w Hcb) as Htf.
    rewrite Hrun in Htf. simpl in Htf.
    destruct Htf as [[_ Hq]|(w0 & tr0 & th & err & fmt & args & trf & _ & Hq & Hfin & ->)].
    - destruct (Hquiet Hq) as (H1 & H2 & _ & H3 & H4). auto.
    - destruct (quiet_counts tr0 Hq) as [Ht Ha].
      destruct (smtp_final_decides _ _ _ _ _ _ _ Hfin) as (Hu & Hd & Hal & Hreset).
      rewrite !transitions_app, alerts_app, !Ht, Ha, Hu. simpl.
      repeat split; try lia; apply Hreset; lia. }
  destruct cb as [sd status refused|status|rd|wr]; simpl in Hrun |- *;
    try (destruct (Hio I) as (H1 & H2 & H3 & H4); auto).
  destruct (enabled (checker w)) eqn:He.
  - destruct (list_element (host (smtp_checker w)) (host_ctr (smtp_checker w)))
      as [h|] eqn:Hh.
    + destruct (smtp_connect_thread_selects _ _ _ _ _ _ _ _ He Hh Hrun) as [_ Hq].
      destruct (Hquiet Hq) as (H1 & H2 & H3 & _ & H4). auto.
    + destruct (smtp_connect_thread_end_counts thread sd status refused w He Hh)
        as (tr1 & Heq & Hu & Hd & Ha & _).
      rewrite Heq in Hrun. inversion Hrun; subst.
      rewrite Hu, Hd, Ha. simpl.
      repeat match goal with |- context [if ?b then _ else _] => destruct b eqn:? end;
        repeat split; try lia.
      all: destruct (is_up (checker w)); simpl in *; try discriminate;
        rewrite ?andb_false_r in *; simpl in *; discriminate.
  - rewrite (smtp_connect_thread_disabled_eq thread sd status refused w He) in Hrun.
    inversion Hrun; subst.
    destruct Hquiet as (H1 & H2 & H3 & _ & H4); [repeat constructor|]. auto.
Qed.

(** ** Status parser, on every buffer *)

Lemma span_digits_bound : forall l acc v n,
  0 <= acc -> span_digits l acc = (v, n) ->
  acc * 10 ^ Z.of_nat n <= v < (acc + 1) * 10 ^ Z.of_nat n.
Proof.
  induction l as [|c t IH]; intros acc v n Hacc H; simpl in H.
  - inversion H; subst. simpl. lia.
  - destruct (isdigit c) eqn:Hd.
    + destruct (span_digits t (acc * 10 + digit_value c)) as [v' n'] eqn:Hs.
      inversion H; subst.
      pose proof (isdigit_value c Hd) as Hv.
      apply IH in Hs; [|lia].
      rewrite Nat2Z.inj_succ, Z.pow_succ_r by lia.
      assert (0 < 10 ^ Z.of_nat n') by (apply Z.pow_pos_nonneg; lia).
      nia.
    + inversion H; subst. simpl. lia.
Qed.

Lemma space_not_digit' : forall c, isspace c = true -> isdigit c = false.
Proof.
  intros c H. unfold isspace, isdigit in *.
  destruct (char_code c =? 32) eqn:H32.
  - apply Z.eqb_eq in H32. rewrite H32. reflexivity.
  - simpl in H. apply andb_true_iff in H. destruct H as [H1 H2].
    apply Z.leb_le in H1. apply Z.leb_le in H2.
    apply andb_false_iff. left. apply Z.leb_gt. lia.
Qed.

Lemma small_value_as_int : forall v (neg : bool),
  0 <= v < 100 ->
  -99 <= int_of_ulong
           (if v >? ULONG_MAX then ULONG_MAX
            else if neg then (- v) mod SIZE_MODULUS else v) <= 99.
Proof.
  intros v neg Hv.
  assert (Hsmall : (v >? ULONG_MAX) = false).
  { rewrite Z.gtb_ltb. apply Z.ltb_ge. unfold ULONG_MAX. lia. }
  rewrite Hsmall. unfold int_of_ulong, SIZE_MODULUS.
  destruct neg.
  - destruct (Z.eq_dec v 0) as [->|Hnz].
    + vm_compute. split; intros H; discriminate H.
    + replace ((- v) mod 2 ^ 64) with (2 ^ 64 - v)
        by (apply Z.mod_unique with (q := -1); lia).
      replace ((2 ^ 64 - v) mod 2 ^ 32) with (2 ^ 32 - v)
        by (apply Z.mod_unique with (q := 2 ^ 32 - 1); lia).
      destruct (_ <? _) eqn:Hlt; [apply Z.ltb_lt in Hlt|]; lia.
  - rewrite Z.mod_small by lia.
    destruct (_ <? _) eqn:Hlt; [|apply Z.ltb_ge in Hlt]; lia.
Qed.

(** When the subject starts with white space or a sign and three bytes are
    consumed, at most two of them are digits. *)
Lemma strtoul_prefixed : forall b v,
  space_or_sign_first b = true ->
  strtoul b = (v, 3) ->
  -99 <= int_of_ulong v <= 99.
Proof.
  intros b v Hfirst H.
  destruct b as [|c rest]; [discriminate|].
  unfold strtoul in H. cbv zeta in H. revert H.
  destruct (match skipn (span_space (c :: rest)) (c :: rest) with
            | c0 :: _ =>
                if char_code c0 =? 45 then (true, 1%nat)
                else if char_code c0 =? 43 then (false, 1%nat)
                else (false, 0%nat)
            | [] => (false, 0%nat)
            end) as [neg sign_len] eqn:Hm.
  assert (Hpre : (1 <= span_space (c :: rest) + sign_len)%nat).
  { simpl in Hfirst. simpl span_space in Hm |- *.
    destruct (isspace c); [lia|]. simpl in Hfirst, Hm.
    destruct (char_code c =? 45); [inversion Hm; lia|].
    simpl in Hfirst. rewrite Hfirst in Hm. inversion Hm. lia. }
  destruct (span_digits (skipn sign_len (skipn (span_space (c :: rest)) (c :: rest))) 0)
    as [v0 nd] eqn:Hs.
  intros H.
  destruct nd as [|nd]; [inversion H|].
  inversion H as [[Hv He]]. clear H.
  apply span_digits_bound in Hs; [|lia].
  simpl span_space in Hpre.
  assert (Hnd : (S nd <= 2)%nat) by lia.
  assert (Hpow : 10 ^ Z.of_nat (S nd) <= 10 ^ 2) by (apply Z.pow_le_mono_r; lia).
  apply small_value_as_int. lia.
Qed.

Lemma status_spec_prefixed : forall b,
  space_or_sign_first b = true -> status_spec b = -1.
Proof.
  intros [|c rest] H; [discriminate|]. simpl in H.
  assert (Hd : isdigit c = false).
  { destruct (isspace c) eqn:Hsp; [apply space_not_digit'; exact Hsp|].
    simpl in H. unfold isdigit.
    destruct (char_code c =? 45) eqn:H45.
    - apply Z.eqb_eq in H45. rewrite H45. reflexivity.
    - simpl in H. apply Z.eqb_eq in H. rewrite H. reflexivity. }
  simpl. destruct rest as [|d2 [|d3 rest]]; try reflexivity.
  rewrite Hd. reflexivity.
Qed.

Lemma smtp_get_status_cases : forall s,
  smtp_get_status s = status_spec (buff s) \/
  (space_or_sign_first (buff s) = true /\
   status_spec (buff s) = -1 /\
   -99 <= smtp_get_status s <= 99).
Proof.
  intros s.
  destruct (space_or_sign_first (buff s)) eqn:Hfirst.
  - right. split; [reflexivity|]. split; [apply status_spec_prefixed; exact Hfirst|].
    unfold smtp_get_status. cbv zeta.
    destruct (strtoul (buff s)) as [v e] eqn:Hst.
    destruct (e =? 3) eqn:He; simpl; [|lia].
    apply Z.eqb_eq in He. subst e.
    pose proof (strtoul_prefixed _ _ Hfirst Hst) as Hv.
    destruct (negb _ && negb _); lia.
  - left. exact (smtp_get_status_spec (buff s) Hfirst).
Qed.

Lemma smtp_get_status_code : forall s code,
  100 <= code ->
  (smtp_get_status s = code <-> status_spec (buff s) = code).
Proof.
  intros s code Hcode.
  destruct (smtp_get_status_cases s) as [->|(_ & Hspec & Hrange)]; [tauto|].
  rewrite Hspec. split; intros; lia.
Qed.

Lemma status_spec_range : forall b, -1 <= status_spec b <= 999.
Proof.
  intros [|d1 [|d2 [|d3 rest]]]; unfold status_spec; try lia.
  destruct (isdigit d1) eqn:D1; destruct (isdigit d2) eqn:D2;
    destruct (isdigit d3) eqn:D3; simpl andb; cbv iota; try lia.
  pose proof (isdigit_value _ D1). pose proof (isdigit_value _ D2).
  pose proof (isdigit_value _ D3).
  destruct (match rest with [] => true | c :: _ => is_nul c || (char_code c =? 32) end); lia.
Qed.

(** X6.  The status parser returns what the specification says on every
    buffer, except that on a buffer starting with white space or a sign
    (where the specification says -1) it may return a number between -99
    and 99.  So its result always lies between -99 and 999, and for the
    two codes the engine looks for, and every other three-digit code, the
    parser returns the code exactly when the buffer starts with its three
    digits followed by a space or the end of the content. *)
Theorem smtp_get_status_agrees : forall s,
  (smtp_get_status s = status_spec (buff s) \/
   (space_or_sign_first (buff s) = true /\
    status_spec (buff s) = -1 /\
    -99 <= smtp_get_status s <= 99)) /\
  -99 <= smtp_get_status s <= 999 /\
  (forall code, 100 <= code ->
     (smtp_get_status s = code <-> status_spec (buff s) = code)).
Proof.
  intros s. split; [|split].
  - apply smtp_get_status_cases.
  - pose proof (status_spec_range (buff s)) as Hr.
    destruct (smtp_get_status_cases s) as [->|(_ & _ & Hrange)]; lia.
  - intros code Hcode. apply smtp_get_status_code. exact Hcode.
Qed.

(** ** The parser stays within the string *)

Lemma span_space_c_str : forall l,
  (length (c_str l) = span_space l + length (c_str (skipn (span_space l) l)))%nat.
Proof.
  induction l as [|c t IH]; [reflexivity|]. simpl span_space.
  destruct (isspace c) eqn:Hsp; [|reflexivity].
  assert (Hn : is_nul c = false).
  { unfold is_nul, isspace in *. destruct (char_code c =? 0) eqn:H0; [|reflexivity].
    apply Z.eqb_eq in H0. rewrite H0 in Hsp. discriminate. }
  simpl. rewrite Hn. simpl. rewrite IH. reflexivity.
Qed.

Lemma span_digits_c_str : forall l acc v n,
  span_digits l acc = (v, n) -> (n <= length (c_str l))%nat.
Proof.
  induction l as [|c t IH]; intros acc v n H; simpl in H.
  - inversion H. lia.
  - destruct (isdigit c) eqn:Hd; [|inversion H; lia].
    destruct (span_digits t (acc * 10 + digit_value c)) as [v' n'] eqn:Hs.
    inversion H; subst.
    assert (Hn : is_nul c = false).
    { destruct (is_nul c) eqn:Hz; [|reflexivity].
      rewrite (nul_not_digit _ Hz) in Hd. discriminate. }
    simpl. rewrite Hn. simpl. apply IH in Hs. lia.
Qed.

Lemma strtoul_within_string : forall b,
  0 <= snd (strtoul b) <= strlen b.
Proof.
  intros b. unfold strtoul, strlen. cbv zeta.
  rewrite (span_space_c_str b).
  set (ws := span_space b). set (after_ws := skipn ws b).
  assert (Hsign : forall neg sl,
            match after_ws with
            | c :: _ =>
                if char_code c =? 45 then (true, 1%nat)
                else if char_code c =? 43 then (false, 1%nat)
                else (false, 0%nat)
            | [] => (false, 0%nat)
            end = (neg, sl) ->
            (length (c_str after_ws) >= sl + length (c_str (skipn sl after_ws)))%nat).
  { intros neg sl H. destruct after_ws as [|c t]; [inversion H; simpl; lia|].
    destruct (char_code c =? 45) eqn:H45.
    - inversion H; subst. apply Z.eqb_eq in H45.
      simpl. unfold is_nul. rewrite H45. simpl. lia.
    - destruct (char_code c =? 43) eqn:H43.
      + inversion H; subst. apply Z.eqb_eq in H43.
        simpl. unfold is_nul. rewrite H43. simpl. lia.
      + inversion H; subst. simpl. lia. }
  destruct (match after_ws with
            | c :: _ =>
                if char_code c =? 45 then (true, 1%nat)
                else if char_code c =? 43 then (false, 1%nat)
                else (false, 0%nat)
            | [] => (false, 0%nat)
            end) as [neg sl] eqn:Hm.
  specialize (Hsign neg sl eq_refl).
  destruct (span_digits (skipn sl after_ws) 0) as [v nd] eqn:Hs.
  apply span_digits_c_str in Hs.
  destruct nd; simpl snd; lia.
Qed.

(** X7.  The status parser never reads past the terminator that
    [smtp_get_line_cb] stores in the last byte of the buffer before it
    calls the engine: the offset at which the parser stops, and tests the
    byte that follows the digits, is at most the length of the string,
    which is below SMTP_BUFF_MAX. *)
Theorem smtp_get_status_within_buffer : forall b,
  Z.of_nat (length b) = SMTP_BUFF_MAX ->
  0 < SMTP_BUFF_MAX ->
  let line := store b (SMTP_BUFF_MAX - 1) NUL in
  0 <= snd (strtoul line) <= strlen line /\
  strlen line <= SMTP_BUFF_MAX - 1.
Proof.
  intros b Hlen Hmax line. split.
  - apply strtoul_within_string.
  - apply (strlen_store_nul b SMTP_BUFF_MAX Hlen Hmax).
Qed.

(** ** The outcomes of the connection handler and of the I/O callbacks *)

Lemma smtp_check_thread_success_eq : forall thread w h,
  host_ptr (smtp_checker w) = Some h ->
  smtp_check_thread thread connect_success w =
    Done tt (receiving w SMTP_HAVE_BANNER)
      [EvTcpSocketState fn_smtp_check_thread;
       EvThreadAddRead fn_smtp_get_line_cb (u_fd thread) (connection_to h);
       EvThreadDelWrite].
Proof.
  intros thread w h Hh.
  unfold smtp_check_thread. rewrite !bind_get_smtp_checker.
  unfold smtp_engine_thread, smtp_get_line, smtp_clear_buff, receiving.
  unfold_m. simpl. rewrite Z.eqb_refl. simpl. rewrite Hh. reflexivity.
Qed.

(** X8.  The connection handler, for each answer of the connect-state
    probe: an error, a timeout and any other answer end the attempt in the
    final handler, each with its own message; success starts the dialogue
    from the start state, whatever the protocol state, the buffer and the
    callback of the previous attempt were: the buffer is cleared, the
    engine is the function to call back and a read wait is registered for
    the greeting. *)
Theorem smtp_check_thread_outcomes : forall thread w h,
  host_ptr (smtp_checker w) = Some h ->
  let probe := emit (EvTcpSocketState fn_smtp_check_thread) in
  smtp_check_thread thread connect_error w =
    (probe ;;
     smtp_final thread true (Some "Error connecting to server %s"%string) [h]) w /\
  smtp_check_thread thread connect_timeout w =
    (probe ;;
     smtp_final thread true (Some "Connection timeout to server %s"%string) [h]) w /\
  smtp_check_thread thread connect_in_progress w =
    (probe ;;
     smtp_final thread true (Some "Unknown connection error to server %s"%string) [h]) w /\
  smtp_check_thread thread connect_success w =
    Done tt (receiving w SMTP_HAVE_BANNER)
      [EvTcpSocketState fn_smtp_check_thread;
       EvThreadAddRead fn_smtp_get_line_cb (u_fd thread) (connection_to h);
       EvThreadDelWrite].
Proof.
  intros thread w h Hh probe. subst probe.
  split; [|split; [|split]].
  4: apply smtp_check_thread_success_eq; exact Hh.
  all: unfold smtp_check_thread; rewrite !bind_get_smtp_checker, Hh.
  all: unfold bind, emit, deref; simpl;
    match goal with |- context [smtp_final ?t ?e ?f ?a ?x] =>
      destruct (smtp_final t e f a x) end; reflexivity.
Qed.

Lemma guard_off : forall w,
  buff_ctr (smtp_checker w) <= SMTP_BUFF_MAX ->
  (buff_ctr (smtp_checker w) >? SMTP_BUFF_MAX) = false.
Proof. intros w H. rewrite Z.gtb_ltb. apply Z.ltb_ge. exact H. Qed.

(** X9.  What ends an attempt inside the I/O callbacks.  A read timeout
    and a write timeout go to the final handler at once, with no [read] or
    [write], each with its own message.  A [read] that finds the
    connection closed, or fails with an error other than EAGAIN or EINTR,
    while no newline is in the buffer, is a read failure; a [write] that
    returns 0 or less, or fails with such an error, is a write failure.  In
    each case the final handler runs on the memory as it was. *)
Theorem io_errors_end_the_attempt : forall thread w h,
  host_ptr (smtp_checker w) = Some h ->
  (type thread = THREAD_READ_TIMEOUT ->
   forall rd,
     smtp_get_line_cb thread rd w =
       smtp_final thread true (Some "Read timeout from server %s"%string) [h] w) /\
  (type thread = THREAD_WRITE_TIMEOUT ->
   forall wr,
     smtp_put_line_cb thread wr w =
       smtp_final thread true (Some "Write timeout to server %s"%string) [h] w) /\
  (type thread <> THREAD_READ_TIMEOUT ->
   buff_ctr (smtp_checker w) <= SMTP_BUFF_MAX ->
   has_newline (buff (smtp_checker w)) = false ->
   forall rd, rd = ReadBytes [] \/ rd = ReadError EOTHER ->
     smtp_get_line_cb thread rd w =
       (emit (EvRead (u_fd thread)
                (wrap_size (SMTP_BUFF_MAX - buff_ctr (smtp_checker w)))) ;;
        smtp_final thread true (Some "Read failure from server %s"%string) [h]) w) /\
  (type thread <> THREAD_WRITE_TIMEOUT ->
   forall wr, wr = WriteError EOTHER \/ (exists k, wr = Wrote k /\ k <= 0) ->
     smtp_put_line_cb thread wr w =
       (emit (EvWrite (u_fd thread) (outbound (smtp_checker w))) ;;
        smtp_final thread true (Some "Write failure to server %s"%string) [h]) w).
Proof.
  intros thread w h Hh.
  split; [|split; [|split]].
  - intros Hty rd. unfold smtp_get_line_cb. rewrite bind_get_smtp_checker, Hty, Hh.
    apply bind_deref_some.
  - intros Hty wr. unfold smtp_put_line_cb. rewrite bind_get_smtp_checker, Hty, Hh.
    apply bind_deref_some.
  - intros Hty Hctr Hnl rd Hrd.
    pose proof (guard_off w Hctr) as Hguard.
    unfold smtp_get_line_cb. rewrite bind_get_smtp_checker.
    destruct (type thread) eqn:Ht; try congruence.
    all: rewrite Hguard; destruct Hrd as [-> | ->]; unfold sys_read; unfold_m; simpl.
    all: rewrite ?firstn_nil; simpl.
    all: rewrite ?blit_nat_nil, ?set_buff_same, ?world_eta, Hnl, Hh; simpl.
    all: destruct (smtp_final thread true _ [h] w); reflexivity.
  - intros Hty wr Hwr.
    unfold smtp_put_line_cb. rewrite bind_get_smtp_checker.
    destruct (type thread) eqn:Ht; try congruence.
    all: destruct Hwr as [-> | (k & -> & Hk)]; unfold sys_write; unfold_m; simpl.
    all: try (rewrite andb_false_r; simpl;
              replace (k <=? 0) with true by (symmetry; apply Z.leb_le; exact Hk)).
    all: rewrite Hh; simpl.
    all: destruct (smtp_final thread true _ [h] w); reflexivity.
Qed.

(** X10.  A [read] or a [write] that would block (EAGAIN or EINTR) changes
    nothing in memory: the same wait is registered again, with the same
    callback, descriptor and timeout, and the bytes offered to the next
    [write] are the same. *)
Theorem would_block_waits_again : forall thread w h e,
  host_ptr (smtp_checker w) = Some h ->
  would_block e = true ->
  (type thread <> THREAD_READ_TIMEOUT ->
   buff_ctr (smtp_checker w) <= SMTP_BUFF_MAX ->
   smtp_get_line_cb thread (ReadError e) w =
     Done tt w
       [EvRead (u_fd thread) (wrap_size (SMTP_BUFF_MAX - buff_ctr (smtp_checker w)));
        EvThreadAddRead fn_smtp_get_line_cb (u_fd thread) (connection_to h)]) /\
  (type thread <> THREAD_WRITE_TIMEOUT ->
   smtp_put_line_cb thread (WriteError e) w =
     Done tt w
       [EvWrite (u_fd thread) (outbound (smtp_checker w));
        EvThreadAddWrite fn_smtp_put_line_cb (u_fd thread) (connection_to h)]).
Proof.
  intros thread w h e Hh He. split.
  - intros Hty Hctr.
    pose proof (guard_off w Hctr) as Hguard.
    unfold smtp_get_line_cb. rewrite bind_get_smtp_checker.
    destruct (type thread) eqn:Ht; try congruence.
    all: rewrite Hguard; unfold sys_read; unfold_m; simpl; rewrite He, Hh; reflexivity.
  - intros Hty.
    unfold smtp_put_line_cb. rewrite bind_get_smtp_checker.
    destruct (type thread) eqn:Ht; try congruence.
    all: unfold sys_write; unfold_m; simpl; rewrite He, Hh; reflexivity.
Qed.

(** X11.  A [read] that delivers bytes without completing a line keeps
    them: they are stored from the fill cursor on, the cursor advances by
    their number, and the read wait is registered again. *)
Theorem partial_line_is_kept : forall thread w h data,
  host_ptr (smtp_checker w) = Some h ->
  type thread <> THREAD_READ_TIMEOUT ->
  buff_ctr (smtp_checker w) <= SMTP_BUFF_MAX ->
  firstn (Z.to_nat (wrap_size (SMTP_BUFF_MAX - buff_ctr (smtp_checker w)))) data <> [] ->
  has_newline (buff (received (smtp_checker w) data)) = false ->
  smtp_get_line_cb thread (ReadBytes data) w =
    Done tt
      (mk_world (checker w) (received (smtp_checker w) data) (no_checker_emails w))
      [EvRead (u_fd thread) (wrap_size (SMTP_BUFF_MAX - buff_ctr (smtp_checker w)));
       EvThreadAddRead fn_smtp_get_line_cb (u_fd thread) (connection_to h)].
Proof.
  intros thread w h data Hh Hty Hctr Hgot Hnl.
  pose proof (guard_off w Hctr) as Hguard.
  assert (Hr : forall n : nat, (Z.of_nat n =? -1) = false).
  { intros n. apply Z.eqb_neq. lia. }
  assert (Hpos : (Z.of_nat (length (firstn (Z.to_nat
                    (wrap_size (SMTP_BUFF_MAX - buff_ctr (smtp_checker w)))) data)) >? 0)
                 = true).
  { apply Z.gtb_lt. destruct (firstn _ data); [congruence|simpl; lia]. }
  assert (Hle : (Z.of_nat (length (firstn (Z.to_nat
                    (wrap_size (SMTP_BUFF_MAX - buff_ctr (smtp_checker w)))) data)) <=? 0)
                = false).
  { apply Z.leb_gt. apply Z.gtb_lt. exact Hpos. }
  unfold smtp_get_line_cb. rewrite bind_get_smtp_checker.
  destruct (type thread) eqn:Ht; try congruence.
  all: rewrite Hguard; unfold sys_read; unfold_m; simpl; rewrite Hr; simpl.
  all: unfold received in Hnl |- *; rewrite Hpos in Hnl |- *; simpl in Hnl |- *.
  all: rewrite Hnl, Hle, Hh; reflexivity.
Qed.

Lemma blit_nat_app : forall b n g1 g2,
  blit_nat (blit_nat b n g1) (n + length g1) g2 = blit_nat b n (g1 ++ g2).
Proof.
  induction b as [|d t IH]; intros [|n] g1 g2; simpl; try reflexivity.
  - destruct g1 as [|s g1]; simpl; [reflexivity|].
    rewrite <- (IH O g1 g2). reflexivity.
  - rewrite IH. reflexivity.
Qed.

(** X12.  A line that arrives in two pieces is buffered as if it had
    arrived in one: receiving [d1] and then [d2] leaves the buffer and the
    fill cursor that receiving [d1 ++ d2] leaves. *)
Theorem received_app : forall s d1 d2,
  0 < SMTP_BUFF_MAX < SIZE_MODULUS ->
  0 <= buff_ctr s <= SMTP_BUFF_MAX ->
  received (received s d1) d2 = received s (d1 ++ d2).
Proof.
  intros s d1 d2 Hmax Hctr.
  set (c := Z.to_nat (SMTP_BUFF_MAX - buff_ctr s)).
  assert (Hc : wrap_size (SMTP_BUFF_MAX - buff_ctr s) = SMTP_BUFF_MAX - buff_ctr s).
  { unfold wrap_size. apply Z.mod_small. lia. }
  assert (Hlen1 : (length (firstn c d1) <= c)%nat) by (rewrite length_firstn; lia).
  assert (Hsplit : firstn c (d1 ++ d2) =
                   firstn c d1 ++ firstn (c - length (firstn c d1)) d2).
  { rewrite firstn_app. f_equal.
    rewrite length_firstn.
    destruct (Nat.le_gt_cases (length d1) c) as [Hle|Hgt].
    - rewrite Nat.min_r by lia. reflexivity.
    - rewrite Nat.min_l by lia. replace (c - length d1)%nat with O by lia.
      rewrite Nat.sub_diag. reflexivity. }
  unfold received at 2. rewrite Hc. fold c.
  destruct (Z.of_nat (length (firstn c d1)) >? 0) eqn:Hpos1.
  - (* the first piece stores bytes *)
    assert (Hw : wrap_size (buff_ctr s + Z.of_nat (length (firstn c d1))) =
                 buff_ctr s + Z.of_nat (length (firstn c d1))).
    { unfold wrap_size. apply Z.mod_small. lia. }
    unfold received. simpl buff_ctr. simpl buff. rewrite Hc, Hw. fold c.
    replace (Z.to_nat (wrap_size (SMTP_BUFF_MAX -
               (buff_ctr s + Z.of_nat (length (firstn c d1))))))
      with (c - length (firstn c d1))%nat
      by (unfold wrap_size; rewrite Z.mod_small by lia; lia).
    rewrite Hsplit, length_app.
    replace (Z.to_nat (buff_ctr s + Z.of_nat (length (firstn c d1))))
      with (Z.to_nat (buff_ctr s) + length (firstn c d1))%nat by lia.
    rewrite blit_nat_app.
    replace (Z.of_nat (length (firstn c d1) +
               length (firstn (c - length (firstn c d1)) d2)) >? 0) with true
      by (symmetry; apply Z.gtb_lt; apply Z.gtb_lt in Hpos1; lia).
    destruct (Z.of_nat (length (firstn (c - length (firstn c d1)) d2)) >? 0) eqn:Hpos2.
    + simpl. unfold set_buff_ctr, set_buff. simpl. f_equal.
      rewrite Nat2Z.inj_add, Z.add_assoc. reflexivity.
    + assert (Hz : length (firstn (c - length (firstn c d1)) d2) = O).
      { rewrite Z.gtb_ltb in Hpos2. apply Z.ltb_ge in Hpos2. lia. }
      simpl. unfold set_buff_ctr, set_buff. simpl. f_equal.
      rewrite Hz, Nat.add_0_r. symmetry. exact Hw.
  - (* the first piece is empty *)
    assert (Hz : firstn c d1 = []).
    { rewrite Z.gtb_ltb in Hpos1. apply Z.ltb_ge in Hpos1.
      destruct (firstn c d1); [reflexivity|simpl in Hpos1; lia]. }
    unfold received. simpl buff_ctr. simpl buff. rewrite Hc. fold c.
    rewrite Hsplit, Hz. simpl length. rewrite Nat.sub_0_r. simpl app.
    rewrite blit_nat_nil.
    destruct (Z.of_nat (length (firstn c d2)) >? 0); destruct s; reflexivity.
Qed.

(** ** A complete dialogue *)

Section Dialogue.

Hypothesis Henv : env_ok E.
Hypothesis Hroom : 4 < SMTP_BUFF_MAX.

(** The status of a line received into the cleared buffer is the status of
    the line. *)
Lemma status_of_line : forall l,
  status_spec
    (store (blit_nat (repeat NUL (Z.to_nat SMTP_BUFF_MAX)) 0
              (firstn (Z.to_nat SMTP_BUFF_MAX) l)) (SMTP_BUFF_MAX - 1) NUL) =
  status_spec l.
Proof.
  intros l. unfold store.
  destruct (SMTP_BUFF_MAX - 1 <? 0) eqn:Hneg; [apply Z.ltb_lt in Hneg; lia|].
  replace (Z.to_nat (SMTP_BUFF_MAX - 1)) with (Z.to_nat SMTP_BUFF_MAX - 1)%nat by lia.
  destruct (Z.to_nat SMTP_BUFF_MAX) as [|[|[|[|[|m]]]]] eqn:Hn; try lia.
  destruct l as [|a [|b [|c [|d l']]]]; simpl.
  - reflexivity.
  - rewrite andb_false_r. reflexivity.
  - rewrite andb_false_r. reflexivity.
  - rewrite !andb_true_r. reflexivity.
  - reflexivity.
Qed.

Lemma newline_received : forall l,
  newline_arrives l ->
  has_newline (blit_nat (repeat NUL (Z.to_nat SMTP_BUFF_MAX)) 0
                 (firstn (Z.to_nat SMTP_BUFF_MAX) l)) = true.
Proof.
  intros l Hnl. unfold has_newline.
  rewrite firstn_all2 by (rewrite blit_nat_length, repeat_length; lia).
  rewrite blit_nat_0_app by (rewrite length_firstn, repeat_length; lia).
  rewrite existsb_app. unfold newline_arrives in Hnl. rewrite Hnl. reflexivity.
Qed.

Lemma whole_buffer : wrap_size (SMTP_BUFF_MAX - 0) = SMTP_BUFF_MAX.
Proof.
  destruct Henv as [Hmax _]. rewrite Z.sub_0_r. unfold wrap_size.
  apply Z.mod_small. lia.
Qed.

(** A line received into the cleared buffer: the engine runs on a memory
    that differs from the one before the wait in the buffer alone, and the
    buffer holds a line with the status of the line received. *)
Lemma line_received : forall fd w0 st l,
  newline_arrives l ->
  exists w1,
    smtp_get_line_cb (mk_thread THREAD_READ fd) (ReadBytes l) (receiving w0 st) =
      (emit (EvRead fd SMTP_BUFF_MAX) ;;
       smtp_engine_thread (mk_thread THREAD_READ fd)) w1 /\
    checker w1 = checker w0 /\
    no_checker_emails w1 = no_checker_emails w0 /\
    helo_name (smtp_checker w1) = helo_name (smtp_checker w0) /\
    host (smtp_checker w1) = host (smtp_checker w0) /\
    host_ptr (smtp_checker w1) = host_ptr (smtp_checker w0) /\
    host_ctr (smtp_checker w1) = host_ctr (smtp_checker w0) /\
    state (smtp_checker w1) = st /\
    Z.of_nat (length (buff (smtp_checker w1))) = SMTP_BUFF_MAX /\
    status_spec (buff (smtp_checker w1)) = status_spec l.
Proof.
  intros fd w0 st l Hnl.
  assert (Hbuff : buff (received (smtp_checker (receiving w0 st)) l) =
            blit_nat (repeat NUL (Z.to_nat SMTP_BUFF_MAX)) 0
              (firstn (Z.to_nat SMTP_BUFF_MAX) l)).
  { unfold received. simpl buff_ctr. rewrite whole_buffer.
    destruct (_ >? 0); reflexivity. }
  assert (Hsame : forall (A : Type) (f : smtp_checker_t -> A),
            (forall s b c, f (set_buff_ctr c (set_buff b s)) = f s) ->
            (forall s b, f (set_buff b s) = f s) ->
            f (received (smtp_checker (receiving w0 st)) l) =
            f (smtp_checker (receiving w0 st))).
  { intros A f H1 H2. unfold received. destruct (_ >? 0); [apply H1 | apply H2]. }
  set (r := received (smtp_checker (receiving w0 st)) l) in *.
  exists (mk_world (checker w0)
            (set_buff (store (buff r) (SMTP_BUFF_MAX - 1) NUL) r)
            (no_checker_emails w0)).
  split.
  - rewrite (get_line_cb_line (mk_thread THREAD_READ fd) (receiving w0 st) l).
    + simpl buff_ctr. rewrite whole_buffer. fold r.
      unfold bind, emit, modify_smtp_checker. simpl.
      match goal with |- context [smtp_engine_thread ?t ?x] =>
        destruct (smtp_engine_thread t x) end; reflexivity.
    + discriminate.
    + reflexivity.
    + simpl. destruct Henv as [Hmax _]. lia.
    + fold r. rewrite Hbuff. apply newline_received. exact Hnl.
  - simpl.
    rewrite (Hsame _ helo_name), (Hsame _ host), (Hsame _ host_ptr),
      (Hsame _ host_ctr), (Hsame _ state) by reflexivity.
    rewrite store_length, Hbuff, blit_nat_length, repeat_length.
    repeat split; try reflexivity.
    + lia.
    + apply status_of_line.
Qed.

Lemma emit_then_done : forall e (m : M unit) w w' tr,
  m w = Done tt w' tr -> (emit e ;; m) w = Done tt w' (e :: tr).
Proof. intros e m w w' tr H. unfold bind, emit. rewrite H. reflexivity. Qed.

(** A line with the expected status: the engine asks for the next line to
    be sent. *)
Lemma line_then_send : forall fd w0 h st st' code line l,
  host_ptr (smtp_checker w0) = Some h ->
  newline_arrives l ->
  status_spec l = code ->
  (st = SMTP_HAVE_BANNER /\ code = 220 /\ st' = SMTP_SENT_HELO /\
   line = helo_line (helo_name (smtp_checker w0))) \/
  (st = SMTP_RECV_HELO /\ code = 250 /\ st' = SMTP_SENT_QUIT /\ line = quit_line) ->
  exists w2,
    smtp_get_line_cb (mk_thread THREAD_READ fd) (ReadBytes l) (receiving w0 st) =
      Done tt w2
        [EvRead fd SMTP_BUFF_MAX;
         EvThreadAddWrite fn_smtp_put_line_cb fd (connection_to h);
         EvThreadDelRead] /\
    sending w0 w2 st' line.
Proof.
  intros fd w0 h st st' code line l Hh Hnl Hcode Hcase.
  destruct (line_received fd w0 st l Hnl)
    as (w1 & Hrun & Hc & Hn & Hhelo & Hho & Hp & Hctr & Hst & Hlen & Hstatus).
  assert (Hs : smtp_get_status (smtp_checker w1) = code).
  { apply smtp_get_status_code; [|congruence].
    destruct Hcase as [(_ & -> & _)|(_ & -> & _)]; lia. }
  destruct (engine_send Henv (mk_thread THREAD_READ fd) w1 h st st' line)
    as (w2 & Hengine & Hsend).
  { congruence. }
  { exact Hlen. }
  { exact Hst. }
  { destruct Hcase as [(-> & -> & -> & ->)|(-> & -> & -> & ->)]; [left|right];
      repeat split; congruence. }
  exists w2. split.
  - rewrite Hrun. apply emit_then_done. exact Hengine.
  - destruct Hsend as (S1 & S2 & S3 & S4 & S5 & S6 & S7 & S8 & S9).
    unfold sending. repeat split; congruence.
Qed.

(** A line sent: the engine asks for the reply. *)
Lemma sent_then_receive : forall fd w2 h st st' k,
  host_ptr (smtp_checker w2) = Some h ->
  buff_cb (smtp_checker w2) = Some fn_smtp_engine_thread ->
  state (smtp_checker w2) = st ->
  (st = SMTP_SENT_HELO /\ st' = SMTP_RECV_HELO) \/
  (st = SMTP_SENT_QUIT /\ st' = SMTP_RECV_QUIT) ->
  0 < k ->
  smtp_put_line_cb (mk_thread THREAD_WRITE fd) (Wrote k) w2 =
    Done tt (receiving w2 st')
      [EvWrite fd (outbound (smtp_checker w2));
       EvThreadAddRead fn_smtp_get_line_cb fd (connection_to h);
       EvThreadDelWrite].
Proof.
  intros fd w2 h st st' k Hh Hcb Hst Hcase Hk.
  rewrite put_line_cb_sent by (try discriminate; assumption).
  apply emit_then_done.
  apply (engine_receive Henv (mk_thread THREAD_WRITE fd) w2 h st st' Hh Hst).
  tauto.
Qed.

(** The reply to QUIT, whatever it says: the attempt has succeeded. *)
Lemma last_line_then_final : forall fd w0 l,
  newline_arrives l ->
  exists w',
    smtp_get_line_cb (mk_thread THREAD_READ fd) (ReadBytes l)
      (receiving w0 SMTP_RECV_QUIT) =
      Done tt w'
        [EvRead fd SMTP_BUFF_MAX; EvClose fd;
         EvThreadAddTimer fn_smtp_connect_thread 1] /\
    checker w' = set_retry_it 0 (checker w0) /\
    no_checker_emails w' = no_checker_emails w0 /\
    host (smtp_checker w') = host (smtp_checker w0) /\
    host_ctr (smtp_checker w') = wrap_size (host_ctr (smtp_checker w0) + 1).
Proof.
  intros fd w0 l Hnl.
  destruct (line_received fd w0 SMTP_RECV_QUIT l Hnl)
    as (w1 & Hrun & Hc & Hn & Hhelo & Hho & Hp & Hctr & Hst & Hlen & Hstatus).
  eexists. split.
  - rewrite Hrun. apply emit_then_done.
    rewrite (engine_recv_quit Henv _ _ Hst). apply smtp_final_success_eq.
  - simpl. rewrite Hc, Hn, Hho, Hctr. repeat split; reflexivity.
Qed.

(** X13.  A server that greets with status 220, answers HELO with status
    250 and answers QUIT with any line passes the check: the connection
    handler and the five I/O wake-ups that follow send the HELO line and
    then the QUIT line (each cut to the buffer), request no transition and
    send no alert, and end in the final handler's success: the retry
    counter is reset, the target index advances by one, and the connect
    orchestrator is rescheduled after the delay of 1. *)
Theorem session_passes : forall fd w h l1 l2 l3 k1 k2,
  host_ptr (smtp_checker w) = Some h ->
  newline_arrives l1 -> newline_arrives l2 -> newline_arrives l3 ->
  status_spec l1 = 220 -> status_spec l2 = 250 ->
  0 < k1 -> 0 < k2 ->
  exists w' tr,
    run_callbacks (session fd l1 l2 l3 k1 k2) w = Done tt w' tr /\
    sent_lines tr =
      [firstn (Z.to_nat (SMTP_BUFF_MAX - 1)) (helo_line (helo_name (smtp_checker w)));
       firstn (Z.to_nat (SMTP_BUFF_MAX - 1)) quit_line] /\
    (forall st, transitions st tr = 0%nat) /\
    alerts tr = 0%nat /\
    last tr (EvClose 0) = EvThreadAddTimer fn_smtp_connect_thread 1 /\
    checker w' = set_retry_it 0 (checker w) /\
    host (smtp_checker w') = host (smtp_checker w) /\
    host_ctr (smtp_checker w') = wrap_size (host_ctr (smtp_checker w) + 1).
Proof.
  intros fd w h l1 l2 l3 k1 k2 Hh N1 N2 N3 S1 S2 K1 K2.
  pose proof (smtp_check_thread_success_eq (mk_thread THREAD_WRITE fd) w h Hh) as Ha.
  destruct (line_then_send fd w h SMTP_HAVE_BANNER
              SMTP_SENT_HELO 220 (helo_line (helo_name (smtp_checker w))) l1
              Hh N1 S1)
    as (wb & Hb & Sb).
  { left. auto. }
  destruct Sb as (B1 & B2 & B3 & B4 & B5 & B6 & B7 & B8 & B9).
  assert (Hhb : host_ptr (smtp_checker wb) = Some h) by congruence.
  pose proof (sent_then_receive fd wb h SMTP_SENT_HELO SMTP_RECV_HELO k1
                Hhb B7 B6 (or_introl (conj eq_refl eq_refl)) K1) as Hc.
  destruct (line_then_send fd wb h SMTP_RECV_HELO SMTP_SENT_QUIT 250 quit_line l2
              Hhb N2 S2)
    as (wc & Hd & Sc).
  { right. auto. }
  destruct Sc as (C1 & C2 & C3 & C4 & C5 & C6 & C7 & C8 & C9).
  assert (Hhc : host_ptr (smtp_checker wc) = Some h) by congruence.
  pose proof (sent_then_receive fd wc h SMTP_SENT_QUIT SMTP_RECV_QUIT k2
                Hhc C7 C6 (or_intror (conj eq_refl eq_refl)) K2) as He.
  destruct (last_line_then_final fd wc l3 N3) as (w' & Hf & F1 & F2 & F3 & F4).
  exists w'. eexists. split.
  { unfold session, run_callbacks, run_callback.
    eapply bind_done; [exact Ha|].
    eapply bind_done; [exact Hb|].
    eapply bind_done; [exact Hc|].
    eapply bind_done; [exact Hd|].
    eapply bind_done; [exact He|].
    eapply bind_done; [exact Hf|].
    reflexivity. }
  simpl. rewrite B9, C9.
  repeat split; try reflexivity; congruence.
Qed.

(** X14.  A greeting whose status is not 220, and a reply to HELO whose
    status is not 250, end the attempt in the final handler as a failure,
    with the message for a bad greeting and for a bad HELO response; the
    final handler finds the checker record and the target index as they
    were when the line was asked for. *)
Theorem session_rejects_bad_replies : forall fd w0 h st l,
  host_ptr (smtp_checker w0) = Some h ->
  newline_arrives l ->
  (st = SMTP_HAVE_BANNER /\ status_spec l <> 220) \/
  (st = SMTP_RECV_HELO /\ status_spec l <> 250) ->
  exists w1,
    smtp_get_line_cb (mk_thread THREAD_READ fd) (ReadBytes l) (receiving w0 st) =
      (emit (EvRead fd SMTP_BUFF_MAX) ;;
       smtp_final (mk_thread THREAD_READ fd) true
         (Some (if st =? SMTP_HAVE_BANNER
                then "Bad greeting banner from server %s"%string
                else "Bad HELO response from server %s"%string)) [h]) w1 /\
    health_view w1 = health_view w0.
Proof.
  intros fd w0 h st l Hh Hnl Hcase.
  destruct (line_received fd w0 st l Hnl)
    as (w1 & Hrun & Hc & Hn & Hhelo & Hho & Hp & Hctr & Hst & Hlen & Hstatus).
  pose proof (states_distinct Henv) as Hd.
  exists w1. split.
  - assert (Hh1 : host_ptr (smtp_checker w1) = Some h) by congruence.
    rewrite Hrun. unfold bind, emit.
    destruct Hcase as [[-> Hbad]|[-> Hbad]].
    + assert (Hs : smtp_get_status (smtp_checker w1) <> 220).
      { intros H220. apply Hbad. rewrite <- Hstatus.
        apply (smtp_get_status_code (smtp_checker w1) 220); [lia | exact H220]. }
      rewrite Z.eqb_refl.
      rewrite (engine_bad_greeting Henv _ w1 h Hh1 Hst Hs). reflexivity.
    + assert (Hs : smtp_get_status (smtp_checker w1) <> 250).
      { intros H250. apply Hbad. rewrite <- Hstatus.
        apply (smtp_get_status_code (smtp_checker w1) 250); [lia | exact H250]. }
      rewrite (proj2 (Z.eqb_neq _ _)) by (intuition congruence).
      rewrite (engine_bad_helo Henv _ w1 h Hh1 Hst Hs). reflexivity.
  - unfold health_view. congruence.
Qed.

End Dialogue.

(** ** The connect orchestrator, disabled and starting an attempt *)

(** X15.  A disabled checker is paused, not stopped: however often the
    connect orchestrator is woken, it leaves the memory as it is, opens no
    socket, requests no transition, and registers itself again after the
    full-cycle delay. *)
Theorem disabled_checker_idles : forall l w,
  enabled (checker w) = false ->
  Forall (fun x => callback_func (snd x) = fn_smtp_connect_thread) l ->
  run_callbacks l w =
    Done tt w
      (repeat (EvThreadAddTimer fn_smtp_connect_thread (delay_loop (checker w)))
         (length l)).
Proof.
  induction l as [|[thread cb] l IH]; intros w He Hall; [reflexivity|].
  inversion Hall as [|? ? Hcb Hall']; subst.
  destruct cb as [sd status refused| | |]; try discriminate.
  simpl run_callbacks.
  apply (bind_done _ _ _ _ w tt w
           [EvThreadAddTimer fn_smtp_connect_thread (delay_loop (checker w))]
           tt w _).
  - apply smtp_connect_thread_disabled_eq. exact He.
  - apply IH; assumption.
Qed.

(** X16.  An attempt starts on the target at the target index: the connect
    orchestrator makes it the current target, opens the socket with its
    address family and hands the connection handler to
    [tcp_connection_state] with its timeout; when the connection is
    established, the connection handler registers the first read wait with
    the same timeout.  Nothing else in memory changes but the protocol
    state, the buffer and the callback, which are set for the greeting. *)
Theorem attempt_starts_on_current_target : forall timer thread sd status w h,
  enabled (checker w) = true ->
  list_element (host (smtp_checker w)) (host_ctr (smtp_checker w)) = Some h ->
  sd <> -1 ->
  run_callbacks [(timer, CbConnect sd status false); (thread, CbCheck connect_success)] w =
    Done tt
      (receiving
         (mk_world (checker w) (set_host_ptr (Some h) (smtp_checker w))
            (no_checker_emails w))
         SMTP_HAVE_BANNER)
      [EvSocket (dst_ss_family h);
       EvTcpBindConnect sd h;
       EvTcpConnectionState sd status fn_smtp_check_thread (connection_to h);
       EvTcpSocketState fn_smtp_check_thread;
       EvThreadAddRead fn_smtp_get_line_cb (u_fd thread) (connection_to h);
       EvThreadDelWrite].
Proof.
  intros timer thread sd status w h He Hh Hsd.
  simpl run_callbacks. unfold bind.
  rewrite (smtp_connect_thread_attempt_eq timer sd status w h He Hh Hsd).
  rewrite (smtp_check_thread_success_eq thread _ h) by reflexivity.
  reflexivity.
Qed.

(** ** Comparing two configurations *)

Lemma char_code_inj : forall c d, char_code c = char_code d -> c = d.
Proof.
  intros c d H. unfold char_code in H. apply Nat2Z.inj in H.
  rewrite <- (ascii_nat_embedding c), <- (ascii_nat_embedding d), H. reflexivity.
Qed.

Lemma strcmp_0 : forall a b, strcmp a b = 0 <-> c_str a = c_str b.
Proof.
  induction a as [|c a IH]; intros [|d b]; simpl.
  - tauto.
  - destruct (is_nul d); split; intros H; try reflexivity; discriminate.
  - destruct (is_nul c); split; intros H; try reflexivity; discriminate.
  - destruct (is_nul c) eqn:Hc; destruct (is_nul d) eqn:Hd; simpl.
    + tauto.
    + unfold is_nul in Hc, Hd. apply Z.eqb_eq in Hc. apply Z.eqb_neq in Hd.
      assert (Hpos : 0 <= char_code d) by (unfold char_code; lia).
      replace (char_code c <? char_code d) with true by (symmetry; apply Z.ltb_lt; lia).
      split; intros H; discriminate.
    + unfold is_nul in Hc, Hd. apply Z.eqb_neq in Hc. apply Z.eqb_eq in Hd.
      assert (Hpos : 0 <= char_code c) by (unfold char_code; lia).
      replace (char_code c <? char_code d) with false by (symmetry; apply Z.ltb_ge; lia).
      replace (char_code d <? char_code c) with true by (symmetry; apply Z.ltb_lt; lia).
      split; intros H; discriminate.
    + destruct (char_code c <? char_code d) eqn:H1.
      { apply Z.ltb_lt in H1. split; intros H; [discriminate|].
        inversion H; subst. lia. }
      destruct (char_code d <? char_code c) eqn:H2.
      { apply Z.ltb_lt in H2. split; intros H; [discriminate|].
        inversion H; subst. lia. }
      apply Z.ltb_ge in H1. apply Z.ltb_ge in H2.
      assert (c = d) by (apply char_code_inj; lia). subst d.
      rewrite IH. split; intros H; [rewrite H; reflexivity | inversion H; reflexivity].
Qed.

Lemma skipn_nth_error : forall (A : Type) (l : list A) n x,
  nth_error l n = Some x -> skipn n l = x :: skipn (S n) l.
Proof.
  intros A l. induction l as [|y l IH]; intros [|n] x H; simpl in *; try discriminate.
  - inversion H. reflexivity.
  - apply IH. exact H.
Qed.

Lemma compare_hosts_spec : forall cmp k n old new,
  (n + k = length old)%nat ->
  length old = length new ->
  Z.of_nat (length new) < SIZE_MODULUS ->
  (compare_hosts cmp k (Z.of_nat n) old new = true <->
   Forall2 (fun h1 h2 => cmp (Some h1) (Some h2) = true) (skipn n old) (skipn n new)).
Proof.
  intros cmp. induction k as [|k IH]; intros n old new Hn Hlen Hsz; simpl.
  - rewrite !skipn_all2 by lia. split; [constructor | reflexivity].
  - destruct (nth_error old n) as [h1|] eqn:H1;
      [|apply nth_error_None in H1; lia].
    destruct (nth_error new n) as [h2|] eqn:H2;
      [|apply nth_error_None in H2; lia].
    assert (E1 : list_element old (Z.of_nat n) = Some h1).
    { unfold list_element. destruct (Z.of_nat n <? 0) eqn:Hneg;
        [apply Z.ltb_lt in Hneg; lia|]. rewrite Nat2Z.id. exact H1. }
    assert (E2 : list_element new (Z.of_nat n) = Some h2).
    { unfold list_element. destruct (Z.of_nat n <? 0) eqn:Hneg;
        [apply Z.ltb_lt in Hneg; lia|]. rewrite Nat2Z.id. exact H2. }
    rewrite E1, E2, (skipn_nth_error _ _ _ _ H1), (skipn_nth_error _ _ _ _ H2).
    replace (wrap_size (Z.of_nat n + 1)) with (Z.of_nat (S n))
      by (unfold wrap_size; rewrite Z.mod_small; lia).
    destruct (cmp (Some h1) (Some h2)) eqn:Hc; simpl.
    + rewrite (IH (S n) old new) by lia.
      split; intros H; [constructor; assumption | inversion H; assumption].
    + split; intros H; [discriminate | inversion H; congruence].
Qed.

Lemma smtp_check_compare_iff : forall cmp a b,
  LIST_SIZE (host (checker_data b)) < SIZE_MODULUS ->
  (smtp_check_compare cmp a b = true <->
   c_str (helo_name (checker_data a)) = c_str (helo_name (checker_data b)) /\
   cmp (checker_co a) (checker_co b) = true /\
   Forall2 (fun h1 h2 => cmp (Some h1) (Some h2) = true)
     (host (checker_data a)) (host (checker_data b))).
Proof.
  intros cmp a b Hsz. unfold LIST_SIZE in Hsz.
  unfold smtp_check_compare, LIST_SIZE. cbv zeta.
  destruct (strcmp (helo_name (checker_data a)) (helo_name (checker_data b)) =? 0) eqn:Hs;
    simpl.
  2:{ apply Z.eqb_neq in Hs. rewrite strcmp_0 in Hs.
      split; [discriminate | tauto]. }
  apply Z.eqb_eq in Hs. rewrite strcmp_0 in Hs.
  destruct (cmp (checker_co a) (checker_co b)) eqn:Hco; simpl.
  2:{ split; [discriminate | intros (_ & H & _); discriminate]. }
  destruct (Z.of_nat (length (host (checker_data a))) =?
            Z.of_nat (length (host (checker_data b)))) eqn:Hl; simpl.
  2:{ apply Z.eqb_neq in Hl. split; [discriminate|].
      intros (_ & _ & H). apply Forall2_length in H. lia. }
  apply Z.eqb_eq in Hl.
  rewrite (compare_hosts_spec cmp (length (host (checker_data b))) 0
             (host (checker_data a)) (host (checker_data b))) by lia.
  simpl. tauto.
Qed.

(** X17.  [smtp_check_compare] answers true exactly when the two HELO
    names are equal as C strings, [compare_conn_opts] accepts the two
    checkers' connection options, and the two host lists have the same
    length and [compare_conn_opts] accepts their elements pairwise, in
    order.  So a configuration compares equal to itself whenever
    [compare_conn_opts] accepts every target against itself. *)
Theorem smtp_check_compare_spec : forall cmp a b,
  LIST_SIZE (host (checker_data b)) < SIZE_MODULUS ->
  (smtp_check_compare cmp a b = true <->
   c_str (helo_name (checker_data a)) = c_str (helo_name (checker_data b)) /\
   cmp (checker_co a) (checker_co b) = true /\
   Forall2 (fun h1 h2 => cmp (Some h1) (Some h2) = true)
     (host (checker_data a)) (host (checker_data b))) /\
  ((forall x, cmp x x = true) -> smtp_check_compare cmp b b = true).
Proof.
  intros cmp a b Hsz. split.
  - apply smtp_check_compare_iff. exact Hsz.
  - intros Hrefl. apply (smtp_check_compare_iff cmp b b Hsz).
    split; [reflexivity|]. split; [apply Hrefl|]. clear Hsz.
    induction (host (checker_data b)) as [|x l IH]; constructor; auto.
Qed.

(** ** Configuration *)

Section ConfigurationProofs.

Variable TIMER_HZ : Z.
Variable SMTP_DEFAULT_HELO : list ascii.
Variable WITH_SO_MARK : bool.
Variable check_conn_opts : full_conn_opts_t -> bool.
Variable checker_set_dst_port : sockaddr_storage -> Z -> sockaddr_storage.
Variable queued_default_co : full_conn_opts_t.

Lemma with_defaults_timeout : forall d co co1,
  TIMER_HZ <> 0 ->
  with_defaults TIMER_HZ checker_set_dst_port d co = Some co1 ->
  co_connection_to co1 <> 0.
Proof.
  intros d co co1 Hhz H. unfold with_defaults in H. cbv zeta in H.
  destruct (if ss_family (co_dst co) =? AF_UNSPEC then _ else _) as [dst1|];
    [|discriminate].
  assert (Hto1 : co_connection_to co1 =
                 if co_connection_to co =? 0 then 5 * TIMER_HZ else co_connection_to co).
  { injection H as <-. reflexivity. }
  rewrite Hto1.
  destruct (co_connection_to co =? 0) eqn:Hto; [lia | apply Z.eqb_neq; exact Hto].
Qed.

Lemma with_defaults_some : forall d co,
  exists co1, with_defaults TIMER_HZ checker_set_dst_port (Some d) co = Some co1.
Proof.
  intros d co. unfold with_defaults. cbv zeta.
  destruct (ss_family (co_dst co) =? AF_UNSPEC); [destruct (negb _)|]; eauto.
Qed.

(** X18.  The end of an SMTP_CHECK block, when the handler returns.  The
    targets added by host blocks stay, in their order.  If one of the
    block's connection components was configured, exactly one target is
    appended, the block's own: its bind address, interface and mark are the
    configured ones, its connection timeout is the configured one, or 5
    seconds if none was given, its destination is the configured one, or
    that of the default target, with the configured port if one was given;
    and [check_conn_opts] accepts it.  If no component was configured,
    nothing is appended to a list that has targets, and the default target
    becomes the only element of an empty list.  So the list is never left
    empty, and an appended target of the block has a connection timeout
    other than 0 (TIMER_HZ is not 0).  The HELO name is the configured one, or the default
    name; [checker->co] and [default_co] are NULL afterwards, and [sav_co]
    and the log are untouched. *)
Theorem smtp_check_end_handler_hosts : forall c c',
  smtp_check_end_handler TIMER_HZ SMTP_DEFAULT_HELO WITH_SO_MARK check_conn_opts
    checker_set_dst_port c = ConfDone c' ->
  (exists co,
     conf_co c = Some co /\
     if component_configured WITH_SO_MARK co then
       exists co1,
         conf_host c' = conf_host c ++ [co1] /\
         check_conn_opts co1 = true /\
         co_bindto co1 = co_bindto co /\
         co_bind_if co1 = co_bind_if co /\
         co_fwmark co1 = co_fwmark co /\
         co_connection_to co1 =
           (if co_connection_to co =? 0 then 5 * TIMER_HZ else co_connection_to co) /\
         (TIMER_HZ <> 0 -> co_connection_to co1 <> 0) /\
         (if ss_family (co_dst co) =? AF_UNSPEC then
            exists d,
              conf_default_co c = Some d /\
              co_dst co1 =
                (if sin_port (co_dst co) =? 0 then co_dst d
                 else checker_set_dst_port (co_dst d) (sin_port (co_dst co)))
          else co_dst co1 = co_dst co)
     else
       match conf_host c with
       | [] => exists d, conf_default_co c = Some d /\ conf_host c' = [d]
       | _ :: _ => conf_host c' = conf_host c
       end) /\
  conf_host c' <> [] /\
  conf_helo_name c' =
    Some (match conf_helo_name c with
          | Some name => name
          | None => c_str SMTP_DEFAULT_HELO ++ [NUL]
          end) /\
  conf_co c' = None /\
  conf_default_co c' = None /\
  conf_sav_co c' = conf_sav_co c /\
  conf_log c' = conf_log c.
Proof.
  intros c c' H. unfold smtp_check_end_handler in H. cbv zeta in H.
  destruct (conf_co c) as [co|]; [|discriminate].
  destruct (component_configured WITH_SO_MARK co) eqn:Hcc.
  - destruct (with_defaults TIMER_HZ checker_set_dst_port (conf_default_co c) co)
      as [co1|] eqn:Hw; [|discriminate].
    destruct (check_conn_opts co1) eqn:Hc; [|discriminate]. simpl in H.
    destruct (conf_host c ++ [co1]) as [|x l] eqn:Happ.
    { destruct (conf_host c); discriminate. }
    assert (Hc' : c' = mk_conf (Some match conf_helo_name c with
                                     | Some name => name
                                     | None => c_str SMTP_DEFAULT_HELO ++ [NUL]
                                     end)
                         (x :: l) None None (conf_sav_co c) (conf_log c)).
    { destruct (conf_helo_name c); destruct (conf_default_co c); congruence. }
    subst c'. simpl.
    split; [|repeat split; discriminate].
    exists co. split; [reflexivity|]. rewrite Hcc. exists co1.
    split; [symmetry; exact Happ|]. split; [exact Hc|]. clear H Happ Hc.
    unfold with_defaults in Hw. cbv zeta in Hw.
    destruct (ss_family (co_dst co) =? AF_UNSPEC).
    + destruct (conf_default_co c) as [d|]; [|discriminate].
      assert (Heq : co1 = mk_full_conn_opts
                (if negb (sin_port (co_dst co) =? 0)
                 then checker_set_dst_port (co_dst d) (sin_port (co_dst co))
                 else co_dst d)
                (co_bindto co) (co_bind_if co) (co_fwmark co)
                (if co_connection_to co =? 0 then 5 * TIMER_HZ else co_connection_to co)).
      { destruct (negb (sin_port (co_dst co) =? 0)); congruence. }
      rewrite Heq at 1 2 3 4. cbn [co_bindto co_bind_if co_fwmark co_connection_to].
      repeat split.
      * intros Hhz. rewrite Heq. cbn [co_connection_to].
        destruct (co_connection_to co =? 0) eqn:Hz; [lia | apply Z.eqb_neq; exact Hz].
      * exists d. split; [reflexivity|]. rewrite Heq. cbn [co_dst].
        destruct (sin_port (co_dst co) =? 0); reflexivity.
    + assert (Heq : co1 = mk_full_conn_opts (co_dst co)
                (co_bindto co) (co_bind_if co) (co_fwmark co)
                (if co_connection_to co =? 0 then 5 * TIMER_HZ else co_connection_to co)).
      { congruence. }
      rewrite Heq at 1 2 3 4. cbn [co_bindto co_bind_if co_fwmark co_connection_to].
      repeat split.
      * intros Hhz. rewrite Heq. cbn [co_connection_to].
        destruct (co_connection_to co =? 0) eqn:Hz; [lia | apply Z.eqb_neq; exact Hz].
      * rewrite Heq. reflexivity.
  - destruct (conf_host c) as [|x l] eqn:Hhost.
    + destruct (conf_default_co c) as [d|]; [|discriminate].
      inversion H; subst. simpl.
      split; [|repeat split; try discriminate; destruct (conf_helo_name c); reflexivity].
      exists co. split; [reflexivity|]. rewrite Hcc. exists d. auto.
    + assert (Hc' : c' = mk_conf (Some match conf_helo_name c with
                                       | Some name => name
                                       | None => c_str SMTP_DEFAULT_HELO ++ [NUL]
                                       end)
                           (x :: l) None None (conf_sav_co c) (conf_log c)).
      { destruct (conf_helo_name c); destruct (conf_default_co c); simpl in H; congruence. }
      subst c'. simpl.
      split; [|repeat split; discriminate].
      exists co. split; [reflexivity|]. rewrite Hcc. reflexivity.
Qed.

Lemma host_block_eq : forall edit c d,
  conf_default_co c = Some d ->
  host_block check_conn_opts edit c =
    ConfDone
      (mk_conf (conf_helo_name c)
         (if negb (check_conn_opts (edit d)) then conf_host c else conf_host c ++ [edit d])
         (conf_co c) (Some d) (conf_co c)
         (conf_log c ++
          ["The SMTP_CHECK host block is deprecated. Please define additional checkers."%string])).
Proof.
  intros edit c d Hd. unfold host_block, smtp_host_handler. rewrite Hd. reflexivity.
Qed.

Lemma host_blocks_gen : forall edits c d,
  conf_default_co c = Some d ->
  exists c',
    host_blocks check_conn_opts edits c = ConfDone c' /\
    conf_host c' = conf_host c ++ filter check_conn_opts (map (fun edit => edit d) edits) /\
    conf_co c' = conf_co c /\
    conf_default_co c' = Some d /\
    conf_helo_name c' = conf_helo_name c.
Proof.
  induction edits as [|edit edits IH]; intros c d Hd; simpl.
  - exists c. rewrite app_nil_r. auto.
  - rewrite (host_block_eq edit c d Hd).
    match goal with |- context [host_blocks _ _ ?x] =>
      destruct (IH x d eq_refl) as (c' & Hrun & Hh & Hco & Hdef & Hhelo) end.
    exists c'. split; [exact Hrun|]. simpl in Hh, Hco, Hhelo.
    rewrite Hh. repeat split; try assumption.
    destruct (check_conn_opts (edit d)); simpl; [|reflexivity].
    rewrite <- app_assoc. reflexivity.
Qed.

(** X19.  Host blocks add their targets in the order of the blocks: each
    block starts from a copy of the default target, and its target is
    appended to the list when [check_conn_opts] accepts it and dropped
    otherwise.  After a block the checker's own connection options are
    again what they were before it, and the default target and the HELO
    name are untouched; each block logs the deprecation notice once. *)
Theorem host_blocks_keep_order : forall edits c d,
  conf_default_co c = Some d ->
  exists c',
    host_blocks check_conn_opts edits c = ConfDone c' /\
    conf_host c' = conf_host c ++ filter check_conn_opts (map (fun edit => edit d) edits) /\
    conf_co c' = conf_co c /\
    conf_default_co c' = Some d /\
    conf_helo_name c' = conf_helo_name c /\
    conf_log c' =
      conf_log c ++
      repeat "The SMTP_CHECK host block is deprecated. Please define additional checkers."%string
        (length edits).
Proof.
  induction edits as [|edit edits IH]; intros c d Hd; simpl.
  - exists c. rewrite !app_nil_r. auto 10.
  - rewrite (host_block_eq edit c d Hd).
    match goal with |- context [host_blocks _ _ ?x] =>
      destruct (IH x d eq_refl) as (c' & Hrun & Hh & Hco & Hdef & Hhelo & Hlog) end.
    exists c'. split; [exact Hrun|]. simpl in Hh, Hco, Hhelo, Hlog.
    rewrite Hh, Hlog, <- app_assoc. repeat split; try assumption.
    destruct (check_conn_opts (edit d)); simpl; [|reflexivity].
    rewrite <- app_assoc. reflexivity.
Qed.

(** X20.  A whole SMTP_CHECK block.  With no connection component
    configured in the block itself, the targets are those of the accepted
    host blocks, in order, or the default target alone when there is none.
    With a component configured and its target, defaults filled in,
    accepted by [check_conn_opts], that target comes last, after the
    targets of the host blocks.  The HELO name is the value of helo_name,
    or the default name.  With a component configured and the target
    rejected, the end handler has the checker dequeued and goes on to use
    it: the block ends in a fault.  A block faults in this case only. *)
Theorem smtp_check_block_targets : forall sav helo main_edit edits,
  let hosts :=
    filter check_conn_opts (map (fun edit => edit queued_default_co) edits) in
  let co := main_edit zero_conn_opts in
  let name :=
    match helo with Some value => value | None => c_str SMTP_DEFAULT_HELO ++ [NUL] end in
  exists co1,
    with_defaults TIMER_HZ checker_set_dst_port (Some queued_default_co) co = Some co1 /\
    match smtp_check_block TIMER_HZ SMTP_DEFAULT_HELO WITH_SO_MARK check_conn_opts
            checker_set_dst_port queued_default_co sav helo main_edit edits with
    | ConfDone c =>
        conf_helo_name c = Some name /\
        conf_host c =
          (if component_configured WITH_SO_MARK co then hosts ++ [co1]
           else match hosts with [] => [queued_default_co] | _ :: _ => hosts end) /\
        (component_configured WITH_SO_MARK co = true -> check_conn_opts co1 = true)
    | ConfFault =>
        component_configured WITH_SO_MARK co = true /\ check_conn_opts co1 = false
    end.
Proof.
  intros sav helo main_edit edits hosts co name.
  destruct (with_defaults_some queued_default_co co) as [co1 Hw].
  exists co1. split; [exact Hw|].
  unfold smtp_check_block. cbv zeta.
  match goal with |- context [host_blocks _ _ ?x] =>
    destruct (host_blocks_gen edits x queued_default_co) as (c3 & Hrun & Hh & Hco & Hdef & Hhelo)
  end.
  { destruct helo; reflexivity. }
  rewrite Hrun.
  assert (Hco3 : conf_co c3 = Some co) by (rewrite Hco; destruct helo; reflexivity).
  assert (Hh3 : conf_host c3 = hosts) by (rewrite Hh; destruct helo; reflexivity).
  assert (Hn3 : conf_helo_name c3 = helo) by (rewrite Hhelo; destruct helo; reflexivity).
  unfold smtp_check_end_handler. cbv zeta. rewrite Hco3, Hdef, Hh3, Hn3.
  fold co. destruct (component_configured WITH_SO_MARK co) eqn:Hcc.
  - rewrite Hw. destruct (check_conn_opts co1) eqn:Hc; simpl; [|auto].
    destruct (hosts ++ [co1]) as [|x l] eqn:Happ.
    { destruct hosts; discriminate. }
    simpl. subst name. destruct helo; auto.
  - destruct hosts as [|x l]; simpl; subst name; destruct helo; repeat split; auto;
      discriminate.
Qed.

End ConfigurationProofs.

(** ** The socket of an attempt *)

Lemma closed_app : forall tr1 tr2, closed (tr1 ++ tr2) = closed tr1 ++ closed tr2.
Proof.
  induction tr1 as [|e tr1 IH]; intros tr2; [reflexivity|].
  destruct e; simpl; rewrite IH; reflexivity.
Qed.

Ltac socket_done :=
  unfold ends_or_waits in *;
  rewrite ?registered_app, ?closed_app; simpl;
  match goal with
  | H : _ \/ _ |- _ =>
      destruct H as [[Hr Hc]|(f & Hr & Hf & Hc)]; rewrite Hr, Hc;
      [left; split; reflexivity | right; exists f; auto]
  | |- _ => first [ left; split; reflexivity
                  | right; eexists; split; [reflexivity|]; split; [discriminate|reflexivity] ]
  end.

Lemma smtp_final_closes : forall thread error format args w,
  runs True (smtp_final thread error format args)
    (fun _ _ tr => ends_or_waits thread tr) w.
Proof.
  intros thread error format args w.
  unfold smtp_final. runs_run. all: socket_done.
Qed.

Lemma smtp_get_line_closes : forall thread callback w,
  runs True (smtp_get_line thread callback)
    (fun _ _ tr => ends_or_waits thread tr) w.
Proof.
  intros thread callback w.
  unfold smtp_get_line. runs_run. all: socket_done.
Qed.

Lemma smtp_put_line_closes : forall thread callback w,
  runs True (smtp_put_line thread callback)
    (fun _ _ tr => ends_or_waits thread tr) w.
Proof.
  intros thread callback w.
  unfold smtp_put_line. runs_run. all: socket_done.
Qed.

Lemma smtp_engine_thread_closes : forall thread w,
  runs True (smtp_engine_thread thread)
    (fun _ _ tr => ends_or_waits thread tr) w.
Proof.
  intros thread w.
  unfold smtp_engine_thread. runs_run.
  all: first [ runs_call smtp_final_closes | runs_call smtp_get_line_closes
             | runs_call smtp_put_line_closes ].
  all: socket_done.
Qed.

Lemma call_buff_cb_closes : forall thread w,
  runs True (call_buff_cb thread)
    (fun _ _ tr => ends_or_waits thread tr) w.
Proof.
  intros thread w.
  unfold call_buff_cb. runs_run.
  all: runs_call smtp_engine_thread_closes.
  all: socket_done.
Qed.

(** X21.  The callbacks of an attempt close the socket exactly when they
    end the attempt: a wake-up of the connection handler or of an I/O
    callback that leaves the connect orchestrator pending has closed the
    descriptor it was woken for, once, and one that registers an I/O wait
    has closed nothing.  The connect orchestrator closes only a socket it
    has just opened and whose connection handler was refused. *)
Theorem attempt_end_closes_socket : forall thread cb w w' tr,
  run_callback thread cb w = Done tt w' tr ->
  match cb with
  | CbConnect sd _ refused =>
      closed tr = [] \/ (refused = true /\ sd <> -1 /\ closed tr = [sd])
  | _ =>
      (registered tr = [fn_smtp_connect_thread] /\ closed tr = [u_fd thread]) \/
      (exists f, registered tr = [f] /\ f <> fn_smtp_connect_thread /\ closed tr = [])
  end.
Proof.
  intros thread cb w w' tr Hrun.
  assert (Hgoal : runs True (run_callback thread cb)
            (fun _ _ tr =>
               match cb with
               | CbConnect sd _ refused =>
                   closed tr = [] \/ (refused = true /\ sd <> -1 /\ closed tr = [sd])
               | _ => ends_or_waits thread tr
               end) w).
  { destruct cb as [sd status refused|status|rd|wr]; simpl.
    - unfold smtp_connect_thread. runs_run.
      all: rewrite ?closed_app; simpl; auto.
      right. repeat split; auto. apply Z.eqb_neq. assumption.
    - unfold smtp_check_thread. runs_run.
      all: first [ runs_call smtp_final_closes | runs_call smtp_engine_thread_closes ].
      all: socket_done.
    - unfold smtp_get_line_cb. runs_run.
      all: first [ runs_call smtp_final_closes | runs_call call_buff_cb_closes | idtac ].
      all: socket_done.
    - unfold smtp_put_line_cb. runs_run.
      all: first [ runs_call smtp_final_closes | runs_call call_buff_cb_closes | idtac ].
      all: socket_done. }
  exact (runs_done _ _ _ _ _ _ _ _ Hgoal Hrun).
Qed.

End Proofs.

(** * The concrete setting *)

Lemma example_env_ok : env_ok example_env.
Proof.
  split.
  - unfold SIZE_MODULUS. simpl. lia.
  - simpl. repeat constructor; simpl; intuition lia.
Qed.

Lemma example_world_initial : initial (E:=example_env) example_world.
Proof. repeat split; reflexivity. Qed.

(** The dialogue of the specification: after a 220 greeting the engine
    sends "HELO probe\r\n", after a 250 reply it sends "QUIT\r\n", and after
    the reply to QUIT it calls the final handler with success, which moves
    to the next target. *)
Lemma dialogue_round_trip :
  exists w',
    run_callbacks (E:=example_env) dialogue example_world =
      Done tt w'
        [EvSocket 2;
         EvTcpBindConnect 7 example_host;
         EvTcpConnectionState 7 connect_in_progress fn_smtp_check_thread 5000;
         EvTcpSocketState fn_smtp_check_thread;
         EvThreadAddRead fn_smtp_get_line_cb 7 5000; EvThreadDelWrite;
         EvRead 7 512;
         EvThreadAddWrite fn_smtp_put_line_cb 7 5000; EvThreadDelRead;
         EvWrite 7 (line "HELO probe");
         EvThreadAddRead fn_smtp_get_line_cb 7 5000; EvThreadDelWrite;
         EvRead 7 512;
         EvThreadAddWrite fn_smtp_put_line_cb 7 5000; EvThreadDelRead;
         EvWrite 7 (line "QUIT");
         EvThreadAddRead fn_smtp_get_line_cb 7 5000; EvThreadDelWrite;
         EvRead 7 512;
         EvClose 7; EvThreadAddTimer fn_smtp_connect_thread 1] /\
    checker w' = example_checker /\
    host_ctr (smtp_checker w') = 1.
Proof.
  eexists. split; [vm_compute; reflexivity|]. split; reflexivity.
Qed.

(** A server that sends 512 bytes without a newline fills the buffer; the
    read that follows asks for 0 bytes, and the attempt ends as a read
    failure that is counted against the target. *)
Lemma flood_fills_the_buffer :
  exists tr,
    run_callbacks (E:=example_env) (removelast flood) example_world =
      Done tt full_buffer_world tr.
Proof. eexists. vm_compute. reflexivity. Qed.

Lemma flood_is_a_read_failure :
  run_callbacks (E:=example_env) flood example_world =
    Done tt flooded_world
      [EvSocket 2;
       EvTcpBindConnect 7 example_host;
       EvTcpConnectionState 7 connect_in_progress fn_smtp_check_thread 5000;
       EvTcpSocketState fn_smtp_check_thread;
       EvThreadAddRead fn_smtp_get_line_cb 7 5000; EvThreadDelWrite;
       EvRead 7 512;
       EvThreadAddRead fn_smtp_get_line_cb 7 5000;
       EvRead 7 0;
       EvClose 7;
       EvLog "SMTP_CHECK Read failure from server %s" [example_host];
       EvThreadAddTimer fn_smtp_connect_thread 1000].
Proof. vm_compute. reflexivity. Qed.

Lemma full_buffer_world_reachable : reachable (E:=example_env) full_buffer_world.
Proof.
  destruct flood_fills_the_buffer as [tr Hrun].
  eapply run_callbacks_reachable; [|exact Hrun].
  apply reachable_initial. apply example_world_initial.
Qed.

Lemma flooded_world_reachable : reachable (E:=example_env) flooded_world.
Proof.
  eapply run_callbacks_reachable; [|exact flood_is_a_read_failure].
  apply reachable_initial. apply example_world_initial.
Qed.

(** ** The theorems at concrete inputs *)

(** C2 at the full buffer the flood leaves. *)
Lemma smtp_get_line_cb_full_buffer_witness :
  buff_ctr (smtp_checker full_buffer_world) = 512 /\
  has_newline (E:=example_env) (buff (smtp_checker full_buffer_world)) = false /\
  smtp_get_line_cb (E:=example_env) (example_thread THREAD_READ) (ReadBytes [])
    full_buffer_world =
    (emit (EvRead 7 0) ;;
     smtp_final (E:=example_env) (example_thread THREAD_READ) true
       (Some "Read failure from server %s"%string) [example_host]) full_buffer_world.
Proof.
  split; [reflexivity|]. split; [vm_compute; reflexivity|].
  apply (smtp_get_line_cb_full_buffer (E:=example_env)
           (example_thread THREAD_READ) [] full_buffer_world example_host).
  - discriminate.
  - reflexivity.
  - reflexivity.
  - vm_compute. reflexivity.
Defined.

(** C3 at a checker that is up: the third failed attempt, and the cycle of
    three failed attempts, call DOWN once. *)
Lemma smtp_final_retries_exhausted_witness :
  (exists w' tr,
     smtp_final (E:=example_env) (example_thread THREAD_READ) true None []
       last_try_world = Done tt w' tr /\
     transitions DOWN tr = 1%nat /\ alerts tr = 1%nat /\
     retry_it (checker w') = 0 /\ host_ctr (smtp_checker w') = 0) /\
  (exists w' tr,
     run_attempts (E:=example_env) (example_thread THREAD_TIMER)
       [failed_attempt; failed_attempt; failed_attempt] example_world = Done tt w' tr /\
     transitions DOWN tr = 1%nat /\ transitions UP tr = 0%nat /\
     retry_it (checker w') = 0 /\ host_ctr (smtp_checker w') = 0).
Proof.
  destruct (smtp_final_retries_exhausted (E:=example_env)) as [Hstep Hcycle].
  split.
  - destruct (Hstep (example_thread THREAD_READ) None [] last_try_world)
      as (tr & Hrun & Hd & _ & Ha & _).
    { vm_compute. intros H. discriminate H. }
    eexists. exists tr. split; [exact Hrun|].
    split; [exact Hd|]. split; [exact Ha|]. split; reflexivity.
  - destruct (Hcycle (example_thread THREAD_TIMER)
                [failed_attempt; failed_attempt; failed_attempt]
                example_world example_host)
      as (w' & tr & Hrun & Hd & Hu & _ & _ & Hr & Hc).
    { repeat constructor; discriminate. }
    { reflexivity. }
    { reflexivity. }
    { reflexivity. }
    { vm_compute. split; [intros H; discriminate H | reflexivity]. }
    { reflexivity. }
    exists w', tr. auto.
Defined.

(** C4 at a checker with retries left, and at the memory the flood ends
    in. *)
Lemma smtp_final_retries_remain_witness :
  smtp_final (E:=example_env) (example_thread THREAD_READ) true None [] example_world =
    Done tt
      (mk_world (set_retry_it 1 example_checker) (smtp_checker example_world) false)
      [EvClose 7; EvLog "SMTP_CHECK Unknown error" [];
       EvThreadAddTimer fn_smtp_connect_thread 1000] /\
  (retry_it (checker flooded_world) = 0 \/
   0 <= retry_it (checker flooded_world) < retry (checker flooded_world)).
Proof.
  destruct (smtp_final_retries_remain (E:=example_env) example_env_ok) as [Hstep Hinv].
  split.
  - apply (Hstep (example_thread THREAD_READ) None [] example_world).
    vm_compute. reflexivity.
  - apply Hinv. exact flooded_world_reachable.
Defined.

(** C5 (as amended) at a checker that has never run: past the end of the
    list, and after a cycle in which the first target fails once and passes
    when it is retried.  And a failed attempt against the second target:
    the index stays at 1 while retries remain, and goes back to 0 with the
    last retry. *)
Lemma smtp_connect_thread_end_of_list_witness :
  (exists w' tr,
     smtp_connect_thread (E:=example_env) (example_thread THREAD_TIMER) 7
       connect_in_progress false end_of_list_world = Done tt w' tr /\
     transitions UP tr = 1%nat /\ transitions DOWN tr = 0%nat /\ alerts tr = 1%nat) /\
  (exists w1 tr1 w2 tr2,
     run_attempts (E:=example_env) (example_thread THREAD_TIMER)
       [failed_attempt; passed_attempt; passed_attempt] fresh_world = Done tt w1 tr1 /\
     (forall st, transitions st tr1 = 0%nat) /\
     smtp_connect_thread (E:=example_env) (example_thread THREAD_TIMER) 7
       connect_in_progress false w1 = Done tt w2 tr2 /\
     transitions UP tr2 = 1%nat /\ transitions DOWN tr2 = 0%nat /\
     host_ctr (smtp_checker w2) = 0) /\
  (exists w' tr,
     run_attempt (E:=example_env) (example_thread THREAD_TIMER) failed_attempt
       (mk_world example_checker (set_host_ctr 1 (smtp_checker example_world)) false) =
       Done tt w' tr /\
     transitions UP tr = 0%nat /\ host_ctr (smtp_checker w') = 1) /\
  (exists w' tr,
     run_attempt (E:=example_env) (example_thread THREAD_TIMER) failed_attempt
       (mk_world (set_retry_it 2 example_checker)
          (set_host_ctr 1 (smtp_checker example_world)) false) =
       Done tt w' tr /\
     transitions UP tr = 0%nat /\ host_ctr (smtp_checker w') = 0).
Proof.
  destruct (smtp_connect_thread_end_of_list (E:=example_env)) as (Hstep & Hcycle & Hfail).
  split; [|split; [|split]].
  - destruct (Hstep (example_thread THREAD_TIMER) 7 connect_in_progress false
                end_of_list_world)
      as (tr & Hrun & Hu & Hd & Ha & _).
    { reflexivity. }
    { reflexivity. }
    eexists. exists tr. split; [exact Hrun|]. auto.
  - destruct (Hcycle (example_thread THREAD_TIMER)
                [failed_attempt; passed_attempt; passed_attempt]
                (example_thread THREAD_TIMER) 7 connect_in_progress false fresh_world)
      as (w1 & tr1 & w2 & tr2 & Hrun1 & Ht1 & _ & Hrun2 & Hu & Hd & _ & Hc).
    { reflexivity. }
    { repeat constructor; discriminate. }
    { reflexivity. }
    { reflexivity. }
    { reflexivity. }
    { vm_compute. intros H. discriminate H. }
    { vm_compute. reflexivity. }
    exists w1, tr1, w2, tr2. auto 10.
  - destruct (Hfail (example_thread THREAD_TIMER) failed_attempt
                (mk_world example_checker (set_host_ctr 1 (smtp_checker example_world)) false)
                example_host2)
      as (w' & tr & Hrun & Hu & _ & Hc).
    { reflexivity. }
    { reflexivity. }
    { discriminate. }
    { reflexivity. }
    exists w', tr. split; [exact Hrun|]. split; [exact Hu|]. rewrite Hc. reflexivity.
  - destruct (Hfail (example_thread THREAD_TIMER) failed_attempt
                (mk_world (set_retry_it 2 example_checker)
                   (set_host_ctr 1 (smtp_checker example_world)) false)
                example_host2)
      as (w' & tr & Hrun & Hu & _ & Hc).
    { reflexivity. }
    { reflexivity. }
    { discriminate. }
    { reflexivity. }
    exists w', tr. split; [exact Hrun|]. split; [exact Hu|]. rewrite Hc. reflexivity.
Defined.

(** C5 as first stated fails when a target fails.  With the first of two
    targets failing every attempt the retry limit allows, the engine does
    not advance to the second target: it requests DOWN, goes back to index
    0 and probes the first target again, and the second target is probed
    only once the first has passed.  And when the first target fails once
    and passes when it is retried, then the second passes, the checker
    being up, neither the cycle nor the orchestrator's run past the end of
    the list requests UP. *)
Lemma failed_target_is_not_skipped :
  (exists w tr,
     run_attempts (E:=example_env) (example_thread THREAD_TIMER)
       [failed_attempt; failed_attempt; failed_attempt] example_world = Done tt w tr /\
     transitions DOWN tr = 1%nat /\
     host_ctr (smtp_checker w) = 0 /\
     probed tr = [example_host; example_host; example_host] /\
     probed
       (trace_of
          (run_attempts (E:=example_env) (example_thread THREAD_TIMER)
             [passed_attempt; passed_attempt] w)) = [example_host; example_host2]) /\
  (exists w tr,
     (run_attempts (E:=example_env) (example_thread THREAD_TIMER)
        [failed_attempt; passed_attempt; passed_attempt] ;;
      smtp_connect_thread (E:=example_env) (example_thread THREAD_TIMER) 7
        connect_in_progress false) example_world = Done tt w tr /\
     probed tr = [example_host; example_host; example_host2] /\
     last tr (EvClose 0) = EvThreadAddTimer fn_smtp_connect_thread 10000 /\
     transitions UP tr = 0%nat /\
     transitions DOWN tr = 0%nat /\
     host_ctr (smtp_checker w) = 0).
Proof.
  split.
  - destruct (run_attempts (E:=example_env) (example_thread THREAD_TIMER)
                [failed_attempt; failed_attempt; failed_attempt] example_world)
      as [[] w tr|tr] eqn:Hrun; [|vm_compute in Hrun; discriminate Hrun].
    exists w, tr. split; [reflexivity|].
    vm_compute in Hrun. injection Hrun as <- <-.
    vm_compute. repeat split; reflexivity.
  - destruct ((run_attempts (E:=example_env) (example_thread THREAD_TIMER)
                 [failed_attempt; passed_attempt; passed_attempt] ;;
               smtp_connect_thread (E:=example_env) (example_thread THREAD_TIMER) 7
                 connect_in_progress false) example_world)
      as [[] w tr|tr] eqn:Hrun; [|vm_compute in Hrun; discriminate Hrun].
    exists w, tr. split; [reflexivity|].
    vm_compute in Hrun. injection Hrun as <- <-.
    vm_compute. repeat split; reflexivity.
Qed.

(** C6 at the first target. *)
Lemma smtp_final_success_witness :
  smtp_final (E:=example_env) (example_thread THREAD_READ) false None [] example_world =
    Done tt
      (mk_world example_checker
         (set_host_ctr 1 (smtp_checker example_world)) false)
      [EvClose 7; EvThreadAddTimer fn_smtp_connect_thread 1].
Proof.
  apply (smtp_final_success (E:=example_env) (example_thread THREAD_READ) None []
           example_world).
  vm_compute. split; [intros H; discriminate H | reflexivity].
Defined.

(** C7 (as amended) with the banner received: the engine asks for
    "HELO probe\r\n" to be sent. *)
Lemma smtp_engine_thread_step_order_witness :
  exists w',
    smtp_engine_thread (E:=example_env) (example_thread THREAD_READ) banner_world =
      Done tt w'
        [EvThreadAddWrite fn_smtp_put_line_cb 7 5000; EvThreadDelRead] /\
    state (smtp_checker w') = 3 /\
    outbound (smtp_checker w') = line "HELO probe".
Proof.
  destruct (smtp_engine_thread_step_order (E:=example_env) example_env_ok
              (example_thread THREAD_READ) banner_world example_host)
    as (_ & _ & Hhelo & _).
  { reflexivity. }
  { vm_compute. reflexivity. }
  destruct Hhelo as (w' & Hrun & Hsend).
  { reflexivity. }
  { vm_compute. reflexivity. }
  exists w'. split; [exact Hrun|].
  destruct Hsend as (_ & _ & _ & _ & _ & Hst & _ & _ & Hout).
  split; [exact Hst|]. rewrite Hout. vm_compute. reflexivity.
Defined.

(** C7 as first stated fails for a HELO name of 510 bytes: the banner is
    accepted, and what is handed to [write] is not the HELO line, which has
    517 bytes, but its first 511 bytes. *)
Lemma helo_line_cut_short :
  state (smtp_checker long_name_world) = SMTP_HAVE_BANNER (check_env := example_env) /\
  smtp_get_status (smtp_checker long_name_world) = 220 /\
  sent_lines
    (trace_of
       ((smtp_engine_thread (E:=example_env) (example_thread THREAD_READ) ;;
         smtp_put_line_cb (E:=example_env) (example_thread THREAD_WRITE) (Wrote 511))
          long_name_world)) <>
    [helo_line (helo_name (smtp_checker long_name_world))].
Proof.
  split; [reflexivity|]. split; [vm_compute; reflexivity|].
  intros H. apply (f_equal (map (@length ascii))) in H.
  vm_compute in H. discriminate H.
Qed.

(** C8 when [socket] fails. *)
Lemma smtp_connect_thread_local_failures_witness :
  smtp_connect_thread (E:=example_env) (example_thread THREAD_TIMER) (-1)
    connect_error false example_world =
    Done tt
      (mk_world example_checker
         (set_host_ptr (Some example_host) (smtp_checker example_world)) false)
      [EvSocket 2;
       EvLog "SMTP_CHECK connection failed to create socket. Rescheduling." [];
       EvThreadAddTimer fn_smtp_connect_thread 10000].
Proof.
  apply (smtp_connect_thread_local_failures (E:=example_env)
           (example_thread THREAD_TIMER) (-1) connect_error false
           example_world example_host).
  - reflexivity.
  - reflexivity.
  - left. reflexivity.
Defined.

(** C9 in the middle of an attempt: the read wait and the write wait are
    registered with the 5000 of the current target. *)
Lemma io_waits_use_connection_to_witness :
  io_wait_timeouts
    (trace_of (smtp_get_line (E:=example_env) (example_thread THREAD_WRITE)
                 fn_smtp_engine_thread banner_world)) = [5000] /\
  io_wait_timeouts
    (trace_of (smtp_put_line (E:=example_env) (example_thread THREAD_READ)
                 fn_smtp_engine_thread banner_world)) = [5000].
Proof.
  destruct (io_waits_use_connection_to (E:=example_env)
              (example_thread THREAD_WRITE) fn_smtp_engine_thread
              (ReadBytes []) (Wrote 1) connect_success banner_world)
    as (_ & _ & _ & _ & _ & Hfirst).
  destruct (Hfirst example_host) as (Hget & _).
  { reflexivity. }
  destruct (io_waits_use_connection_to (E:=example_env)
              (example_thread THREAD_READ) fn_smtp_engine_thread
              (ReadBytes []) (Wrote 1) connect_success banner_world)
    as (_ & _ & _ & _ & _ & Hfirst').
  destruct (Hfirst' example_host) as (_ & Hput & _).
  { reflexivity. }
  split; [exact Hget | exact Hput].
Defined.

(** C10 at the full buffer the flood leaves: the cursor has reached
    SMTP_BUFF_MAX and the guard is false. *)
Lemma buff_ctr_within_buffer_witness :
  buff_ctr (smtp_checker full_buffer_world) <= 512 /\
  (buff_ctr (smtp_checker full_buffer_world) >? 512) = false.
Proof.
  destruct (buff_ctr_within_buffer (E:=example_env) example_env_ok)
    as (_ & _ & _ & Hreach).
  exact (Hreach full_buffer_world full_buffer_world_reachable).
Defined.

(** ** The further properties at concrete inputs *)

Lemma greeting_wait_world_scheduled :
  scheduled (E:=example_env) greeting_wait_world fn_smtp_get_line_cb.
Proof.
  eapply (scheduled_step (E:=example_env) _ fn_smtp_check_thread
            (example_thread THREAD_WRITE) (CbCheck connect_success)).
  - eapply (scheduled_step (E:=example_env) example_world fn_smtp_connect_thread
              (example_thread THREAD_TIMER) (CbConnect 7 connect_in_progress false)).
    + apply scheduled_initial. exact example_world_initial.
    + reflexivity.
    + vm_compute. reflexivity.
    + reflexivity.
  - reflexivity.
  - vm_compute. reflexivity.
  - reflexivity.
Qed.

(** X1 when the greeting arrives: the read callback leaves the write
    callback pending. *)
Lemma wakeup_leaves_one_pending_witness :
  exists w' tr f',
    run_callback (E:=example_env) (example_thread THREAD_READ)
      (CbGetLine (ReadBytes (line "220 mail.example.com"))) greeting_wait_world =
      Done tt w' tr /\
    next_wakeups (CbGetLine (ReadBytes (line "220 mail.example.com"))) tr = [f'] /\
    follows fn_smtp_get_line_cb f'.
Proof.
  destruct (run_callback (E:=example_env) (example_thread THREAD_READ)
              (CbGetLine (ReadBytes (line "220 mail.example.com"))) greeting_wait_world)
    as [[] w' tr|tr] eqn:Hrun; [|vm_compute in Hrun; discriminate Hrun].
  destruct (wakeup_leaves_one_pending (E:=example_env) _ _ _ _ _ Hrun) as (f' & Hn & Hf).
  exists w', tr, f'. auto.
Defined.

(** X2 when the greeting arrives. *)
Lemma callbacks_keep_configuration_witness :
  exists w' tr,
    run_callback (E:=example_env) (example_thread THREAD_READ)
      (CbGetLine (ReadBytes (line "220 mail.example.com"))) greeting_wait_world =
      Done tt w' tr /\
    helo_name (smtp_checker w') = list_ascii_of_string "probe" /\
    host (smtp_checker w') = [example_host; example_host2] /\
    host_ptr (smtp_checker w') = Some example_host.
Proof.
  destruct (run_callback (E:=example_env) (example_thread THREAD_READ)
              (CbGetLine (ReadBytes (line "220 mail.example.com"))) greeting_wait_world)
    as [[] w' tr|tr] eqn:Hrun; [|vm_compute in Hrun; discriminate Hrun].
  destruct (callbacks_keep_configuration (E:=example_env) _ _ _ _ _ Hrun)
    as (H1 & H2 & _ & H4).
  exists w', tr. split; [reflexivity|].
  split; [exact H1|]. split; [exact H2|]. apply H4. discriminate.
Defined.

(** X3 while the greeting is awaited: the read callback returns, whatever
    [read] answers. *)
Lemma scheduled_wakeups_return_witness :
  exists w' tr,
    run_callback (E:=example_env) (example_thread THREAD_READ_TIMEOUT)
      (CbGetLine (ReadError EOTHER)) greeting_wait_world = Done tt w' tr.
Proof.
  apply (scheduled_wakeups_return (E:=example_env) greeting_wait_world fn_smtp_get_line_cb).
  - exact greeting_wait_world_scheduled.
  - reflexivity.
Defined.

(** X4 while the greeting is awaited. *)
Lemma scheduled_target_in_range_witness :
  0 <= host_ctr (smtp_checker greeting_wait_world) <= 2 /\
  (fn_smtp_get_line_cb <> fn_smtp_connect_thread ->
   exists h,
     host_ptr (smtp_checker greeting_wait_world) = Some h /\
     list_element (host (smtp_checker greeting_wait_world))
       (host_ctr (smtp_checker greeting_wait_world)) = Some h).
Proof.
  apply (scheduled_target_in_range (E:=example_env) greeting_wait_world fn_smtp_get_line_cb).
  - exact greeting_wait_world_scheduled.
  - vm_compute. reflexivity.
Defined.

(** X5 at the third connection error in a row: one DOWN transition. *)
Lemma wakeup_decides_at_most_once_witness :
  exists w' tr,
    run_callback (E:=example_env) (example_thread THREAD_WRITE) (CbCheck connect_error)
      last_try_attempt_world = Done tt w' tr /\
    (transitions UP tr + transitions DOWN tr <= 1)%nat /\
    (alerts tr <= transitions UP tr + transitions DOWN tr)%nat /\
    transitions UP tr = 0%nat.
Proof.
  destruct (run_callback (E:=example_env) (example_thread THREAD_WRITE)
              (CbCheck connect_error) last_try_attempt_world)
    as [[] w' tr|tr] eqn:Hrun; [|vm_compute in Hrun; discriminate Hrun].
  destruct (wakeup_decides_at_most_once (E:=example_env) _ _ _ _ _ Hrun)
    as (H1 & H2 & H3 & _).
  exists w', tr. auto.
Defined.

(** X7 at the buffer that holds the greeting. *)
Lemma smtp_get_status_within_buffer_witness :
  let b := store (buff (smtp_checker banner_world)) 511 NUL in
  0 <= snd (strtoul b) <= strlen b /\ strlen b <= 511.
Proof.
  apply (smtp_get_status_within_buffer (E:=example_env) (buff (smtp_checker banner_world))).
  - vm_compute. reflexivity.
  - vm_compute. reflexivity.
Defined.

(** X8 with the current target set. *)
Lemma smtp_check_thread_outcomes_witness :
  smtp_check_thread (E:=example_env) (example_thread THREAD_WRITE) connect_success
    last_try_attempt_world =
    Done tt (receiving (E:=example_env) last_try_attempt_world 2)
      [EvTcpSocketState fn_smtp_check_thread;
       EvThreadAddRead fn_smtp_get_line_cb 7 5000;
       EvThreadDelWrite].
Proof.
  destruct (smtp_check_thread_outcomes (E:=example_env) (example_thread THREAD_WRITE)
              last_try_attempt_world example_host)
    as (_ & _ & _ & H).
  { reflexivity. }
  exact H.
Defined.

(** X9 on a read timeout while the greeting is awaited. *)
Lemma io_errors_end_the_attempt_witness :
  smtp_get_line_cb (E:=example_env) (example_thread THREAD_READ_TIMEOUT) (ReadBytes [])
    greeting_wait_world =
    smtp_final (E:=example_env) (example_thread THREAD_READ_TIMEOUT) true
      (Some "Read timeout from server %s"%string) [example_host] greeting_wait_world.
Proof.
  destruct (io_errors_end_the_attempt (E:=example_env) (example_thread THREAD_READ_TIMEOUT)
              greeting_wait_world example_host)
    as (H & _).
  { reflexivity. }
  apply H. reflexivity.
Defined.

(** X10 on EAGAIN while the greeting is awaited. *)
Lemma would_block_waits_again_witness :
  smtp_get_line_cb (E:=example_env) (example_thread THREAD_READ) (ReadError EAGAIN)
    greeting_wait_world =
    Done tt greeting_wait_world
      [EvRead 7 512; EvThreadAddRead fn_smtp_get_line_cb 7 5000].
Proof.
  destruct (would_block_waits_again (E:=example_env) (example_thread THREAD_READ)
              greeting_wait_world example_host EAGAIN)
    as (H & _).
  { reflexivity. }
  { reflexivity. }
  apply H.
  - discriminate.
  - vm_compute. intros Hgt. discriminate Hgt.
Defined.

(** X11 when the first four bytes of the greeting arrive alone. *)
Lemma partial_line_is_kept_witness :
  smtp_get_line_cb (E:=example_env) (example_thread THREAD_READ)
    (ReadBytes (list_ascii_of_string "220 ")) greeting_wait_world =
    Done tt (example_attempt (list_ascii_of_string "probe") 2 (list_ascii_of_string "220 ") 4)
      [EvRead 7 512; EvThreadAddRead fn_smtp_get_line_cb 7 5000].
Proof.
  apply (partial_line_is_kept (E:=example_env) (example_thread THREAD_READ)
           greeting_wait_world example_host (list_ascii_of_string "220 ")).
  - reflexivity.
  - discriminate.
  - vm_compute. intros Hgt. discriminate Hgt.
  - vm_compute. discriminate.
  - vm_compute. reflexivity.
Defined.

(** X12 for a greeting that arrives in two pieces. *)
Lemma received_app_witness :
  received (E:=example_env)
    (received (E:=example_env) (smtp_checker greeting_wait_world)
       (list_ascii_of_string "220 "))
    (line "mail.example.com") =
  received (E:=example_env) (smtp_checker greeting_wait_world)
    (list_ascii_of_string "220 " ++ line "mail.example.com").
Proof.
  apply (received_app (E:=example_env)).
  - vm_compute. split; reflexivity.
  - vm_compute. split; intros H; discriminate H.
Defined.

(** X13 for the dialogue of the specification. *)
Lemma session_passes_witness :
  exists w' tr,
    run_callbacks (E:=example_env)
      (session 7 (line "220 mail.example.com") (line "250 Hello") (line "221 Bye") 12 6)
      last_try_attempt_world = Done tt w' tr /\
    sent_lines tr = [line "HELO probe"; line "QUIT"] /\
    retry_it (checker w') = 0 /\
    host_ctr (smtp_checker w') = 1.
Proof.
  destruct (session_passes (E:=example_env) example_env_ok) with
    (fd := 7) (w := last_try_attempt_world) (h := example_host)
    (l1 := line "220 mail.example.com") (l2 := line "250 Hello") (l3 := line "221 Bye")
    (k1 := 12) (k2 := 6)
    as (w' & tr & Hrun & Hsent & _ & _ & _ & Hc & _ & Hctr).
  { vm_compute. reflexivity. }
  { reflexivity. }
  { vm_compute. reflexivity. }
  { vm_compute. reflexivity. }
  { vm_compute. reflexivity. }
  { vm_compute. reflexivity. }
  { vm_compute. reflexivity. }
  { reflexivity. }
  { reflexivity. }
  exists w', tr. split; [exact Hrun|].
  split; [rewrite Hsent; vm_compute; reflexivity|].
  split; [rewrite Hc; reflexivity|].
  rewrite Hctr. vm_compute. reflexivity.
Defined.

(** X14 for a server that greets with 554. *)
Lemma session_rejects_bad_replies_witness :
  exists w1,
    smtp_get_line_cb (E:=example_env) (mk_thread THREAD_READ 7)
      (ReadBytes (line "554 No service")) greeting_wait_world =
      (emit (EvRead 7 512) ;;
       smtp_final (E:=example_env) (mk_thread THREAD_READ 7) true
         (Some "Bad greeting banner from server %s"%string) [example_host]) w1 /\
    health_view w1 = health_view greeting_wait_world.
Proof.
  destruct (session_rejects_bad_replies (E:=example_env) example_env_ok) with
    (fd := 7) (w0 := greeting_wait_world) (h := example_host) (st := 2)
    (l := line "554 No service")
    as (w1 & Hrun & Hv).
  { vm_compute. reflexivity. }
  { reflexivity. }
  { vm_compute. reflexivity. }
  { left. split; [reflexivity|]. vm_compute. intros H. discriminate H. }
  exists w1. split; [exact Hrun | exact Hv].
Defined.

(** X15 for three wake-ups of a disabled checker. *)
Lemma disabled_checker_idles_witness :
  run_callbacks (E:=example_env)
    [(example_thread THREAD_TIMER, CbConnect 7 connect_success false);
     (example_thread THREAD_TIMER, CbConnect (-1) connect_error true);
     (example_thread THREAD_TIMER, CbConnect 8 connect_in_progress false)]
    disabled_world =
    Done tt disabled_world
      [EvThreadAddTimer fn_smtp_connect_thread 10000;
       EvThreadAddTimer fn_smtp_connect_thread 10000;
       EvThreadAddTimer fn_smtp_connect_thread 10000].
Proof.
  apply (disabled_checker_idles (E:=example_env)).
  - reflexivity.
  - repeat constructor.
Defined.

(** X16 at the first target. *)
Lemma attempt_starts_on_current_target_witness :
  run_callbacks (E:=example_env)
    [(example_thread THREAD_TIMER, CbConnect 7 connect_in_progress false);
     (example_thread THREAD_WRITE, CbCheck connect_success)] example_world =
    Done tt greeting_wait_world
      [EvSocket 2; EvTcpBindConnect 7 example_host;
       EvTcpConnectionState 7 connect_in_progress fn_smtp_check_thread 5000;
       EvTcpSocketState fn_smtp_check_thread;
       EvThreadAddRead fn_smtp_get_line_cb 7 5000;
       EvThreadDelWrite].
Proof.
  apply (attempt_starts_on_current_target (E:=example_env)
           (example_thread THREAD_TIMER) (example_thread THREAD_WRITE) 7
           connect_in_progress example_world example_host).
  - reflexivity.
  - reflexivity.
  - discriminate.
Defined.

(** X17 for two configurations that differ in the HELO name, and for a
    configuration against itself. *)
Lemma smtp_check_compare_spec_witness :
  smtp_check_compare example_compare_conn_opts
    (example_checker_conf "probe") (example_checker_conf "probe") = true /\
  smtp_check_compare example_compare_conn_opts
    (example_checker_conf "probe") (example_checker_conf "other") <> true.
Proof.
  split.
  - destruct (smtp_check_compare_spec example_compare_conn_opts
                (example_checker_conf "probe") (example_checker_conf "probe"))
      as [_ Hrefl].
    { vm_compute. reflexivity. }
    apply Hrefl. intros [x|]; simpl; [|reflexivity].
    rewrite !Z.eqb_refl. reflexivity.
  - destruct (smtp_check_compare_spec example_compare_conn_opts
                (example_checker_conf "probe") (example_checker_conf "other"))
      as [Hiff _].
    { vm_compute. reflexivity. }
    intros H. apply Hiff in H. destruct H as [H _]. vm_compute in H. discriminate H.
Defined.

(** X18 for a block with a port of its own and one host block: the block's
    own target is appended after that of the host block, with the default
    destination, its own port and the timeout of 5 seconds. *)
Lemma smtp_check_end_handler_hosts_witness :
  exists c',
    smtp_check_end_handler 1000000 (list_ascii_of_string "smtp.keepalived.org") false
      example_check_conn_opts example_set_dst_port example_conf = ConfDone c' /\
    conf_host c' =
      [example_connect_timeout example_default_co;
       mk_full_conn_opts (mk_sockaddr_storage 2 587 [192; 0; 2; 1])
         (mk_sockaddr_storage 0 0 []) [] 0 5000000] /\
    conf_helo_name c' = Some (list_ascii_of_string "smtp.keepalived.org" ++ [NUL]).
Proof.
  destruct (smtp_check_end_handler 1000000 (list_ascii_of_string "smtp.keepalived.org")
              false example_check_conn_opts example_set_dst_port example_conf)
    as [c'|] eqn:Hrun; [|vm_compute in Hrun; discriminate Hrun].
  destruct (smtp_check_end_handler_hosts _ _ _ _ _ _ _ Hrun)
    as ((co & Hco & Hbody) & _ & Hhelo & _).
  exists c'. split; [reflexivity|].
  simpl in Hco. injection Hco as <-.
  change (component_configured false (example_connect_port zero_conn_opts)) with true
    in Hbody.
  cbv iota in Hbody.
  destruct Hbody as (co1 & Hh & _ & Hb & Hi & Hm & Hto & _ & Hdst).
  change (ss_family (co_dst (example_connect_port zero_conn_opts)) =? AF_UNSPEC) with true
    in Hdst.
  cbv iota in Hdst. destruct Hdst as (d & Hd & Hdst).
  simpl in Hd. injection Hd as <-.
  split.
  - rewrite Hh. destruct co1 as [dst bindto bind_if fwmark to].
    simpl in Hb, Hi, Hm, Hto, Hdst. subst. reflexivity.
  - rewrite Hhelo. vm_compute. reflexivity.
Defined.

(** X19 for three host blocks, the second of which is rejected. *)
Lemma host_blocks_keep_order_witness :
  exists c',
    host_blocks example_check_conn_opts
      [example_connect_port; example_no_destination; example_connect_timeout]
      example_conf = ConfDone c' /\
    conf_host c' =
      [example_connect_timeout example_default_co;
       example_connect_port example_default_co;
       example_connect_timeout example_default_co] /\
    conf_co c' = Some (example_connect_port zero_conn_opts).
Proof.
  destruct (host_blocks_keep_order example_check_conn_opts
              [example_connect_port; example_no_destination; example_connect_timeout]
              example_conf example_default_co)
    as (c' & Hrun & Hh & Hco & _).
  { reflexivity. }
  exists c'. split; [exact Hrun|]. split; [rewrite Hh; vm_compute; reflexivity|].
  rewrite Hco. reflexivity.
Defined.

(** X20 for a block with a connection timeout of its own and one host
    block that sets a port.  With the default target the targets are that
    of the host block and then the block's own.  With a default target that
    has no destination, [check_conn_opts] rejects the block's own target
    and the block ends in a fault. *)
Lemma smtp_check_block_targets_witness :
  (exists c,
     smtp_check_block 1000000 (list_ascii_of_string "smtp.keepalived.org") false
       example_check_conn_opts example_set_dst_port example_default_co None None
       example_connect_timeout [example_connect_port] = ConfDone c /\
     conf_host c =
       [example_connect_port example_default_co;
        example_connect_timeout example_default_co]) /\
  smtp_check_block 1000000 (list_ascii_of_string "smtp.keepalived.org") false
    example_check_conn_opts example_set_dst_port zero_conn_opts None None
    example_connect_timeout [example_connect_port] = ConfFault.
Proof.
  split.
  - pose proof (smtp_check_block_targets 1000000
                  (list_ascii_of_string "smtp.keepalived.org") false
                  example_check_conn_opts example_set_dst_port example_default_co
                  None None example_connect_timeout [example_connect_port]) as Hm.
    cbv zeta in Hm. destruct Hm as (co1 & Hw & Hm).
    vm_compute in Hw. injection Hw as <-.
    destruct (smtp_check_block _ _ _ _ _ _ _ _ _ _) as [c|].
    + exists c. split; [reflexivity|].
      destruct Hm as (_ & Hh & _). rewrite Hh. vm_compute. reflexivity.
    + destruct Hm as [_ Hm]. vm_compute in Hm. discriminate Hm.
  - pose proof (smtp_check_block_targets 1000000
                  (list_ascii_of_string "smtp.keepalived.org") false
                  example_check_conn_opts example_set_dst_port zero_conn_opts
                  None None example_connect_timeout [example_connect_port]) as Hm.
    cbv zeta in Hm. destruct Hm as (co1 & Hw & Hm).
    vm_compute in Hw. injection Hw as <-.
    destruct (smtp_check_block _ _ _ _ _ _ _ _ _ _) as [c|]; [|reflexivity].
    destruct Hm as (_ & _ & Hm). specialize (Hm eq_refl).
    vm_compute in Hm. discriminate Hm.
Defined.

(** X21 on a read timeout while the greeting is awaited: the socket is
    closed and the connect orchestrator is left pending. *)
Lemma attempt_end_closes_socket_witness :
  exists w' tr,
    run_callback (E:=example_env) (example_thread THREAD_READ_TIMEOUT)
      (CbGetLine (ReadBytes [])) greeting_wait_world = Done tt w' tr /\
    registered tr = [fn_smtp_connect_thread] /\
    closed tr = [7].
Proof.
  destruct (run_callback (E:=example_env) (example_thread THREAD_READ_TIMEOUT)
              (CbGetLine (ReadBytes [])) greeting_wait_world)
    as [[] w' tr|tr] eqn:Hrun; [|vm_compute in Hrun; discriminate Hrun].
  pose proof (attempt_end_closes_socket (E:=example_env) _ _ _ _ _ Hrun) as Hclose.
  exists w', tr. split; [reflexivity|].
  destruct Hclose as [[Hr Hc]|(f & Hr & Hf & Hc)]; [split; assumption|].
  exfalso. vm_compute in Hrun. inversion Hrun; subst. vm_compute in Hr.
  inversion Hr; subst. apply Hf. reflexivity.
Defined.
